(** * The geometric transform engine of the page editor

    A shallow embedding of the pure-math core of the editor
    ([geometry.ts]: normalizer, rotation-space mapper, transform builder,
    affine composer, canonical facade), of the numeric part of the canvas
    renderer adapter ([createRenderPageToCanvas], [calculateSourceRect],
    [clampRect]) and of the recipe validator ([validateRecipe]).

    Numbers.  A JavaScript number is modelled as an exact rational: the
    model covers the finite values, without NaN and the infinities, and
    without rounding.  Equality of numbers is [Qeq] ([==]); records are
    compared field by field.  A division whose divisor is zero leaves the
    model (JavaScript gives an infinity or NaN there); wherever a result
    below divides, the divisor is a non-zero constant or is assumed to be at
    least one.

    Optional fields ([rotation?: number], [cropArea?: CropArea | null]) are
    [option]s; [None] stands for both [undefined] and [null].

    Console output is a writer effect: the functions that call
    [console.warn], [console.error] or [console.log] return their value
    together with the diagnostics they recorded.

    Exceptions.  The validator reads its argument unguarded; its result is
    a [Completion]: the value returned, or the [TypeError] thrown on a
    recipe or a page that is [null] and on pages that are no array. *)

From Stdlib Require Import QArith Qround Qabs ZArith List Lia Lqa Bool Ascii String.
Import ListNotations.

Open Scope Q_scope.

(** ** JavaScript number primitives *)

Module JS.

(** [a < b], [a > b], [a <= b], [a >= b], [a === b], [a !== b]. *)
Definition ltb (a b : Q) : bool := negb (Qle_bool b a).
Definition gtb (a b : Q) : bool := negb (Qle_bool a b).
Definition leb (a b : Q) : bool := Qle_bool a b.
Definition geb (a b : Q) : bool := Qle_bool b a.
Definition eqb (a b : Q) : bool := Qeq_bool a b.
Definition neqb (a b : Q) : bool := negb (Qeq_bool a b).

(** [Math.max], [Math.min], [Math.abs], [Math.sign]. *)
Definition max (a b : Q) : Q := if Qle_bool a b then b else a.
Definition min (a b : Q) : Q := if Qle_bool a b then a else b.
Definition abs (a : Q) : Q := Qabs a.
Definition sign (a : Q) : Q :=
  if ltb 0 a then 1 else if ltb a 0 then -1 else 0.

(** The integer part, rounding toward zero. *)
Definition trunc (q : Q) : Z :=
  if Qle_bool 0 q then Qfloor q else Qceiling q.

(** [a % b]: the remainder has the sign of the dividend,
    [a - b * trunc (a / b)]. *)
Definition rem (a b : Q) : Q := a - b * inject_Z (trunc (a / b)).

(** [Math.round]: the nearest integer, halves going up. *)
Definition round (a : Q) : Q := inject_Z (Qfloor (a + (1 # 2))).

(** A number is falsy when it is zero. *)
Definition truthy (a : Q) : bool := negb (Qeq_bool a 0).

(** [v || d] on an optional number. *)
Definition or_else (v : option Q) (d : Q) : Q :=
  match v with
  | Some a => if truthy a then a else d
  | None => d
  end.

(** The default of a destructuring pattern, [{ v = d }]: it applies to
    [undefined] only. *)
Definition default (v : option Q) (d : Q) : Q :=
  match v with
  | Some a => a
  | None => d
  end.

End JS.

Declare Scope js_scope.
Delimit Scope js_scope with js.
Infix "<?" := JS.ltb (at level 70, no associativity) : js_scope.
Infix ">?" := JS.gtb (at level 70, no associativity) : js_scope.
Infix "<=?" := JS.leb (at level 70, no associativity) : js_scope.
Infix ">=?" := JS.geb (at level 70, no associativity) : js_scope.
Infix "=?" := JS.eqb (at level 70, no associativity) : js_scope.
Infix "<>?" := JS.neqb (at level 70, no associativity) : js_scope.
Open Scope js_scope.

(** ** The console *)

Inductive Diagnostic : Type :=
  (** [Unexpected rotation ..., using crop as-is] *)
  | WarnUnexpectedRotation (rotationCase : Q)
  (** [Remapped crop for ... rotation] *)
  | LogRemappedCrop (rotation : Q)
  (** [Crop shifted left to fit within page bounds] *)
  | WarnCropShiftedLeft (x : Q)
  (** [Crop too wide for shift, clamped to full width] *)
  | WarnCropTooWide
  (** [Crop shifted up to fit within page bounds] *)
  | WarnCropShiftedUp (y : Q)
  (** [Crop too tall for shift, clamped to full height] *)
  | WarnCropTooTall
  (** [Invalid crop rectangle after normalization] *)
  | ErrorInvalidCrop (x y w h : Q)
  (** [Scale too small], [Scale too large] *)
  | WarnScaleTooSmall (scale : Q)
  | WarnScaleTooLarge (scale : Q)
  (** [Offset X too large], [Offset Y too large] *)
  | WarnOffsetXTooLarge (offset bound : Q)
  | WarnOffsetYTooLarge (offset bound : Q).

Definition Console (A : Type) : Type := (A * list Diagnostic)%type.

Definition ret {A : Type} (a : A) : Console A := (a, []).

Definition bind {A B : Type} (m : Console A) (k : A -> Console B) : Console B :=
  let (b, later) := k (fst m) in (b, snd m ++ later).

Definition emit (d : Diagnostic) : Console unit := (tt, [d]).

(** The value a computation returns, and what it wrote. *)
Definition value {A : Type} (m : Console A) : A := fst m.
Definition written {A : Type} (m : Console A) : list Diagnostic := snd m.

Notation "x <- m ;; k" := (bind m (fun x => k))
  (at level 61, m at next level, right associativity).
Notation "m ;; k" := (bind m (fun _ => k))
  (at level 61, right associativity).

(** ** Data model *)

Record Dimensions : Type := mkDimensions {
  dimWidth : Q;
  dimHeight : Q
}.

Record CropArea : Type := mkCropArea {
  cropX : Q;
  cropY : Q;
  cropWidth : Q;
  cropHeight : Q
}.

Record EditHistory : Type := mkEditHistory {
  cropArea : option CropArea;
  rotation : option Q;
  scale : option Q;
  offsetX : option Q;
  offsetY : option Q
}.

Record SourceRect : Type := mkSourceRect {
  rectX : Q;
  rectY : Q;
  rectWidth : Q;
  rectHeight : Q
}.

Record GeometricTransform : Type := mkGeometricTransform {
  sourceRect : SourceRect;
  scaleToFit : Q;
  finalScale : Q;
  drawWidth : Q;
  drawHeight : Q;
  drawX : Q;
  drawY : Q;
  pdfDrawX : Q;
  pdfDrawY : Q;
  pdfRotation : Q;
  transformOffsetX : Q;
  transformOffsetY : Q
}.

(** The matrix [| a c e |; | b d f |; | 0 0 1 |]. *)
Module AffineMatrix.
Record t : Type := mk { a : Q; b : Q; c : Q; d : Q; e : Q; f : Q }.
End AffineMatrix.
Definition AffineMatrix : Type := AffineMatrix.t.

(** [GeometricTransform & { affineMatrix: AffineMatrix }] *)
Record CanonicalTransform : Type := mkCanonicalTransform {
  transform : GeometricTransform;
  affineMatrix : AffineMatrix
}.

(** [Math.PI], [Math.cos] and [Math.sin]: their values are rationals (every
    double is one), and which rationals is left to the library. *)
Class MathLib : Type := {
  Math_PI : Q;
  Math_cos : Q -> Q;
  Math_sin : Q -> Q
}.

(** Field-wise equality of the records. *)
Definition crop_eq (p q : CropArea) : Prop :=
  cropX p == cropX q /\ cropY p == cropY q /\
  cropWidth p == cropWidth q /\ cropHeight p == cropHeight q.

Definition rect_eq (p q : SourceRect) : Prop :=
  rectX p == rectX q /\ rectY p == rectY q /\
  rectWidth p == rectWidth q /\ rectHeight p == rectHeight q.

Definition opt_eq {A : Type} (R : A -> A -> Prop) (p q : option A) : Prop :=
  match p, q with
  | Some u, Some v => R u v
  | None, None => True
  | _, _ => False
  end.

Definition edit_eq (p q : EditHistory) : Prop :=
  opt_eq crop_eq (cropArea p) (cropArea q) /\
  opt_eq Qeq (rotation p) (rotation q) /\
  opt_eq Qeq (scale p) (scale q) /\
  opt_eq Qeq (offsetX p) (offsetX q) /\
  opt_eq Qeq (offsetY p) (offsetY q).

(** Every field of [p] is within [eps] of the same field of [q]. *)
Definition crop_close (eps : Q) (p q : CropArea) : Prop :=
  Qabs (cropX p - cropX q) <= eps /\ Qabs (cropY p - cropY q) <= eps /\
  Qabs (cropWidth p - cropWidth q) <= eps /\
  Qabs (cropHeight p - cropHeight q) <= eps.

(** ** geometry.ts *)

Module Geometry.

(** Original page space to rotated canvas space. *)
Definition forwardMapCropToRotation (crop : CropArea) (rotation : Q)
  : Console CropArea :=
  let normalizedRotation := JS.rem (JS.rem rotation 360 + 360) 360 in
  let rotationCase := JS.round (normalizedRotation / 90) * 90 in
  if (rotationCase =? 0) || (rotationCase =? 360) then ret crop
  else if rotationCase =? 90 then
    ret {| cropX := cropY crop;
           cropY := 1 - (cropX crop + cropWidth crop);
           cropWidth := cropHeight crop;
           cropHeight := cropWidth crop |}
  else if rotationCase =? 180 then
    ret {| cropX := 1 - (cropX crop + cropWidth crop);
           cropY := 1 - (cropY crop + cropHeight crop);
           cropWidth := cropWidth crop;
           cropHeight := cropHeight crop |}
  else if rotationCase =? 270 then
    ret {| cropX := 1 - (cropY crop + cropHeight crop);
           cropY := cropX crop;
           cropWidth := cropHeight crop;
           cropHeight := cropWidth crop |}
  else
    emit (WarnUnexpectedRotation rotationCase) ;;
    ret crop.

(** Rotated canvas space back to original page space. *)
Definition remapCropForRotation (crop : CropArea) (rotation : Q)
  : Console CropArea :=
  let normalizedRotation := JS.rem (JS.rem rotation 360 + 360) 360 in
  let rotationCase := JS.round (normalizedRotation / 90) * 90 in
  if (rotationCase =? 0) || (rotationCase =? 360) then ret crop
  else if rotationCase =? 90 then
    ret {| cropX := 1 - (cropY crop + cropHeight crop);
           cropY := cropX crop;
           cropWidth := cropHeight crop;
           cropHeight := cropWidth crop |}
  else if rotationCase =? 180 then
    ret {| cropX := 1 - (cropX crop + cropWidth crop);
           cropY := 1 - (cropY crop + cropHeight crop);
           cropWidth := cropWidth crop;
           cropHeight := cropHeight crop |}
  else if rotationCase =? 270 then
    ret {| cropX := cropY crop;
           cropY := 1 - (cropX crop + cropWidth crop);
           cropWidth := cropHeight crop;
           cropHeight := cropWidth crop |}
  else
    emit (WarnUnexpectedRotation rotationCase) ;;
    ret crop.

Definition remapCropBetweenRotations
  (crop : CropArea) (oldRotation newRotation : Q) : Console CropArea :=
  cropInOriginalSpace <- remapCropForRotation crop oldRotation ;;
  cropInNewSpace <- forwardMapCropToRotation cropInOriginalSpace newRotation ;;
  ret cropInNewSpace.

(** The normalizer.  Never fails: every branch returns an edit. *)
Definition normalizeEditHistory
  (originalDims : Dimensions) (editHistory : option EditHistory)
  : Console EditHistory :=
  match editHistory with
  | None =>
      ret {| cropArea := None; rotation := Some 0; scale := Some 100;
             offsetX := Some 0; offsetY := Some 0 |}
  | Some editHistory =>
      (* 1. crop area *)
      normalizedCropArea <-
        match cropArea editHistory with
        | None => ret None
        | Some crop =>
            let MIN_CROP_SIZE := 0.01 in
            let width :=
              JS.max MIN_CROP_SIZE (JS.max 0 (JS.min 1 (cropWidth crop))) in
            let height :=
              JS.max MIN_CROP_SIZE (JS.max 0 (JS.min 1 (cropHeight crop))) in
            let x := JS.max 0 (JS.min 1 (cropX crop)) in
            let y := JS.max 0 (JS.min 1 (cropY crop)) in
            horizontal <-
              (if x + width >? 1 then
                 let newX := 1 - width in
                 if newX >=? 0 then
                   emit (WarnCropShiftedLeft newX) ;; ret (newX, width)
                 else
                   emit WarnCropTooWide ;; ret (0, 1)
               else ret (x, width)) ;;
            let '(x, width) := horizontal in
            vertical <-
              (if y + height >? 1 then
                 let newY := 1 - height in
                 if newY >=? 0 then
                   emit (WarnCropShiftedUp newY) ;; ret (newY, height)
                 else
                   emit WarnCropTooTall ;; ret (0, 1)
               else ret (y, height)) ;;
            let '(y, height) := vertical in
            if (x <? 0) || (y <? 0) || (width <=? 0) || (height <=? 0)
               || (x + width >? 1) || (y + height >? 1)
            then
              emit (ErrorInvalidCrop x y width height) ;;
              ret (Some {| cropX := 0; cropY := 0;
                           cropWidth := 1; cropHeight := 1 |})
            else
              ret (Some {| cropX := x; cropY := y;
                           cropWidth := width; cropHeight := height |})
        end ;;
      (* 2. rotation *)
      let normalizedRotation := JS.or_else (rotation editHistory) 0 in
      let normalizedRotation :=
        JS.rem (JS.rem normalizedRotation 360 + 360) 360 in
      let normalizedRotation :=
        if normalizedRotation >? 180 then normalizedRotation - 360
        else normalizedRotation in
      let normalizedRotation := JS.round (normalizedRotation * 10) / 10 in
      (* 3. scale *)
      let normalizedScale := JS.or_else (scale editHistory) 100 in
      let MIN_SCALE := 10 in
      let MAX_SCALE := 500 in
      normalizedScale <-
        (if normalizedScale <? MIN_SCALE then
           emit (WarnScaleTooSmall normalizedScale) ;; ret MIN_SCALE
         else ret normalizedScale) ;;
      normalizedScale <-
        (if normalizedScale >? MAX_SCALE then
           emit (WarnScaleTooLarge normalizedScale) ;; ret MAX_SCALE
         else ret normalizedScale) ;;
      (* 4. offsets *)
      let maxOffsetX := dimWidth originalDims * 0.5 in
      let maxOffsetY := dimHeight originalDims * 0.5 in
      let normalizedOffsetX := JS.or_else (offsetX editHistory) 0 in
      let normalizedOffsetY := JS.or_else (offsetY editHistory) 0 in
      normalizedOffsetX <-
        (if JS.abs normalizedOffsetX >? maxOffsetX then
           emit (WarnOffsetXTooLarge normalizedOffsetX maxOffsetX) ;;
           ret (JS.sign normalizedOffsetX * maxOffsetX)
         else ret normalizedOffsetX) ;;
      normalizedOffsetY <-
        (if JS.abs normalizedOffsetY >? maxOffsetY then
           emit (WarnOffsetYTooLarge normalizedOffsetY maxOffsetY) ;;
           ret (JS.sign normalizedOffsetY * maxOffsetY)
         else ret normalizedOffsetY) ;;
      ret {| cropArea := normalizedCropArea;
             rotation := Some normalizedRotation;
             scale := Some normalizedScale;
             offsetX := Some normalizedOffsetX;
             offsetY := Some normalizedOffsetY |}
  end.

(** The auto-fit scale on its own: here the 10% margin applies at every
    rotation, zero included. *)
Definition calculateScaleToFit
  (sourceWidth sourceHeight targetWidth targetHeight rotation : Q) : Q :=
  let normalizedRotation := JS.rem (JS.rem rotation 360 + 360) 360 in
  let isRotated90or270 :=
    (normalizedRotation =? 90) || (normalizedRotation =? 270) in
  if isRotated90or270 then
    let scaleX := targetWidth / sourceHeight in
    let scaleY := targetHeight / sourceWidth in
    JS.min scaleX scaleY * 0.90
  else
    let scaleX := targetWidth / sourceWidth in
    let scaleY := targetHeight / sourceHeight in
    JS.min scaleX scaleY * 0.90.

Definition normalizeRotation (rotation : Q) : Q :=
  JS.rem (JS.rem rotation 360 + 360) 360.

Definition isRotated90or270 (rotation : Q) : bool :=
  let normalized := normalizeRotation rotation in
  (normalized =? 90) || (normalized =? 270).

Section WithMath.

Context {M : MathLib}.

(** The transform builder. *)
Definition buildGeometricTransform
  (originalDims targetDims : Dimensions) (editHistory : option EditHistory)
  : Console GeometricTransform :=
  let cropArea :=
    match editHistory with Some h => cropArea h | None => None end in
  let rotation :=
    JS.default (match editHistory with Some h => rotation h | None => None end) 0 in
  let scale :=
    JS.default (match editHistory with Some h => scale h | None => None end) 100 in
  let offsetX :=
    JS.default (match editHistory with Some h => offsetX h | None => None end) 0 in
  let offsetY :=
    JS.default (match editHistory with Some h => offsetY h | None => None end) 0 in
  (* Step 1: source rectangle *)
  sourceRect <-
    match cropArea with
    | None =>
        ret {| rectX := 0; rectY := 0;
               rectWidth := dimWidth originalDims;
               rectHeight := dimHeight originalDims |}
    | Some cropArea =>
        cropInOriginalSpace <-
          (if rotation <>? 0 then remapCropForRotation cropArea rotation
           else ret cropArea) ;;
        (if rotation <>? 0 then emit (LogRemappedCrop rotation)
         else ret tt) ;;
        ret {| rectX := cropX cropInOriginalSpace * dimWidth originalDims;
               rectY := cropY cropInOriginalSpace * dimHeight originalDims;
               rectWidth :=
                 cropWidth cropInOriginalSpace * dimWidth originalDims;
               rectHeight :=
                 cropHeight cropInOriginalSpace * dimHeight originalDims |}
    end ;;
  (* Step 2: auto-scale, for rotation only *)
  let normalizedRotation := JS.rem (JS.rem rotation 360 + 360) 360 in
  let isRotated90or270 :=
    (normalizedRotation =? 90) || (normalizedRotation =? 270) in
  let scaleToFit :=
    if rotation <>? 0 then
      if isRotated90or270 then
        let scaleX := dimWidth targetDims / rectHeight sourceRect in
        let scaleY := dimHeight targetDims / rectWidth sourceRect in
        JS.min scaleX scaleY * 0.90
      else
        let scaleX := dimWidth targetDims / rectWidth sourceRect in
        let scaleY := dimHeight targetDims / rectHeight sourceRect in
        JS.min scaleX scaleY * 0.90
    else 1 in
  (* Step 3: user scale *)
  let userScaleFactor := scale / 100 in
  let finalScale := scaleToFit * userScaleFactor in
  (* Step 4: draw dimensions *)
  let drawWidth := rectWidth sourceRect * finalScale in
  let drawHeight := rectHeight sourceRect * finalScale in
  (* Step 5: canvas position *)
  let drawX := - drawWidth / 2 in
  let drawY := - drawHeight / 2 in
  (* Step 6: position in the bottom-left-origin space *)
  let radians := (- rotation * Math_PI) / 180 in
  let cos := Math_cos radians in
  let sin := Math_sin radians in
  let vectorX := - drawWidth / 2 in
  let vectorY := - drawHeight / 2 in
  let rotatedVectorX := vectorX * cos - vectorY * sin in
  let rotatedVectorY := vectorX * sin + vectorY * cos in
  let pageCenterX := dimWidth targetDims / 2 in
  let pageCenterY := dimHeight targetDims / 2 in
  let pdfDrawX := pageCenterX + rotatedVectorX + offsetX in
  let pdfDrawY := pageCenterY + rotatedVectorY - offsetY in
  ret {| sourceRect := sourceRect;
         scaleToFit := scaleToFit;
         finalScale := finalScale;
         drawWidth := drawWidth;
         drawHeight := drawHeight;
         drawX := drawX;
         drawY := drawY;
         pdfDrawX := pdfDrawX;
         pdfDrawY := pdfDrawY;
         pdfRotation := - rotation;
         transformOffsetX := offsetX;
         transformOffsetY := offsetY |}.

(** The affine composer. *)
Definition buildAffineMatrix
  (centerX centerY rotation scale offsetX offsetY : Q) : AffineMatrix :=
  let radians := (- rotation * Math_PI) / 180 in
  let cos := Math_cos radians in
  let sin := Math_sin radians in
  let a := scale * cos in
  let b := scale * sin in
  let c := - scale * sin in
  let d := scale * cos in
  let e := centerX + offsetX - (centerX * a + centerY * c) in
  let f := centerY + offsetY - (centerX * b + centerY * d) in
  {| AffineMatrix.a := a; AffineMatrix.b := b; AffineMatrix.c := c;
     AffineMatrix.d := d; AffineMatrix.e := e; AffineMatrix.f := f |}.

(** The facade: normalizer, then builder, then composer. *)
Definition buildCanonicalTransform
  (originalDims targetDims : Dimensions) (editHistory : option EditHistory)
  : Console CanonicalTransform :=
  normalized <- normalizeEditHistory originalDims editHistory ;;
  transform <-
    buildGeometricTransform originalDims targetDims (Some normalized) ;;
  let centerX := dimWidth targetDims / 2 in
  let centerY := dimHeight targetDims / 2 in
  let affineMatrix :=
    buildAffineMatrix centerX centerY
      (JS.or_else (rotation normalized) 0)
      (finalScale transform)
      (JS.or_else (offsetX normalized) 0)
      (JS.or_else (offsetY normalized) 0) in
  ret {| transform := transform; affineMatrix := affineMatrix |}.

End WithMath.

End Geometry.

(** ** The canvas renderer adapter *)

Module CanvasRendererAdapter.



Definition normalizeRotation (r : Q) : Q := JS.rem (JS.rem r 360 + 360) 360.

Definition clampRect (x y w h maxW maxH : Q) : SourceRect :=
  let cx := JS.max 0 (JS.min x (maxW - 1)) in
  let cy := JS.max 0 (JS.min y (maxH - 1)) in
  let cw := JS.max 1 (JS.min w (maxW - cx)) in
  let ch := JS.max 1 (JS.min h (maxH - cy)) in
  {| rectX := cx; rectY := cy; rectWidth := cw; rectHeight := ch |}.

Definition calculateSourceRect
  (crop : option CropArea) (rotation origW origH : Q) : SourceRect :=
  match crop with
  | None =>
      {| rectX := 0; rectY := 0; rectWidth := origW; rectHeight := origH |}
  | Some crop =>
      let isSwapped := (rotation =? 90) || (rotation =? 270) in
      let viewW := if isSwapped then origH else origW in
      let viewH := if isSwapped then origW else origH in
      let vx := cropX crop * viewW in
      let vy := cropY crop * viewH in
      let vw := cropWidth crop * viewW in
      let vh := cropHeight crop * viewH in
      let '(ox, oy, ow, oh) :=
        if rotation =? 0 then (vx, vy, vw, vh)
        else if rotation =? 90 then (vy, origH - vx - vw, vh, vw)
        else if rotation =? 180 then (origW - vx - vw, origH - vy - vh, vw, vh)
        else if rotation =? 270 then (origW - vy - vh, vx, vh, vw)
        else (vx, vy, vw, vh) in
      clampRect ox oy ow oh origW origH
  end.


End CanvasRendererAdapter.

(** ** The recipe validator *)

Module Recipe.

Record Transforms : Type := mkTransforms {
  rotation : option Q;
  scale : option Q;
  offsetX : option Q;
  offsetY : option Q;
  crop : option CropArea
}.

Record Page : Type := mkPage {
  transforms : option Transforms
}.

Record Source : Type := mkSource {
  fileName : option string
}.

(** The value of [recipe.pages] when it is not [null] or [undefined]: an
    array, whose entries may themselves be [null] or [undefined], or a value
    that is no array and so has no [forEach]. *)
Inductive Pages : Type :=
  | PageArray (entries : list (option Page))
  | NotAnArray.

Record t : Type := mk {
  version : option string;
  source : option Source;
  pages : option Pages
}.

(** How a call ends: it returns a value, or a [TypeError] is thrown. *)
Inductive Completion (A : Type) : Type :=
  | Returned (result : A)
  | TypeError.

Arguments Returned {A} result.
Arguments TypeError {A}.

(** One constructor per message the validator can push; [page] is the
    number printed in the message, [index + 1]. *)
Inductive Violation : Type :=
  | MissingVersion
  | MissingSourceFileName
  | NoPages
  | InvalidRotation (page : nat) (rotation : Q)
  | InvalidScale (page : nat) (scale : Q)
  | InvalidCropArea (page : nat)
  | CropExceedsBounds (page : nat).

Record Validation : Type := mkValidation {
  valid : bool;
  errors : list Violation
}.

(** A string is truthy when it is present and not empty. *)
Definition truthy_string (s : option string) : bool :=
  match s with
  | Some EmptyString => false
  | Some _ => true
  | None => false
  end.

(** [p?.field] *)
Definition chain {A B : Type} (p : option A) (field : A -> option B)
  : option B :=
  match p with
  | Some v => field v
  | None => None
  end.

(** A present, non-zero number: the left operand of [v && ...]. *)
Definition truthy_number (v : option Q) : option Q :=
  match v with
  | Some n => if JS.truthy n then Some n else None
  | None => None
  end.

(** [[0, 90, 180, 270].includes(r)] *)
Definition includes (l : list Q) (r : Q) : bool := existsb (JS.eqb r) l.

(** The body of the [forEach] callback: what one page adds to [errors]. *)
Definition validatePage (page : Page) (index : nat) : list Violation :=
  (match truthy_number (chain (transforms page) rotation) with
   | Some r =>
       if negb (includes [0; 90; 180; 270] r)
       then [InvalidRotation (index + 1) r] else []
   | None => []
   end)
  ++
  (match truthy_number (chain (transforms page) scale) with
   | Some s =>
       if (s <? 10) || (s >? 500)
       then [InvalidScale (index + 1) s] else []
   | None => []
   end)
  ++
  (match chain (transforms page) crop with
   | Some crop =>
       (if (cropX crop <? 0) || (cropY crop <? 0)
           || (cropWidth crop <=? 0) || (cropHeight crop <=? 0)
        then [InvalidCropArea (index + 1)] else [])
       ++
       (if (cropX crop + cropWidth crop >? 1.01)
           || (cropY crop + cropHeight crop >? 1.01)
        then [CropExceedsBounds (index + 1)] else [])
   | None => []
   end).

(** [pages.forEach((page, index) => ...)], from [index] on: what the
    callback pushes, page after page.  The callback reads [page.transforms]
    unguarded, so an entry that is [null] or [undefined] throws. *)
Fixpoint forEachPage (pages : list (option Page)) (index : nat)
  : Completion (list Violation) :=
  match pages with
  | [] => Returned []
  | None :: _ => TypeError
  | Some page :: rest =>
      match forEachPage rest (S index) with
      | Returned pushed => Returned (validatePage page index ++ pushed)
      | TypeError => TypeError
      end
  end.

(** [validateRecipe]; [None] is a recipe that is [null] or [undefined], on
    which reading [recipe.version] throws. *)
Definition validateRecipe (recipe : option t) : Completion Validation :=
  match recipe with
  | None => TypeError
  | Some recipe =>
      let errors := [] in
      let errors :=
        if negb (truthy_string (version recipe))
        then errors ++ [MissingVersion] else errors in
      let errors :=
        if negb (truthy_string (chain (source recipe) fileName))
        then errors ++ [MissingSourceFileName] else errors in
      match pages recipe with
      | None =>
          (* [!recipe.pages] holds, and [recipe.pages?.forEach] is skipped *)
          let errors := errors ++ [NoPages] in
          Returned {| valid := (List.length errors =? 0)%nat;
                      errors := errors |}
      | Some NotAnArray =>
          (* whatever the test before pushed, [forEach] is not a function *)
          TypeError
      | Some (PageArray entries) =>
          let errors :=
            if (List.length entries =? 0)%nat
            then errors ++ [NoPages] else errors in
          match forEachPage entries 0 with
          | Returned pushed =>
              let errors := errors ++ pushed in
              Returned {| valid := (List.length errors =? 0)%nat;
                          errors := errors |}
          | TypeError => TypeError
          end
      end
  end.

End Recipe.

(** ** The page orientation *)

Module PageOrientation.

Inductive PageOrientation : Type := portrait | landscape | square.

Record PageDimensions : Type := mkPageDimensions {
  width : Q;
  height : Q;
  orientation : PageOrientation
}.

Definition detectPageOrientation (width height : Q) : PageOrientation :=
  let aspectRatio := width / height in
  if JS.abs (aspectRatio - 1) <? 0.05 then square
  else if width >? height then landscape else portrait.

Definition getPageDimensions (width height : Q) : PageDimensions :=
  {| width := width; height := height;
     orientation := detectPageOrientation width height |}.

End PageOrientation.

(** ** The recipe exporter *)

Module RecipeExporter.

(** What [generatePrintRecipe] is given. *)
Record FileMeta : Type := mkFileMeta {
  name : option string;
  size : option Q;
  type : option string
}.

Record PrintSettings : Type := mkPrintSettings {
  inPaperSize : option string;
  inColorMode : option string;
  inDuplex : option bool;
  inCopies : option Q;
  inPagesPerSheet : option Q;
  inQuality : option string
}.

(** A page's [editHistory], with the two flags the exporter reads. *)
Record PageEdits : Type := mkPageEdits {
  inRotation : option Q;
  inScale : option Q;
  inOffsetX : option Q;
  inOffsetY : option Q;
  inCropArea : option CropArea;
  inIsCropped : option bool;
  inFitCropToPage : option bool
}.

Record InputPage : Type := mkInputPage {
  inPageNumber : option Q;
  inWidth : option Q;
  inHeight : option Q;
  inEditHistory : option PageEdits;
  inEdited : option bool
}.

Record Options : Type := mkOptions {
  file : option FileMeta;
  inPages : option (list InputPage);
  printSettings : option PrintSettings;
  shopId : option string
}.

(** What it returns. *)
Record PageTransforms : Type := mkPageTransforms {
  rotation : Q;
  scale : Q;
  offsetX : Q;
  offsetY : Q;
  crop : option CropArea
}.

Record PageRecipe : Type := mkPageRecipe {
  pageNumber : Q;
  originalDimensions : Dimensions;
  transforms : PageTransforms;
  hasEdits : bool;
  isCropped : bool;
  fitCropToPage : bool
}.

Record RecipeSource : Type := mkRecipeSource {
  fileName : string;
  fileSize : Q;
  fileType : string;
  totalPages : Q
}.

Record RecipePrint : Type := mkRecipePrint {
  paperSize : string;
  colorMode : string;
  duplex : bool;
  copies : Q;
  pagesPerSheet : Q;
  quality : string
}.

Record PrintRecipe : Type := mkPrintRecipe {
  version : string;
  recipeType : string;
  generatedAt : string;
  source : RecipeSource;
  print : RecipePrint;
  pages : list PageRecipe;
  destination : option string
}.

(** [v || d] on an optional string and on an optional flag. *)
Definition string_or (v : option string) (d : string) : string :=
  match v with
  | Some EmptyString => d
  | Some text => text
  | None => d
  end.

Definition flag_or_false (v : option bool) : bool :=
  match v with
  | Some flag => flag
  | None => false
  end.

(** The callback of [pages.map]. *)
Definition generatePageRecipe (page : InputPage) (index : nat) : PageRecipe :=
  let editHistory := inEditHistory page in
  let field {A : Type} (get : PageEdits -> option A) : option A :=
    match editHistory with
    | Some h => get h
    | None => None
    end in
  {| pageNumber :=
       JS.or_else (inPageNumber page) (inject_Z (Z.of_nat index) + 1);
     originalDimensions :=
       {| dimWidth := JS.or_else (inWidth page) 595;
          dimHeight := JS.or_else (inHeight page) 842 |};
     transforms :=
       {| rotation := JS.or_else (field inRotation) 0;
          scale := JS.or_else (field inScale) 100;
          offsetX := JS.or_else (field inOffsetX) 0;
          offsetY := JS.or_else (field inOffsetY) 0;
          crop :=
            match field inCropArea with
            | Some area =>
                Some {| cropX := cropX area; cropY := cropY area;
                        cropWidth := cropWidth area;
                        cropHeight := cropHeight area |}
            | None => None
            end |};
     hasEdits := flag_or_false (inEdited page);
     isCropped := flag_or_false (field inIsCropped);
     fitCropToPage := flag_or_false (field inFitCropToPage) |}.

(** [pages.map((page, index) => ...)], from [index] on. *)
Fixpoint mapPages (pages : list InputPage) (index : nat) : list PageRecipe :=
  match pages with
  | [] => []
  | page :: rest => generatePageRecipe page index :: mapPages rest (S index)
  end.

Definition generatePageRecipes (pages : option (list InputPage))
  : list PageRecipe :=
  match pages with
  | None => []
  | Some pages => mapPages pages 0
  end.

(** [generatePrintRecipe]; [now] is the text of [new Date().toISOString()]. *)
Definition generatePrintRecipe (now : string) (options : Options) : PrintRecipe :=
  let fileField {A : Type} (get : FileMeta -> option A) : option A :=
    match file options with
    | Some meta => get meta
    | None => None
    end in
  let setting {A : Type} (get : PrintSettings -> option A) : option A :=
    match printSettings options with
    | Some settings => get settings
    | None => None
    end in
  {| version := "1.0";
     recipeType := "print_job";
     generatedAt := now;
     source :=
       {| fileName := string_or (fileField name) "unknown.pdf";
          fileSize := JS.or_else (fileField size) 0;
          fileType := string_or (fileField type) "application/pdf";
          totalPages :=
            match inPages options with
            | Some pages => inject_Z (Z.of_nat (List.length pages))
            | None => 0
            end |};
     print :=
       {| paperSize := string_or (setting inPaperSize) "A4";
          colorMode := string_or (setting inColorMode) "Color";
          duplex := flag_or_false (setting inDuplex);
          copies := JS.or_else (setting inCopies) 1;
          pagesPerSheet := JS.or_else (setting inPagesPerSheet) 1;
          quality := string_or (setting inQuality) "standard" |};
     pages := generatePageRecipes (inPages options);
     destination :=
       match shopId options with
       | Some EmptyString => None
       | other => other
       end |}.

(** The recipe as [validateRecipe] reads it: the fields it looks at. *)
Definition asValidated (recipe : PrintRecipe) : Recipe.t :=
  {| Recipe.version := Some (version recipe);
     Recipe.source :=
       Some {| Recipe.fileName := Some (fileName (source recipe)) |};
     Recipe.pages :=
       Some (Recipe.PageArray
         (map (fun page =>
                 Some
                   {| Recipe.transforms :=
                        Some {| Recipe.rotation := Some (rotation (transforms page));
                                Recipe.scale := Some (scale (transforms page));
                                Recipe.offsetX := Some (offsetX (transforms page));
                                Recipe.offsetY := Some (offsetY (transforms page));
                                Recipe.crop := crop (transforms page) |} |})
              (pages recipe))) |}.

End RecipeExporter.

(** ** The transform pipeline *)

Module TransformPipeline.

(** The pipeline's own edit state: every number is always set. *)
Record Edits : Type := mkEdits {
  rotation : Q;
  scale : Q;
  offsetX : Q;
  offsetY : Q;
  cropArea : option CropArea
}.

(** An entry of [this.transforms]. *)
Inductive TransformRecord : Type :=
  | RotationRecord (degrees timestamp : Q)
  | ScaleRecord (percentage timestamp : Q)
  | OffsetRecord (x y timestamp : Q)
  | CropRecord (area : option CropArea) (timestamp : Q).

Record t : Type := mk {
  originalDims : Dimensions;
  targetDims : Dimensions;
  transforms : list TransformRecord;
  editHistory : Edits
}.

Definition initialEdits : Edits :=
  {| rotation := 0; scale := 100; offsetX := 0; offsetY := 0;
     cropArea := None |}.

(** [new TransformPipeline(originalDims, targetDims)] *)
Definition create (originalDims targetDims : Dimensions) : t :=
  {| originalDims := originalDims; targetDims := targetDims;
     transforms := []; editHistory := initialEdits |}.

(** The mutators take the value of [Date.now()] as [now]. *)
Definition setRotation (now degrees : Q) (self : t) : Console t :=
  let normalized := JS.rem (JS.rem degrees 360 + 360) 360 in
  let edits := editHistory self in
  newCrop <-
    match cropArea edits with
    | Some crop =>
        if rotation edits <>? normalized then
          remapped <-
            Geometry.remapCropBetweenRotations crop (rotation edits) normalized ;;
          ret (Some remapped)
        else ret (Some crop)
    | None => ret None
    end ;;
  ret {| originalDims := originalDims self;
         targetDims := targetDims self;
         transforms := transforms self ++ [RotationRecord normalized now];
         editHistory :=
           {| rotation := normalized; scale := scale edits;
              offsetX := offsetX edits; offsetY := offsetY edits;
              cropArea := newCrop |} |}.

Definition setScale (now percentage : Q) (self : t) : t :=
  let edits := editHistory self in
  {| originalDims := originalDims self;
     targetDims := targetDims self;
     transforms := transforms self ++ [ScaleRecord percentage now];
     editHistory :=
       {| rotation := rotation edits; scale := percentage;
          offsetX := offsetX edits; offsetY := offsetY edits;
          cropArea := cropArea edits |} |}.

Definition setOffset (now x y : Q) (self : t) : t :=
  let edits := editHistory self in
  {| originalDims := originalDims self;
     targetDims := targetDims self;
     transforms := transforms self ++ [OffsetRecord x y now];
     editHistory :=
       {| rotation := rotation edits; scale := scale edits;
          offsetX := x; offsetY := y;
          cropArea := cropArea edits |} |}.

Definition setCrop (now : Q) (area : option CropArea) (self : t) : t :=
  let edits := editHistory self in
  {| originalDims := originalDims self;
     targetDims := targetDims self;
     transforms := transforms self ++ [CropRecord area now];
     editHistory :=
       {| rotation := rotation edits; scale := scale edits;
          offsetX := offsetX edits; offsetY := offsetY edits;
          cropArea := area |} |}.

Definition reset (self : t) : t :=
  {| originalDims := originalDims self;
     targetDims := targetDims self;
     transforms := [];
     editHistory := initialEdits |}.

(** [getEditHistory], as the edit the geometry functions take. *)
Definition getEditHistory (self : t) : EditHistory :=
  let edits := editHistory self in
  mkEditHistory (cropArea edits) (Some (rotation edits)) (Some (scale edits))
                (Some (offsetX edits)) (Some (offsetY edits)).

Section WithMath.

Context {M : MathLib}.

Definition getCanvasTransform (self : t) : Console CanonicalTransform :=
  Geometry.buildCanonicalTransform
    (originalDims self) (targetDims self) (Some (getEditHistory self)).

End WithMath.

(** A page as [createPipelineForPage] reads it. *)
Record Page : Type := mkPage {
  pageWidth : Q;
  pageHeight : Q;
  pageEditHistory : option EditHistory
}.

Definition createPipelineForPage (page : Page) (targetPageSize : Dimensions) : t :=
  let pipeline :=
    create {| dimWidth := pageWidth page; dimHeight := pageHeight page |}
           targetPageSize in
  match pageEditHistory page with
  | None => pipeline
  | Some (mkEditHistory pageCrop pageRotation pageScale pageOffsetX pageOffsetY) =>
      {| originalDims := originalDims pipeline;
         targetDims := targetDims pipeline;
         transforms := transforms pipeline;
         editHistory :=
           {| rotation := JS.or_else pageRotation 0;
              scale := JS.or_else pageScale 100;
              offsetX := JS.or_else pageOffsetX 0;
              offsetY := JS.or_else pageOffsetY 0;
              cropArea := pageCrop |} |}
  end.

(** [computeAutoFitScale] *)
Definition computeAutoFitScale
  (originalWidth originalHeight targetWidth targetHeight rotation : Q) : Q :=
  Geometry.calculateScaleToFit
    originalWidth originalHeight targetWidth targetHeight rotation.

End TransformPipeline.

(** ** The page preview service *)

Module PagePreviewService.

(** The double quote, and [text.includes(needle)]. *)
Definition quote : string := String "034"%char EmptyString.

Fixpoint includes (needle text : string) : bool :=
  String.prefix needle text
  || match text with
     | EmptyString => false
     | String _ rest => includes needle rest
     end.

(** A natural number and an integer as JavaScript prints them. *)
Definition digit (n : nat) : string :=
  String (Ascii.ascii_of_nat (48 + n)) EmptyString.

Fixpoint decimalWith (fuel n : nat) : string :=
  match fuel with
  | O => EmptyString
  | S fuel' =>
      if (n <? 10)%nat then digit n
      else (decimalWith fuel' (n / 10) ++ digit (n mod 10))%string
  end.

Definition decimal (n : nat) : string := decimalWith (S n) n.

Definition printInteger (z : Z) : string :=
  match z with
  | Z0 => "0"
  | Zpos p => decimal (Pos.to_nat p)
  | Zneg p => ("-" ++ decimal (Pos.to_nat p))%string
  end.

(** [calculateScale], given what [getPageDimensions] returned. *)
Definition calculateScale
  (dimensions : option Dimensions) (containerWidth containerHeight : Q) : Q :=
  match dimensions with
  | None => 1
  | Some dimensions =>
      let scaleX := containerWidth / dimWidth dimensions in
      let scaleY := containerHeight / dimHeight dimensions in
      JS.min (JS.min scaleX scaleY) 2
  end.

(** [getCacheKey]: the text of [JSON.stringify] on page, transforms, rounded
    width and rounded height; [transforms] is the JSON text of the page's
    transforms. *)
Definition getCacheKey
  (pageNumber : nat) (transforms : string) (width height : Q) : string :=
  ("{" ++ quote ++ "page" ++ quote ++ ":" ++ decimal pageNumber
   ++ "," ++ quote ++ "transforms" ++ quote ++ ":" ++ transforms
   ++ "," ++ quote ++ "width" ++ quote ++ ":"
   ++ printInteger (JS.trunc (JS.round width))
   ++ "," ++ quote ++ "height" ++ quote ++ ":"
   ++ printInteger (JS.trunc (JS.round height))
   ++ "}")%string.

Section Cache.

Variable Canvas : Type.

(** A [Map] from keys to canvases, in insertion order. *)
Definition Cache : Type := list (string * Canvas).

Definition has (cache : Cache) (key : string) : bool :=
  existsb (fun entry => String.eqb (fst entry) key) cache.

Fixpoint get (cache : Cache) (key : string) : option Canvas :=
  match cache with
  | [] => None
  | (k, v) :: rest => if String.eqb k key then Some v else get rest key
  end.

(** [Map.set] keeps the place of a key that is already there. *)
Fixpoint set (cache : Cache) (key : string) (canvas : Canvas) : Cache :=
  match cache with
  | [] => [(key, canvas)]
  | (k, v) :: rest =>
      if String.eqb k key then (k, canvas) :: rest
      else (k, v) :: set rest key canvas
  end.

Definition delete (cache : Cache) (key : string) : Cache :=
  filter (fun entry => negb (String.eqb (fst entry) key)) cache.

Definition keys (cache : Cache) : list string := map fst cache.

Record t : Type := mk {
  previewCache : Cache;
  maxCacheSize : nat
}.

Definition create : t := {| previewCache := []; maxCacheSize := 20 |}.

Definition addToCache (self : t) (key : string) (canvas : Canvas) : t :=
  let cache :=
    if (maxCacheSize self <=? List.length (previewCache self))%nat then
      match keys (previewCache self) with
      | firstKey :: _ =>
          match firstKey with
          | EmptyString => previewCache self
          | _ => delete (previewCache self) firstKey
          end
      | [] => previewCache self
      end
    else previewCache self in
  {| previewCache := set cache key canvas;
     maxCacheSize := maxCacheSize self |}.

Definition clearPageCache (self : t) (pageNumber : nat) : t :=
  let needle :=
    (quote ++ "page" ++ quote ++ ":" ++ decimal pageNumber)%string in
  let keysToDelete :=
    filter (fun key => includes needle key) (keys (previewCache self)) in
  {| previewCache := fold_left delete keysToDelete (previewCache self);
     maxCacheSize := maxCacheSize self |}.

Definition clearCache (self : t) : t :=
  {| previewCache := []; maxCacheSize := maxCacheSize self |}.

End Cache.

End PagePreviewService.


(** ** Specification vocabulary *)

(** The rotation the mappers switch on: the nearest multiple of 90 to the
    rotation reduced into [0, 360), halves going up. *)
Definition rotationCase (rotation : Q) : Q :=
  JS.round (JS.rem (JS.rem rotation 360 + 360) 360 / 90) * 90.

(** The four rotations the editor offers. *)
Definition quarter_turn (r : Q) : Prop :=
  r == 0 \/ r == 90 \/ r == 180 \/ r == 270.

(** [r] is a whole number of quarter turns. *)
Definition multiple_of_90 (r : Q) : Prop := exists k : Z, r == 90 * inject_Z k.

(** A library to run the definitions with: [Math.PI] is the double nearest
    to pi, cosine and sine are Taylor polynomials.  The theorems hold for
    every library; this one only serves to evaluate examples. *)
Definition taylor_cos (x : Q) : Q :=
  1 - x * x / 2 + x * x * x * x / 24 - x * x * x * x * x * x / 720.

Definition taylor_sin (x : Q) : Q :=
  x - x * x * x / 6 + x * x * x * x * x / 120.

Definition taylorMath : MathLib :=
  {| Math_PI := 884279719003555 # 281474976710656;
     Math_cos := taylor_cos;
     Math_sin := taylor_sin |}.

(** A crop that lies inside the unit page. *)
Definition in_bounds (crop : CropArea) : Prop :=
  0 <= cropX crop /\ 0 <= cropY crop /\
  0 <= cropWidth crop /\ 0 <= cropHeight crop /\
  cropX crop + cropWidth crop <= 1 /\ cropY crop + cropHeight crop <= 1.

(** The reading of the fallback sentence: at rotation [r] both mappers
    hand the crop back unchanged and record a warning. *)
Definition degrades_to_identity (crop : CropArea) (r : Q) : Prop :=
  crop_eq (value (Geometry.remapCropForRotation crop r)) crop /\
  crop_eq (value (Geometry.forwardMapCropToRotation crop r)) crop /\
  written (Geometry.remapCropForRotation crop r) <> [] /\
  written (Geometry.forwardMapCropToRotation crop r) <> [].

(** The crop of the worked examples. *)
Definition sampleCrop : CropArea :=
  {| cropX := 0.1; cropY := 0.2; cropWidth := 0.3; cropHeight := 0.4 |}.

(** An edit whose rotation is zero, given or by default. *)
Definition unrotated (h : EditHistory) : Prop := JS.default (rotation h) 0 == 0.

(** [x] agrees with the printed value [v] to within [unit], one unit of the
    last printed digit. *)
Definition approx (x v unit : Q) : Prop := Qabs (x - v) <= unit.

(** The A4 page of the scenarios, in points. *)
Definition a4 : Dimensions := {| dimWidth := 595; dimHeight := 842 |}.

(** Scenario A: rotation 90, scale 100, no crop, no offset. *)
Definition scenarioA : EditHistory :=
  {| cropArea := None; rotation := Some 90; scale := Some 100;
     offsetX := None; offsetY := None |}.

(** Scenario A with the numbers as printed. *)
Definition scenarioA_as_stated (g : GeometricTransform) : Prop :=
  approx (scaleToFit g) 0.6360 0.0001 /\
  approx (finalScale g) 0.6360 0.0001 /\
  approx (drawWidth g) 378.2 0.1 /\
  approx (drawHeight g) 535.6 0.1.

(** Scenario C: the top-left quarter of the page, rotation 0, scale 100. *)
Definition scenarioC : EditHistory :=
  {| cropArea := Some {| cropX := 0; cropY := 0;
                         cropWidth := 0.5; cropHeight := 0.5 |};
     rotation := Some 0; scale := Some 100;
     offsetX := None; offsetY := None |}.

(** The normalizer's value, field by field and without the console: what
    its four steps make of a crop, a rotation, a scale and an offset. *)
Definition normalizedCropOf (crop : CropArea) : CropArea :=
  let width := JS.max 0.01 (JS.max 0 (JS.min 1 (cropWidth crop))) in
  let height := JS.max 0.01 (JS.max 0 (JS.min 1 (cropHeight crop))) in
  let x := JS.max 0 (JS.min 1 (cropX crop)) in
  let y := JS.max 0 (JS.min 1 (cropY crop)) in
  let '(x, width) :=
    if x + width >? 1 then
      if 1 - width >=? 0 then (1 - width, width) else (0, 1)
    else (x, width) in
  let '(y, height) :=
    if y + height >? 1 then
      if 1 - height >=? 0 then (1 - height, height) else (0, 1)
    else (y, height) in
  if (x <? 0) || (y <? 0) || (width <=? 0) || (height <=? 0)
     || (x + width >? 1) || (y + height >? 1)
  then {| cropX := 0; cropY := 0; cropWidth := 1; cropHeight := 1 |}
  else {| cropX := x; cropY := y; cropWidth := width; cropHeight := height |}.

Definition normalizedRotationOf (r : Q) : Q :=
  let n := JS.rem (JS.rem r 360 + 360) 360 in
  let n := if n >? 180 then n - 360 else n in
  JS.round (n * 10) / 10.

Definition normalizedScaleOf (s : Q) : Q :=
  let s := if s <? 10 then 10 else s in
  if s >? 500 then 500 else s.

Definition normalizedOffsetOf (o bound : Q) : Q :=
  if JS.abs o >? bound then JS.sign o * bound else o.

(** The bounds promised of a normalized crop and of a normalized edit. *)
Definition crop_bounded (crop : CropArea) : Prop :=
  0 <= cropX crop <= 1 /\ 0 <= cropY crop <= 1 /\
  0 <= cropWidth crop <= 1 /\ 0 <= cropHeight crop <= 1 /\
  cropX crop + cropWidth crop <= 1 + 1e-9 /\
  cropY crop + cropHeight crop <= 1 + 1e-9 /\
  0.01 <= cropWidth crop /\ 0.01 <= cropHeight crop.

Definition edit_bounded (dims : Dimensions) (h : EditHistory) : Prop :=
  match cropArea h with
  | Some crop => crop_bounded crop
  | None => True
  end /\
  (exists r, rotation h = Some r /\ -180 <= r <= 180) /\
  (exists s, scale h = Some s /\ 10 <= s <= 500) /\
  (exists o, offsetX h = Some o /\ Qabs o <= 0.5 * dimWidth dims) /\
  (exists o, offsetY h = Some o /\ Qabs o <= 0.5 * dimHeight dims).

(** An edit that only sets a rotation. *)
Definition rotationOnly (r : Q) : EditHistory :=
  {| cropArea := None; rotation := Some r; scale := None;
     offsetX := None; offsetY := None |}.

(** The page a violation is reported for, as the number in its message. *)
Definition violation_page (v : Recipe.Violation) : option nat :=
  match v with
  | Recipe.InvalidRotation page _ => Some page
  | Recipe.InvalidScale page _ => Some page
  | Recipe.InvalidCropArea page => Some page
  | Recipe.CropExceedsBounds page => Some page
  | _ => None
  end.

(** The defects of a page's transforms the validation sentence lists: a
    rotation outside 0, 90, 180, 270; a scale outside [10, 500]; a crop of
    non-positive size or negative origin, or reaching past 1.01. *)
Definition bad_rotation (t : Recipe.Transforms) (r : Q) : Prop :=
  Recipe.rotation t = Some r /\ ~ quarter_turn r.

Definition bad_scale (t : Recipe.Transforms) (s : Q) : Prop :=
  Recipe.scale t = Some s /\ (s < 10 \/ 500 < s).

Definition bad_crop_area (t : Recipe.Transforms) : Prop :=
  exists crop, Recipe.crop t = Some crop /\
    (cropX crop < 0 \/ cropY crop < 0 \/
     cropWidth crop <= 0 \/ cropHeight crop <= 0).

Definition crop_exceeds (t : Recipe.Transforms) : Prop :=
  exists crop, Recipe.crop t = Some crop /\
    (1.01 < cropX crop + cropWidth crop \/ 1.01 < cropY crop + cropHeight crop).

Definition defective_as_stated (t : Recipe.Transforms) : Prop :=
  (exists r, bad_rotation t r) \/ (exists s, bad_scale t s) \/
  bad_crop_area t \/ crop_exceeds t.

(** Some error of the validation is about page number [page]. *)
Definition reported (recipe : Recipe.t) (page : nat) : Prop :=
  exists (result : Recipe.Validation) (v : Recipe.Violation),
    Recipe.validateRecipe (Some recipe) = Recipe.Returned result /\
    In v (Recipe.errors result) /\ violation_page v = Some page.

(** The inputs on which the validator reads a property of [null] or
    [undefined], or calls a [forEach] that is not there: the recipe itself
    is missing, its pages are no array, or an entry of the array is
    missing. *)
Definition breaks_validation (recipe : option Recipe.t) : Prop :=
  match recipe with
  | None => True
  | Some recipe =>
      match Recipe.pages recipe with
      | None => False
      | Some Recipe.NotAnArray => True
      | Some (Recipe.PageArray entries) => In None entries
      end
  end.

(** A one-page recipe with a version and a file name. *)
Definition onePage (t : Recipe.Transforms) : Recipe.t :=
  {| Recipe.version := Some "1.0"%string;
     Recipe.source := Some {| Recipe.fileName := Some "a.pdf"%string |};
     Recipe.pages :=
       Some (Recipe.PageArray [Some {| Recipe.transforms := Some t |}]) |}.

(** A recipe with a version and a file name whose only page is [null]. *)
Definition nullPage : Recipe.t :=
  {| Recipe.version := Some "1.0"%string;
     Recipe.source := Some {| Recipe.fileName := Some "a.pdf"%string |};
     Recipe.pages := Some (Recipe.PageArray [None]) |}.

Definition scaleOnly (s : Q) : Recipe.Transforms :=
  {| Recipe.rotation := None; Recipe.scale := Some s;
     Recipe.offsetX := None; Recipe.offsetY := None; Recipe.crop := None |}.

Definition rotationOnlyPage (r : Q) : Recipe.Transforms :=
  {| Recipe.rotation := Some r; Recipe.scale := None;
     Recipe.offsetX := None; Recipe.offsetY := None; Recipe.crop := None |}.


Definition cropAt (crop : CropArea) (r : Q) : EditHistory :=
  {| cropArea := Some crop; rotation := Some r; scale := Some 100;
     offsetX := Some 0; offsetY := Some 0 |}.


(** An edit in normal form for a page: every field given, the crop inside
    the page and at least a hundredth wide and high, the rotation a whole
    number of tenths in (-180, 180], the scale in [10, 500] and the offsets
    within half the page. *)
Definition crop_normal (crop : CropArea) : Prop :=
  0 <= cropX crop /\ 0 <= cropY crop /\
  0.01 <= cropWidth crop <= 1 /\ 0.01 <= cropHeight crop <= 1 /\
  cropX crop + cropWidth crop <= 1 /\ cropY crop + cropHeight crop <= 1.

Definition edit_normal (dims : Dimensions) (h : EditHistory) : Prop :=
  match cropArea h with
  | Some crop => crop_normal crop
  | None => True
  end /\
  (exists (r : Q) (k : Z),
     rotation h = Some r /\ r == inject_Z k / 10 /\ (-1800 < k <= 1800)%Z) /\
  (exists s, scale h = Some s /\ 10 <= s <= 500) /\
  (exists o, offsetX h = Some o /\ Qabs o <= dimWidth dims * 0.5) /\
  (exists o, offsetY h = Some o /\ Qabs o <= dimHeight dims * 0.5).

(** A rectangle that lies inside a page of the given size. *)
Definition rect_inside (dims : Dimensions) (rect : SourceRect) : Prop :=
  0 <= rectX rect /\ 0 <= rectY rect /\
  0 <= rectWidth rect /\ 0 <= rectHeight rect /\
  rectX rect + rectWidth rect <= dimWidth dims /\
  rectY rect + rectHeight rect <= dimHeight dims.

(** A rectangle a canvas can sample from an image of the given size: it
    starts inside the image, is at least a pixel wide and high, and ends
    inside the image. *)
Definition rect_samplable (maxW maxH : Q) (rect : SourceRect) : Prop :=
  0 <= rectX rect <= maxW - 1 /\ 0 <= rectY rect <= maxH - 1 /\
  1 <= rectWidth rect /\ 1 <= rectHeight rect /\
  rectX rect + rectWidth rect <= maxW /\
  rectY rect + rectHeight rect <= maxH.

(** Page number [number] of the recipe has transforms with the defect. *)
Definition page_defect (recipe : Recipe.t) (number : nat)
  (defect : Recipe.Transforms -> Prop) : Prop :=
  exists (ps : list (option Recipe.Page)) (i : nat) (page : Recipe.Page)
         (t : Recipe.Transforms),
    Recipe.pages recipe = Some (Recipe.PageArray ps) /\
    number = (i + 1)%nat /\ nth_error ps i = Some (Some page) /\
    Recipe.transforms page = Some t /\ defect t.

(** What in the recipe stands behind each error of the validation. *)
Definition justified (recipe : Recipe.t) (v : Recipe.Violation) : Prop :=
  match v with
  | Recipe.MissingVersion => Recipe.truthy_string (Recipe.version recipe) = false
  | Recipe.MissingSourceFileName =>
      Recipe.truthy_string
        (Recipe.chain (Recipe.source recipe) Recipe.fileName) = false
  | Recipe.NoPages =>
      Recipe.pages recipe = None \/
      Recipe.pages recipe = Some (Recipe.PageArray [])
  | Recipe.InvalidRotation number r =>
      page_defect recipe number (fun t => bad_rotation t r)
  | Recipe.InvalidScale number s =>
      page_defect recipe number (fun t => bad_scale t s)
  | Recipe.InvalidCropArea number => page_defect recipe number bad_crop_area
  | Recipe.CropExceedsBounds number => page_defect recipe number crop_exceeds
  end.

(** The defect behind an error pushed for one page. *)
Definition page_justified (t : Recipe.Transforms) (number : nat)
  (v : Recipe.Violation) : Prop :=
  match v with
  | Recipe.InvalidRotation n r => n = number /\ bad_rotation t r
  | Recipe.InvalidScale n s => n = number /\ bad_scale t s
  | Recipe.InvalidCropArea n => n = number /\ bad_crop_area t
  | Recipe.CropExceedsBounds n => n = number /\ crop_exceeds t
  | _ => False
  end.

(** An input page that sets a scale only, and a print job of that page. *)
Definition scaledPage (s : Q) : RecipeExporter.InputPage :=
  {| RecipeExporter.inPageNumber := None;
     RecipeExporter.inWidth := None;
     RecipeExporter.inHeight := None;
     RecipeExporter.inEditHistory :=
       Some {| RecipeExporter.inRotation := None;
               RecipeExporter.inScale := Some s;
               RecipeExporter.inOffsetX := None;
               RecipeExporter.inOffsetY := None;
               RecipeExporter.inCropArea := None;
               RecipeExporter.inIsCropped := None;
               RecipeExporter.inFitCropToPage := None |};
     RecipeExporter.inEdited := None |}.

Definition onePageJob (s : Q) : RecipeExporter.Options :=
  {| RecipeExporter.file := None;
     RecipeExporter.inPages := Some [scaledPage s];
     RecipeExporter.printSettings := None;
     RecipeExporter.shopId := None |}.

(** A pipeline for an A4 page on A4 paper, with the sample crop set. *)
Definition samplePipeline : TransformPipeline.t :=
  TransformPipeline.setCrop 0 (Some sampleCrop) (TransformPipeline.create a4 a4).

(** An A4 page that was saved with the sample crop at rotation 90. *)
Definition restoredPage : TransformPipeline.Page :=
  {| TransformPipeline.pageWidth := 595;
     TransformPipeline.pageHeight := 842;
     TransformPipeline.pageEditHistory := Some (cropAt sampleCrop 90) |}.

(** * Properties *)

(** ** Tests and the console *)

Lemma ltb_true (p q : Q) : (p <? q) = true <-> p < q.
Proof.
  unfold JS.ltb. rewrite negb_true_iff.
  split; intro H.
  - apply Qnot_le_lt. intro L. apply Qle_bool_iff in L. congruence.
  - destruct (Qle_bool q p) eqn:E; [|reflexivity].
    apply Qle_bool_iff in E. exfalso. apply (Qlt_not_le _ _ H E).
Qed.

Lemma ltb_false (p q : Q) : (p <? q) = false <-> q <= p.
Proof.
  unfold JS.ltb. rewrite negb_false_iff. apply Qle_bool_iff.
Qed.

Lemma gtb_true (p q : Q) : (p >? q) = true <-> q < p.
Proof. exact (ltb_true q p). Qed.

Lemma gtb_false (p q : Q) : (p >? q) = false <-> p <= q.
Proof. exact (ltb_false q p). Qed.

Lemma leb_true (p q : Q) : (p <=? q) = true <-> p <= q.
Proof. apply Qle_bool_iff. Qed.

Lemma leb_false (p q : Q) : (p <=? q) = false <-> q < p.
Proof.
  rewrite <- gtb_true. unfold JS.gtb, JS.leb.
  destruct (Qle_bool p q); simpl; intuition congruence.
Qed.

Lemma geb_true (p q : Q) : (p >=? q) = true <-> q <= p.
Proof. apply Qle_bool_iff. Qed.

Lemma geb_false (p q : Q) : (p >=? q) = false <-> p < q.
Proof. exact (leb_false q p). Qed.

Lemma eqb_true (p q : Q) : (p =? q) = true <-> p == q.
Proof. apply Qeq_bool_iff. Qed.

Lemma eqb_false (p q : Q) : (p =? q) = false <-> ~ p == q.
Proof.
  unfold JS.eqb. rewrite <- Qeq_bool_iff.
  destruct (Qeq_bool p q); intuition congruence.
Qed.

Lemma neqb_true (p q : Q) : (p <>? q) = true <-> ~ p == q.
Proof. unfold JS.neqb. rewrite negb_true_iff. apply eqb_false. Qed.

Lemma neqb_false (p q : Q) : (p <>? q) = false <-> p == q.
Proof. unfold JS.neqb. rewrite negb_false_iff. apply eqb_true. Qed.

Lemma Qle_bool_false (p q : Q) : Qle_bool p q = false <-> q < p.
Proof. exact (leb_false p q). Qed.

(** Turn the recorded outcome of a test into the order fact it stands for. *)
Ltac reflect_test H :=
  first
    [ apply ltb_true in H | apply ltb_false in H
    | apply gtb_true in H | apply gtb_false in H
    | apply leb_true in H | apply leb_false in H
    | apply geb_true in H | apply geb_false in H
    | apply eqb_true in H | apply eqb_false in H
    | apply neqb_true in H | apply neqb_false in H
    | apply Qle_bool_iff in H | apply Qle_bool_false in H ].

(** Split on a test a conditional of the goal branches on, innermost
    tests first. *)
Ltac split_test :=
  match goal with
  | |- context [if ?t then _ else _] =>
      lazymatch t with
      | context [if _ then _ else _] => fail
      | _ => let E := fresh "T" in destruct t eqn:E; try reflect_test E
      end
  end.

Lemma max_spec (p q : Q) :
  (p <= q /\ JS.max p q = q) \/ (q < p /\ JS.max p q = p).
Proof.
  unfold JS.max. destruct (Qle_bool p q) eqn:E; reflect_test E; auto.
Qed.

Lemma min_spec (p q : Q) :
  (p <= q /\ JS.min p q = p) \/ (q < p /\ JS.min p q = q).
Proof.
  unfold JS.min. destruct (Qle_bool p q) eqn:E; reflect_test E; auto.
Qed.

(** Clamping [v] into [lo, hi], as [Math.max(lo, Math.min(hi, v))]. *)
Lemma clamp_bounds (lo hi v : Q) :
  lo <= hi -> lo <= JS.max lo (JS.min hi v) <= hi.
Proof.
  intro L.
  destruct (min_spec hi v) as [[? ->]|[? ->]];
    [destruct (max_spec lo hi) as [[? ->]|[? ->]]
    |destruct (max_spec lo v) as [[? ->]|[? ->]]]; lra.
Qed.

Lemma clamp_fixed (lo hi v : Q) :
  lo <= v <= hi -> JS.max lo (JS.min hi v) == v.
Proof.
  intro L.
  destruct (min_spec hi v) as [[? ->]|[? ->]];
    [destruct (max_spec lo hi) as [[? ->]|[? ->]]
    |destruct (max_spec lo v) as [[? ->]|[? ->]]]; lra.
Qed.

Lemma value_ret {A : Type} (v : A) : value (ret v) = v.
Proof. reflexivity. Qed.

Lemma value_bind {A B : Type} (m : Console A) (k : A -> Console B) :
  value (bind m k) = value (k (value m)).
Proof. unfold value, bind. destruct (k (fst m)). reflexivity. Qed.

Lemma written_bind {A B : Type} (m : Console A) (k : A -> Console B) :
  written (bind m k) = written m ++ written (k (value m)).
Proof. unfold written, value, bind. destruct (k (fst m)). reflexivity. Qed.

Lemma value_if {A : Type} (t : bool) (m n : Console A) :
  value (if t then m else n) = if t then value m else value n.
Proof. destruct t; reflexivity. Qed.

(** ** Integer parts, remainders and rounding *)

Lemma Qfloor_unique (q : Q) (z : Z) :
  inject_Z z <= q -> q < inject_Z (z + 1) -> Qfloor q = z.
Proof.
  intros Lo Hi.
  pose proof (Qfloor_le q) as F1. pose proof (Qlt_floor q) as F2.
  assert (Qfloor q < z + 1)%Z
    by (rewrite Zlt_Qlt; eapply Qle_lt_trans; eassumption).
  assert (z < Qfloor q + 1)%Z
    by (rewrite Zlt_Qlt; eapply Qle_lt_trans; eassumption).
  lia.
Qed.

Lemma Qceiling_unique (q : Q) (z : Z) :
  inject_Z (z - 1) < q -> q <= inject_Z z -> Qceiling q = z.
Proof.
  intros Lo Hi.
  pose proof (Qle_ceiling q) as F1. pose proof (Qceiling_lt q) as F2.
  assert (z - 1 < Qceiling q)%Z
    by (rewrite Zlt_Qlt; eapply Qlt_le_trans; eassumption).
  assert (Qceiling q - 1 < z)%Z
    by (rewrite Zlt_Qlt; eapply Qlt_le_trans; eassumption).
  lia.
Qed.

Lemma trunc_comp (p q : Q) : p == q -> JS.trunc p = JS.trunc q.
Proof.
  intro E. unfold JS.trunc.
  rewrite (Qleb_comp 0 0 (Qeq_refl 0) p q E).
  rewrite (Qfloor_comp p q E), (Qceiling_comp p q E). reflexivity.
Qed.

Lemma rem_comp (p q m : Q) : p == q -> JS.rem p m == JS.rem q m.
Proof.
  intro E. unfold JS.rem.
  rewrite (trunc_comp (p / m) (q / m)) by (rewrite E; reflexivity).
  rewrite E. reflexivity.
Qed.

Lemma round_comp (p q : Q) : p == q -> JS.round p = JS.round q.
Proof.
  intro E. unfold JS.round.
  rewrite (Qfloor_comp (p + (1 # 2)) (q + (1 # 2))) by (rewrite E; reflexivity).
  reflexivity.
Qed.

(** The integer part is within one of the number, on the side of zero. *)
Lemma trunc_spec (q : Q) :
  (0 <= q /\ inject_Z (JS.trunc q) <= q < inject_Z (JS.trunc q) + 1) \/
  (q < 0 /\ q <= inject_Z (JS.trunc q) < q + 1).
Proof.
  unfold JS.trunc. destruct (Qle_bool 0 q) eqn:E; reflect_test E.
  - left. split; [assumption|]. split; [apply Qfloor_le|].
    pose proof (Qlt_floor q) as F. rewrite inject_Z_plus in F. exact F.
  - right. split; [assumption|]. split; [apply Qle_ceiling|].
    pose proof (Qceiling_lt q) as F.
    unfold Z.sub in F. rewrite inject_Z_plus, inject_Z_opp in F.
    change (inject_Z 1) with 1 in F. lra.
Qed.

(** [a % 360] lies strictly between -360 and 360, and is not negative when
    [a] is not. *)
Lemma rem_360_range (p : Q) :
  -360 < JS.rem p 360 < 360 /\ (0 <= p -> 0 <= JS.rem p 360).
Proof.
  unfold JS.rem.
  destruct (trunc_spec (p / 360)) as [[S B]|[S B]];
    set (t := inject_Z (JS.trunc (p / 360))) in *;
    assert (D : p == 360 * (p / 360)) by (field; discriminate);
    set (u := p / 360) in *; clearbody t u;
    repeat split; intros; lra.
Qed.

(** The reduction used throughout, [((r % 360) + 360) % 360], lands in
    [0, 360). *)
Lemma normalized_range (r : Q) :
  0 <= JS.rem (JS.rem r 360 + 360) 360 < 360.
Proof.
  pose proof (rem_360_range r) as [R _].
  pose proof (rem_360_range (JS.rem r 360 + 360)) as [B P].
  split; [apply P|]; lra.
Qed.

Lemma between_integers (z lo hi : Z) :
  inject_Z lo < inject_Z z < inject_Z hi -> (lo < z < hi)%Z.
Proof. rewrite <- !Zlt_Qlt. trivial. Qed.

Lemma rem_360_small (p : Q) : -360 < p < 360 -> JS.rem p 360 == p.
Proof.
  intro B. unfold JS.rem.
  assert (D : p == 360 * (p / 360)) by (field; discriminate).
  set (u := p / 360) in *; clearbody u.
  assert (Z0 : JS.trunc u = 0%Z).
  { assert (-1 < JS.trunc u < 1)%Z; [|lia].
    apply between_integers.
    change (inject_Z (-1)) with (-1). change (inject_Z 1) with 1.
    destruct (trunc_spec u) as [[S T]|[S T]]; lra. }
  rewrite Z0. change (inject_Z 0) with 0. lra.
Qed.

Lemma rem_360_wrap (p : Q) : 360 <= p < 720 -> JS.rem p 360 == p - 360.
Proof.
  intro B. unfold JS.rem.
  assert (D : p == 360 * (p / 360)) by (field; discriminate).
  set (u := p / 360) in *; clearbody u.
  assert (Z1 : JS.trunc u = 1%Z).
  { assert (0 < JS.trunc u < 2)%Z; [|lia].
    apply between_integers.
    change (inject_Z 0) with 0. change (inject_Z 2) with 2.
    destruct (trunc_spec u) as [[S T]|[S T]]; lra. }
  rewrite Z1. change (inject_Z 1) with 1. lra.
Qed.

(** [Math.round] is within a half of its argument. *)
Lemma round_spec (p : Q) : p - (1 # 2) < JS.round p <= p + (1 # 2).
Proof.
  unfold JS.round.
  pose proof (Qfloor_le (p + (1 # 2))) as F1.
  pose proof (Qlt_floor (p + (1 # 2))) as F2.
  rewrite inject_Z_plus in F2. change (inject_Z 1) with 1 in F2. lra.
Qed.

Lemma round_integer (z : Z) : JS.round (inject_Z z) = inject_Z z.
Proof.
  unfold JS.round. f_equal. apply Qfloor_unique.
  - lra.
  - rewrite inject_Z_plus. change (inject_Z 1) with 1. lra.
Qed.

(** Rounding stays between integer bounds of its argument. *)
Lemma round_between (p : Q) (lo hi : Z) :
  inject_Z lo <= p <= inject_Z hi ->
  exists k : Z, JS.round p = inject_Z k /\ (lo <= k <= hi)%Z.
Proof.
  intros [L H]. exists (Qfloor (p + (1 # 2))). split; [reflexivity|].
  pose proof (Qfloor_le (p + (1 # 2))) as F1.
  pose proof (Qlt_floor (p + (1 # 2))) as F2.
  rewrite inject_Z_plus in F2. change (inject_Z 1) with 1 in F2.
  split.
  - assert (lo < Qfloor (p + (1 # 2)) + 1)%Z; [|lia].
    rewrite Zlt_Qlt, inject_Z_plus. change (inject_Z 1) with 1. lra.
  - assert (Qfloor (p + (1 # 2)) < hi + 1)%Z; [|lia].
    rewrite Zlt_Qlt, inject_Z_plus. change (inject_Z 1) with 1. lra.
Qed.

(** ** The rotation-space mapper *)

Import Geometry.

Lemma rotationCase_comp (r r' : Q) : r == r' -> rotationCase r = rotationCase r'.
Proof.
  intro E. unfold rotationCase. f_equal. apply round_comp.
  apply Qmult_comp; [|reflexivity].
  apply rem_comp. apply Qplus_comp; [|reflexivity].
  apply rem_comp. exact E.
Qed.

(** The switch of both mappers only ever sees 0, 90, 180, 270 or 360. *)
Lemma rotationCase_cases (r : Q) :
  rotationCase r = 0 * 90 \/ rotationCase r = 1 * 90 \/
  rotationCase r = 2 * 90 \/ rotationCase r = 3 * 90 \/
  rotationCase r = 4 * 90.
Proof.
  unfold rotationCase.
  pose proof (normalized_range r) as N.
  set (n := JS.rem (JS.rem r 360 + 360) 360) in *. clearbody n.
  destruct (round_between (n / 90) 0 4) as [k [-> K]].
  - change (inject_Z 0) with 0. change (inject_Z 4) with 4.
    assert (D : n == 90 * (n / 90)) by (field; discriminate).
    set (u := n / 90) in *. clearbody u. lra.
  - assert (C : (k = 0 \/ k = 1 \/ k = 2 \/ k = 3 \/ k = 4)%Z) by lia.
    destruct C as [-> | [-> | [-> | [-> | ->]]]]; auto 6.
Qed.

(** The snapped rotation is the multiple of 90 nearest to the reduced one. *)
Lemma rotationCase_nearest (r : Q) :
  Qabs (JS.rem (JS.rem r 360 + 360) 360 - rotationCase r) <= 45.
Proof.
  unfold rotationCase.
  set (n := JS.rem (JS.rem r 360 + 360) 360). clearbody n.
  pose proof (round_spec (n / 90)) as R.
  assert (D : n == 90 * (n / 90)) by (field; discriminate).
  set (u := n / 90) in *. clearbody u.
  apply Qabs_Qle_condition. lra.
Qed.

(** What each mapper returns, by the snapped rotation. *)
Lemma remapCropForRotation_by_case (crop : CropArea) (r : Q) :
  remapCropForRotation crop r =
  let k := rotationCase r in
  if (k =? 0) || (k =? 360) then ret crop
  else if k =? 90 then
    ret {| cropX := 1 - (cropY crop + cropHeight crop);
           cropY := cropX crop;
           cropWidth := cropHeight crop;
           cropHeight := cropWidth crop |}
  else if k =? 180 then
    ret {| cropX := 1 - (cropX crop + cropWidth crop);
           cropY := 1 - (cropY crop + cropHeight crop);
           cropWidth := cropWidth crop;
           cropHeight := cropHeight crop |}
  else if k =? 270 then
    ret {| cropX := cropY crop;
           cropY := 1 - (cropX crop + cropWidth crop);
           cropWidth := cropHeight crop;
           cropHeight := cropWidth crop |}
  else emit (WarnUnexpectedRotation k) ;; ret crop.
Proof. reflexivity. Qed.

Lemma forwardMapCropToRotation_by_case (crop : CropArea) (r : Q) :
  forwardMapCropToRotation crop r =
  let k := rotationCase r in
  if (k =? 0) || (k =? 360) then ret crop
  else if k =? 90 then
    ret {| cropX := cropY crop;
           cropY := 1 - (cropX crop + cropWidth crop);
           cropWidth := cropHeight crop;
           cropHeight := cropWidth crop |}
  else if k =? 180 then
    ret {| cropX := 1 - (cropX crop + cropWidth crop);
           cropY := 1 - (cropY crop + cropHeight crop);
           cropWidth := cropWidth crop;
           cropHeight := cropHeight crop |}
  else if k =? 270 then
    ret {| cropX := 1 - (cropY crop + cropHeight crop);
           cropY := cropX crop;
           cropWidth := cropHeight crop;
           cropHeight := cropWidth crop |}
  else emit (WarnUnexpectedRotation k) ;; ret crop.
Proof. reflexivity. Qed.

Lemma remapCropForRotation_comp (crop : CropArea) (r r' : Q) :
  r == r' -> remapCropForRotation crop r = remapCropForRotation crop r'.
Proof.
  intro E. rewrite !remapCropForRotation_by_case.
  rewrite (rotationCase_comp r r' E). reflexivity.
Qed.

Lemma forwardMapCropToRotation_comp (crop : CropArea) (r r' : Q) :
  r == r' -> forwardMapCropToRotation crop r = forwardMapCropToRotation crop r'.
Proof.
  intro E. rewrite !forwardMapCropToRotation_by_case.
  rewrite (rotationCase_comp r r' E). reflexivity.
Qed.

Lemma remapCropBetweenRotations_value (crop : CropArea) (r1 r2 : Q) :
  value (remapCropBetweenRotations crop r1 r2) =
  value (forwardMapCropToRotation (value (remapCropForRotation crop r1)) r2).
Proof.
  unfold remapCropBetweenRotations. rewrite !value_bind. reflexivity.
Qed.

(** Neither mapper ever reaches its warning branch. *)
Lemma remapCropForRotation_silent (crop : CropArea) (r : Q) :
  written (remapCropForRotation crop r) = [].
Proof.
  rewrite remapCropForRotation_by_case.
  destruct (rotationCase_cases r) as [E | [E | [E | [E | E]]]];
    cbv zeta; rewrite E; reflexivity.
Qed.

Lemma forwardMapCropToRotation_silent (crop : CropArea) (r : Q) :
  written (forwardMapCropToRotation crop r) = [].
Proof.
  rewrite forwardMapCropToRotation_by_case.
  destruct (rotationCase_cases r) as [E | [E | [E | [E | E]]]];
    cbv zeta; rewrite E; reflexivity.
Qed.

(** Going to original space and coming back at the same quarter turn is the
    identity, in both orders. *)
Lemma forward_after_remap (crop : CropArea) (r : Q) :
  crop_eq (value (forwardMapCropToRotation (value (remapCropForRotation crop r)) r))
          crop.
Proof.
  rewrite forwardMapCropToRotation_by_case, remapCropForRotation_by_case.
  destruct (rotationCase_cases r) as [E | [E | [E | [E | E]]]];
    cbv zeta; rewrite E; unfold crop_eq; simpl; repeat split; lra.
Qed.

Lemma remap_after_forward (crop : CropArea) (r : Q) :
  crop_eq (value (remapCropForRotation (value (forwardMapCropToRotation crop r)) r))
          crop.
Proof.
  rewrite forwardMapCropToRotation_by_case, remapCropForRotation_by_case.
  destruct (rotationCase_cases r) as [E | [E | [E | [E | E]]]];
    cbv zeta; rewrite E; unfold crop_eq; simpl; repeat split; lra.
Qed.

Lemma forwardMapCropToRotation_crop_comp (p q : CropArea) (r : Q) :
  crop_eq p q ->
  crop_eq (value (forwardMapCropToRotation p r))
          (value (forwardMapCropToRotation q r)).
Proof.
  intros (Ex & Ey & Ew & Eh). rewrite !forwardMapCropToRotation_by_case.
  destruct (rotationCase_cases r) as [E | [E | [E | [E | E]]]];
    cbv zeta; rewrite E; unfold crop_eq; simpl; repeat split; lra.
Qed.

Lemma crop_eq_trans (p q s : CropArea) :
  crop_eq p q -> crop_eq q s -> crop_eq p s.
Proof.
  unfold crop_eq. intros (? & ? & ? & ?) (? & ? & ? & ?). repeat split; lra.
Qed.

Lemma crop_eq_close (eps : Q) (p q : CropArea) :
  0 <= eps -> crop_eq p q -> crop_close eps p q.
Proof.
  unfold crop_eq, crop_close. intros P (? & ? & ? & ?).
  repeat split; apply Qabs_Qle_condition; lra.
Qed.

(** The round trip is exact, at every pair of rotations. *)
Lemma remapCropBetweenRotations_round_trip (crop : CropArea) (r1 r2 : Q) :
  crop_eq
    (value (remapCropBetweenRotations
              (value (remapCropBetweenRotations crop r1 r2)) r2 r1))
    crop.
Proof.
  rewrite !remapCropBetweenRotations_value.
  eapply crop_eq_trans; [|apply (forward_after_remap crop r1)].
  apply forwardMapCropToRotation_crop_comp.
  apply remap_after_forward.
Qed.

(** C2: for every in-bounds crop and every pair of rotations among 0, 90,
    180 and 270, remapping the crop from the first rotation's space to the
    second's and back with [remapCropBetweenRotations] returns a crop whose
    four fields are within 1e-9 of the crop's. *)
Theorem remapCropBetweenRotations_round_trip_close :
  forall (crop : CropArea) (r1 r2 : Q),
    in_bounds crop -> quarter_turn r1 -> quarter_turn r2 ->
    crop_close 1e-9
      (value (remapCropBetweenRotations
                (value (remapCropBetweenRotations crop r1 r2)) r2 r1))
      crop.
Proof.
  intros crop r1 r2 _ _ _.
  apply crop_eq_close; [discriminate|].
  apply remapCropBetweenRotations_round_trip.
Qed.

Lemma remapCropBetweenRotations_round_trip_close_witness :
  crop_close 1e-9
    (value (remapCropBetweenRotations
              (value (remapCropBetweenRotations sampleCrop 90 270)) 270 90))
    sampleCrop.
Proof.
  apply (remapCropBetweenRotations_round_trip_close sampleCrop 90 270).
  - unfold in_bounds, sampleCrop; simpl; repeat split; discriminate.
  - unfold quarter_turn. right. left. reflexivity.
  - unfold quarter_turn. right. right. right. reflexivity.
Defined.

(** C7: at rotation 90, [remapCropForRotation] maps a visual-space crop to
    original space by x' = 1 - (y + h), y' = x, w' = h, h' = w; the crop
    (0.1, 0.2, 0.3, 0.4) becomes (0.4, 0.1, 0.4, 0.3). *)
Theorem remapCropForRotation_at_90 :
  (forall crop : CropArea,
     remapCropForRotation crop 90 =
     ret {| cropX := 1 - (cropY crop + cropHeight crop);
            cropY := cropX crop;
            cropWidth := cropHeight crop;
            cropHeight := cropWidth crop |}) /\
  crop_eq (value (remapCropForRotation sampleCrop 90))
          {| cropX := 0.4; cropY := 0.1; cropWidth := 0.4; cropHeight := 0.3 |}.
Proof.
  split.
  - intro crop. reflexivity.
  - unfold crop_eq. vm_compute. repeat split; reflexivity.
Qed.

(** C5, as the code has it: at every rotation, a multiple of 90 or not, both
    mappers snap the rotation to a multiple of 90, the rotation reduced into
    [0, 360), divided by 90, rounded with halves going up, times 90, and
    apply that quarter turn's formula.  At 0 and 360 they return the crop
    as it is; at 90 the inverse mapper returns (1 - (y + h), x, h, w) and the
    forward mapper (y, 1 - (x + w), h, w); at 180 both return
    (1 - (x + w), 1 - (y + h), w, h); at 270 the inverse mapper returns
    (y, 1 - (x + w), h, w) and the forward mapper (1 - (y + h), x, h, w).
    The snapped value is one of these five, so the warning branch is never
    taken and nothing is recorded. *)
Theorem mappers_snap_to_quarter_turn :
  forall (crop : CropArea) (r : Q),
    let n := JS.rem (JS.rem r 360 + 360) 360 in
    let k := rotationCase r in
    let x := cropX crop in
    let y := cropY crop in
    let w := cropWidth crop in
    let h := cropHeight crop in
    k == 90 * inject_Z (Qfloor (n / 90 + (1 # 2))) /\
    (k == 0 \/ k == 90 \/ k == 180 \/ k == 270 \/ k == 360) /\
    Qabs (n - k) <= 45 /\
    remapCropForRotation crop r = remapCropForRotation crop k /\
    forwardMapCropToRotation crop r = forwardMapCropToRotation crop k /\
    written (remapCropForRotation crop r) = [] /\
    written (forwardMapCropToRotation crop r) = [] /\
    (((k == 0 \/ k == 360) /\
      value (remapCropForRotation crop r) = crop /\
      value (forwardMapCropToRotation crop r) = crop) \/
     (k == 90 /\
      value (remapCropForRotation crop r) =
        {| cropX := 1 - (y + h); cropY := x;
           cropWidth := h; cropHeight := w |} /\
      value (forwardMapCropToRotation crop r) =
        {| cropX := y; cropY := 1 - (x + w);
           cropWidth := h; cropHeight := w |}) \/
     (k == 180 /\
      value (remapCropForRotation crop r) =
        {| cropX := 1 - (x + w); cropY := 1 - (y + h);
           cropWidth := w; cropHeight := h |} /\
      value (forwardMapCropToRotation crop r) =
        {| cropX := 1 - (x + w); cropY := 1 - (y + h);
           cropWidth := w; cropHeight := h |}) \/
     (k == 270 /\
      value (remapCropForRotation crop r) =
        {| cropX := y; cropY := 1 - (x + w);
           cropWidth := h; cropHeight := w |} /\
      value (forwardMapCropToRotation crop r) =
        {| cropX := 1 - (y + h); cropY := x;
           cropWidth := h; cropHeight := w |})).
Proof.
  intros crop r n k x y w h. subst n k x y w h.
  split; [unfold rotationCase, JS.round; ring|].
  split.
  { destruct (rotationCase_cases r) as [E | [E | [E | [E | E]]]];
      rewrite E; [left | right; left | right; right; left
                 | right; right; right; left | right; right; right; right];
      reflexivity. }
  split; [apply rotationCase_nearest|].
  split.
  { rewrite (remapCropForRotation_by_case crop r).
    destruct (rotationCase_cases r) as [E | [E | [E | [E | E]]]];
      cbv zeta; rewrite E; reflexivity. }
  split.
  { rewrite (forwardMapCropToRotation_by_case crop r).
    destruct (rotationCase_cases r) as [E | [E | [E | [E | E]]]];
      cbv zeta; rewrite E; reflexivity. }
  split; [apply remapCropForRotation_silent|].
  split; [apply forwardMapCropToRotation_silent|].
  rewrite (remapCropForRotation_by_case crop r),
    (forwardMapCropToRotation_by_case crop r).
  destruct (rotationCase_cases r) as [E | [E | [E | [E | E]]]];
    cbv zeta; rewrite E.
  - left. repeat split. left. reflexivity.
  - right. left. repeat split.
  - right. right. left. repeat split.
  - right. right. right. repeat split.
  - left. repeat split. right. reflexivity.
Qed.

(** C5 fails as stated: 45 is not a multiple of 90, yet both mappers apply
    the 90 degree formula to the sample crop and record nothing. *)
Lemma identity_fallback_fails_at_45 :
  ~ multiple_of_90 45 /\ ~ degrades_to_identity sampleCrop 45.
Proof.
  split.
  - intros [k E]. unfold Qeq, Qmult, inject_Z in E. cbn [Qnum Qden] in E. lia.
  - intros (E & _). destruct E as (Ex & _). vm_compute in Ex. discriminate.
Qed.

(** ** The transform builder and the affine composer *)

Section Builder.

Context {M : MathLib}.

(** The scalar fields of the builder's result, in terms of its source
    rectangle. *)
Lemma buildGeometricTransform_fields
  (originalDims targetDims : Dimensions) (h : option EditHistory) :
  let g := value (buildGeometricTransform originalDims targetDims h) in
  let r := JS.default (match h with Some v => rotation v | None => None end) 0 in
  let s := JS.default (match h with Some v => scale v | None => None end) 100 in
  let n := JS.rem (JS.rem r 360 + 360) 360 in
  scaleToFit g =
    (if r <>? 0 then
       if (n =? 90) || (n =? 270) then
         JS.min (dimWidth targetDims / rectHeight (sourceRect g))
                (dimHeight targetDims / rectWidth (sourceRect g)) * 0.90
       else
         JS.min (dimWidth targetDims / rectWidth (sourceRect g))
                (dimHeight targetDims / rectHeight (sourceRect g)) * 0.90
     else 1) /\
  finalScale g = scaleToFit g * (s / 100) /\
  drawWidth g = rectWidth (sourceRect g) * finalScale g /\
  drawHeight g = rectHeight (sourceRect g) * finalScale g.
Proof.
  unfold buildGeometricTransform. rewrite value_bind. cbv zeta.
  repeat split; reflexivity.
Qed.

(** The source rectangle: the whole page without a crop, the crop scaled to
    the page when the rotation is zero, the remapped crop scaled to the page
    otherwise. *)
Lemma buildGeometricTransform_sourceRect
  (originalDims targetDims : Dimensions) (h : option EditHistory) :
  let g := value (buildGeometricTransform originalDims targetDims h) in
  let r := JS.default (match h with Some v => rotation v | None => None end) 0 in
  sourceRect g =
    match (match h with Some v => cropArea v | None => None end) with
    | None =>
        {| rectX := 0; rectY := 0;
           rectWidth := dimWidth originalDims;
           rectHeight := dimHeight originalDims |}
    | Some crop =>
        let o :=
          if r <>? 0 then value (remapCropForRotation crop r) else crop in
        {| rectX := cropX o * dimWidth originalDims;
           rectY := cropY o * dimHeight originalDims;
           rectWidth := cropWidth o * dimWidth originalDims;
           rectHeight := cropHeight o * dimHeight originalDims |}
    end.
Proof.
  unfold buildGeometricTransform. rewrite value_bind. cbv zeta.
  destruct h as [v|]; [|reflexivity].
  destruct (cropArea v) as [crop|]; [|reflexivity].
  cbn [sourceRect value fst ret].
  rewrite !value_bind.
  destruct (JS.default (rotation v) 0 <>? 0); reflexivity.
Qed.

Lemma unrotated_scaleToFit
  (originalDims targetDims : Dimensions) (h : EditHistory) :
  unrotated h ->
  scaleToFit (value (buildGeometricTransform originalDims targetDims (Some h))) = 1.
Proof.
  intro U.
  destruct (buildGeometricTransform_fields originalDims targetDims (Some h))
    as (-> & _).
  apply neqb_false in U. rewrite U. reflexivity.
Qed.

Lemma buildCanonicalTransform_transform
  (originalDims targetDims : Dimensions) (h : option EditHistory) :
  transform (value (buildCanonicalTransform originalDims targetDims h)) =
  value (buildGeometricTransform originalDims targetDims
           (Some (value (normalizeEditHistory originalDims h)))).
Proof.
  unfold buildCanonicalTransform. rewrite !value_bind. reflexivity.
Qed.

(** C6: auto-fit is applied for rotation only.  An edit with rotation 0 gets
    [scaleToFit = 1] from [buildGeometricTransform]; so
    [buildCanonicalTransform d d None] has final scale 1, the whole page as
    source rectangle and the page's size as draw size; and the A4 page
    cropped to (0, 0, 0.5, 0.5) at rotation 0 and scale 100 has
    [scaleToFit = 1], source rectangle (0, 0, 297.5, 421) and draw width
    297.5, through the builder and through the facade, whatever the target. *)
Theorem no_auto_fit_without_rotation :
  (forall (originalDims targetDims : Dimensions) (h : EditHistory),
     unrotated h ->
     scaleToFit
       (value (buildGeometricTransform originalDims targetDims (Some h))) = 1) /\
  (forall dims : Dimensions,
     let g := transform (value (buildCanonicalTransform dims dims None)) in
     scaleToFit g = 1 /\ finalScale g == 1 /\
     sourceRect g =
       {| rectX := 0; rectY := 0;
          rectWidth := dimWidth dims; rectHeight := dimHeight dims |} /\
     drawWidth g == dimWidth dims /\ drawHeight g == dimHeight dims) /\
  (forall targetDims : Dimensions,
     let g := value (buildGeometricTransform a4 targetDims (Some scenarioC)) in
     let g' :=
       transform (value (buildCanonicalTransform a4 targetDims (Some scenarioC))) in
     (scaleToFit g = 1 /\
      rect_eq (sourceRect g)
        {| rectX := 0; rectY := 0; rectWidth := 297.5; rectHeight := 421 |} /\
      drawWidth g == 297.5) /\
     (scaleToFit g' = 1 /\
      rect_eq (sourceRect g')
        {| rectX := 0; rectY := 0; rectWidth := 297.5; rectHeight := 421 |} /\
      drawWidth g' == 297.5)).
Proof.
  split; [|split].
  - intros. apply unrotated_scaleToFit. assumption.
  - intros dims g. subst g. rewrite buildCanonicalTransform_transform.
    change (value (normalizeEditHistory dims None))
      with {| cropArea := None; rotation := Some 0; scale := Some 100;
              offsetX := Some 0; offsetY := Some 0 |}.
    set (h := Some _).
    destruct (buildGeometricTransform_fields dims dims h) as (F1 & F2 & F3 & F4).
    pose proof (buildGeometricTransform_sourceRect dims dims h) as F5.
    cbv zeta in *. subst h. cbn [JS.default rotation scale cropArea] in *.
    change (0 <>? 0) with false in F1.
    rewrite F3, F4, F2, F1, F5. cbn [rectWidth rectHeight].
    repeat split; try reflexivity; field.
  - intros targetDims g g'. subst g g'.
    rewrite buildCanonicalTransform_transform.
    assert (N : value (normalizeEditHistory a4 (Some scenarioC)) =
                {| cropArea := Some {| cropX := 0; cropY := 0;
                                       cropWidth := 0.5; cropHeight := 0.5 |};
                   rotation := Some (JS.round (0 * 10) / 10);
                   scale := Some 100;
                   offsetX := Some 0; offsetY := Some 0 |}) by reflexivity.
    rewrite N. clear N.
    split.
    + set (h := Some _).
      destruct (buildGeometricTransform_fields a4 targetDims h)
        as (F1 & F2 & F3 & F4).
      pose proof (buildGeometricTransform_sourceRect a4 targetDims h) as F5.
      cbv zeta in *. subst h.
      cbn [JS.default rotation scale cropArea scenarioC] in *.
      change (0 <>? 0) with false in *.
      rewrite F3, F2, F1, F5. unfold rect_eq, a4.
      cbn [rectX rectY rectWidth rectHeight cropX cropY cropWidth cropHeight
           dimWidth dimHeight].
      repeat split; try reflexivity; lra.
    + set (h := Some _).
      destruct (buildGeometricTransform_fields a4 targetDims h)
        as (F1 & F2 & F3 & F4).
      pose proof (buildGeometricTransform_sourceRect a4 targetDims h) as F5.
      cbv zeta in *. subst h.
      cbn [JS.default rotation scale cropArea] in *.
      change (JS.round (0 * 10) / 10 <>? 0) with false in *.
      rewrite F3, F2, F1, F5. unfold rect_eq, a4.
      cbn [rectX rectY rectWidth rectHeight cropX cropY cropWidth cropHeight
           dimWidth dimHeight].
      repeat split; try reflexivity; lra.
Qed.

(** C9: [buildAffineMatrix] returns a = scale * cos, b = scale * sin,
    c = - scale * sin, d = scale * cos at radians = - rotation * PI / 180,
    and a translation (e, f) with which the matrix sends the center to the
    center plus the offset. *)
Theorem buildAffineMatrix_fixes_center :
  forall centerX centerY rotation scale offsetX offsetY : Q,
    let m := buildAffineMatrix centerX centerY rotation scale offsetX offsetY in
    let radians := (- rotation * Math_PI) / 180 in
    AffineMatrix.a m = scale * Math_cos radians /\
    AffineMatrix.b m = scale * Math_sin radians /\
    AffineMatrix.c m = - scale * Math_sin radians /\
    AffineMatrix.d m = scale * Math_cos radians /\
    AffineMatrix.a m * centerX + AffineMatrix.c m * centerY + AffineMatrix.e m
      == centerX + offsetX /\
    AffineMatrix.b m * centerX + AffineMatrix.d m * centerY + AffineMatrix.f m
      == centerY + offsetY.
Proof.
  intros. subst m radians. unfold buildAffineMatrix.
  cbn [AffineMatrix.a AffineMatrix.b AffineMatrix.c AffineMatrix.d
       AffineMatrix.e AffineMatrix.f].
  repeat split; try reflexivity; ring.
Qed.

(** Scenario A, exactly. *)
Lemma scenarioA_exact :
  let g := value (buildGeometricTransform a4 a4 (Some scenarioA)) in
  scaleToFit g = JS.min (595 / 842) (842 / 595) * 0.90 /\
  scaleToFit g == 1071 # 1684 /\
  finalScale g == scaleToFit g /\
  drawWidth g == 637245 # 1684 /\
  drawHeight g == 535.5.
Proof.
  intro g. subst g.
  set (h := Some scenarioA).
  destruct (buildGeometricTransform_fields a4 a4 h) as (F1 & F2 & F3 & F4).
  pose proof (buildGeometricTransform_sourceRect a4 a4 h) as F5.
  cbv zeta in *. subst h.
  cbn [JS.default rotation scale cropArea scenarioA] in *.
  rewrite F5 in F1, F3, F4.
  cbn [rectWidth rectHeight a4 dimWidth dimHeight] in *.
  change (90 <>? 0) with true in F1.
  change ((JS.rem (JS.rem 90 360 + 360) 360 =? 90)
          || (JS.rem (JS.rem 90 360 + 360) 360 =? 270)) with true in F1.
  cbv iota in F1.
  rewrite F3, F4, F2, F1.
  change (JS.min (595 / 842) (842 / 595)) with (595 / 842).
  repeat split; try reflexivity; unfold Qeq; vm_compute; reflexivity.
Qed.

(** C8, with the numbers the builder gives: for the A4 page on an A4 target
    at rotation 90 and scale 100 without a crop, [scaleToFit] is
    min (595/842, 842/595) * 0.90 = 0.6360 to four places, [finalScale] is
    the same, [drawWidth] is 595 * scaleToFit = 378.4 to one place and
    [drawHeight] is exactly 535.5. *)
Theorem scenarioA_transform :
  let g := value (buildGeometricTransform a4 a4 (Some scenarioA)) in
  scaleToFit g = JS.min (595 / 842) (842 / 595) * 0.90 /\
  approx (scaleToFit g) 0.6360 0.00005 /\
  finalScale g == scaleToFit g /\
  approx (finalScale g) 0.6360 0.00005 /\
  approx (drawWidth g) 378.4 0.05 /\
  drawHeight g == 535.5.
Proof.
  intro g. destruct scenarioA_exact as (E1 & E2 & E3 & E4 & E5).
  fold g in E1, E2, E3, E4, E5. unfold approx.
  repeat split; try assumption; apply Qabs_Qle_condition; lra.
Qed.

End Builder.

(** C8 fails with the printed numbers: the draw width is 378.41, not within
    0.1 of 378.2. *)
Lemma scenarioA_printed_numbers_fail :
  ~ scenarioA_as_stated
      (value (buildGeometricTransform (M := taylorMath) a4 a4 (Some scenarioA))).
Proof.
  intros (_ & _ & W & _). unfold approx in W.
  apply Qabs_Qle_condition in W. destruct W as [_ W].
  destruct (scenarioA_exact (M := taylorMath)) as (_ & _ & _ & A & _).
  cbv zeta in A. lra.
Qed.

Lemma no_auto_fit_without_rotation_witness :
  scaleToFit
    (value (buildGeometricTransform (M := taylorMath) a4 a4 (Some scenarioC))) = 1.
Proof.
  apply (proj1 (no_auto_fit_without_rotation (M := taylorMath))).
  unfold unrotated. reflexivity.
Defined.

(** ** The normalizer *)

Lemma normalizeEditHistory_value (dims : Dimensions) (h : EditHistory) :
  value (normalizeEditHistory dims (Some h)) =
  {| cropArea := option_map normalizedCropOf (cropArea h);
     rotation := Some (normalizedRotationOf (JS.or_else (rotation h) 0));
     scale := Some (normalizedScaleOf (JS.or_else (scale h) 100));
     offsetX :=
       Some (normalizedOffsetOf (JS.or_else (offsetX h) 0) (dimWidth dims * 0.5));
     offsetY :=
       Some (normalizedOffsetOf (JS.or_else (offsetY h) 0) (dimHeight dims * 0.5)) |}.
Proof.
  unfold normalizeEditHistory.
  repeat (rewrite ?value_bind, ?value_if, ?value_ret; cbv zeta).
  f_equal.
  destruct (cropArea h) as [crop|]; [|reflexivity].
  unfold normalizedCropOf, option_map. cbv zeta.
  repeat (rewrite ?value_bind, ?value_if, ?value_ret; cbv zeta).
  repeat
    (match goal with
     | |- context [let '(_, _) := ?P in _] => destruct P as [? ?]
     end;
     repeat (rewrite ?value_bind, ?value_if, ?value_ret; cbv zeta)).
  split_test; reflexivity.
Qed.

(** A disjunction of tests that came out true: one of them did. *)
Ltac split_orb H :=
  repeat (apply orb_true_iff in H; destruct H as [H|H]); reflect_test H.

Lemma size_clamp_bounds (v : Q) :
  0.01 <= JS.max 0.01 (JS.max 0 (JS.min 1 v)) <= 1.
Proof.
  pose proof (clamp_bounds 0 1 v) as B.
  destruct (max_spec 0.01 (JS.max 0 (JS.min 1 v))) as [[? ->]|[? ->]]; lra.
Qed.

Lemma size_clamp_fixed (v : Q) :
  0.01 <= v <= 1 -> JS.max 0.01 (JS.max 0 (JS.min 1 v)) == v.
Proof.
  intro B. pose proof (clamp_fixed 0 1 v) as F.
  destruct (max_spec 0.01 (JS.max 0 (JS.min 1 v))) as [[? ->]|[? ->]]; lra.
Qed.

(** Step 1 returns a crop inside the page, at least a hundredth wide and
    high. *)
Lemma normalizedCropOf_inside (crop : CropArea) :
  let n := normalizedCropOf crop in
  0 <= cropX n /\ 0 <= cropY n /\
  0.01 <= cropWidth n <= 1 /\ 0.01 <= cropHeight n <= 1 /\
  cropX n + cropWidth n <= 1 /\ cropY n + cropHeight n <= 1.
Proof.
  unfold normalizedCropOf.
  pose proof (size_clamp_bounds (cropWidth crop)) as BW.
  pose proof (size_clamp_bounds (cropHeight crop)) as BH.
  pose proof (clamp_bounds 0 1 (cropX crop)) as BX.
  pose proof (clamp_bounds 0 1 (cropY crop)) as BY.
  set (w := JS.max 0.01 (JS.max 0 (JS.min 1 (cropWidth crop)))) in *.
  set (h := JS.max 0.01 (JS.max 0 (JS.min 1 (cropHeight crop)))) in *.
  set (x := JS.max 0 (JS.min 1 (cropX crop))) in *.
  set (y := JS.max 0 (JS.min 1 (cropY crop))) in *.
  clearbody w h x y. cbv zeta.
  repeat (split_test; cbv beta iota);
    cbn [cropX cropY cropWidth cropHeight];
    try (repeat split; lra);
    match goal with
    | T : _ = false |- _ =>
        repeat (apply orb_false_iff in T; destruct T as [T ?]);
        repeat match goal with
               | H : _ = false |- _ => reflect_test H
               end
    end; repeat split; lra.
Qed.

(** Step 1 leaves such a crop as it is. *)
Lemma normalizedCropOf_fixed (crop : CropArea) :
  0 <= cropX crop -> 0 <= cropY crop ->
  0.01 <= cropWidth crop <= 1 -> 0.01 <= cropHeight crop <= 1 ->
  cropX crop + cropWidth crop <= 1 -> cropY crop + cropHeight crop <= 1 ->
  crop_eq (normalizedCropOf crop) crop.
Proof.
  intros X0 Y0 W0 H0 XW YH.
  unfold normalizedCropOf.
  pose proof (size_clamp_fixed (cropWidth crop) W0) as BW.
  pose proof (size_clamp_fixed (cropHeight crop) H0) as BH.
  assert (BX : JS.max 0 (JS.min 1 (cropX crop)) == cropX crop)
    by (apply clamp_fixed; lra).
  assert (BY : JS.max 0 (JS.min 1 (cropY crop)) == cropY crop)
    by (apply clamp_fixed; lra).
  set (w := JS.max 0.01 (JS.max 0 (JS.min 1 (cropWidth crop)))) in *.
  set (h := JS.max 0.01 (JS.max 0 (JS.min 1 (cropHeight crop)))) in *.
  set (x := JS.max 0 (JS.min 1 (cropX crop))) in *.
  set (y := JS.max 0 (JS.min 1 (cropY crop))) in *.
  clearbody w h x y. cbv zeta. unfold crop_eq.
  repeat (split_test; cbv beta iota);
    cbn [cropX cropY cropWidth cropHeight];
    try lra;
    try (repeat split; lra);
    match goal with
    | T : _ = true |- _ => split_orb T; lra
    end.
Qed.

(** The shortest signed path: the reduced rotation, moved into (-180, 180]. *)
Lemma signed_rotation_range (r : Q) :
  let n := JS.rem (JS.rem r 360 + 360) 360 in
  -180 < (if n >? 180 then n - 360 else n) <= 180.
Proof.
  pose proof (normalized_range r) as N. cbv zeta.
  set (n := JS.rem (JS.rem r 360 + 360) 360) in *. clearbody n.
  split_test; lra.
Qed.

Lemma signed_rotation_fixed (q : Q) :
  -180 < q <= 180 ->
  let n := JS.rem (JS.rem q 360 + 360) 360 in
  (if n >? 180 then n - 360 else n) == q.
Proof.
  intro B. cbv zeta.
  assert (S : JS.rem q 360 == q) by (apply rem_360_small; lra).
  assert (N : JS.rem (JS.rem q 360 + 360) 360 == JS.rem (q + 360) 360)
    by (apply rem_comp; rewrite S; reflexivity).
  destruct (Qlt_le_dec q 0) as [Neg|Pos].
  - assert (W : JS.rem (q + 360) 360 == q + 360)
      by (apply rem_360_small; lra).
    set (n := JS.rem (JS.rem q 360 + 360) 360) in *. clearbody n.
    split_test; lra.
  - assert (W : JS.rem (q + 360) 360 == q + 360 - 360)
      by (apply rem_360_wrap; lra).
    set (n := JS.rem (JS.rem q 360 + 360) 360) in *. clearbody n.
    split_test; lra.
Qed.

Lemma normalizedRotationOf_comp (p q : Q) :
  p == q -> normalizedRotationOf p = normalizedRotationOf q.
Proof.
  intro E. unfold normalizedRotationOf. cbv zeta. f_equal.
  apply round_comp.
  assert (N : JS.rem (JS.rem p 360 + 360) 360 == JS.rem (JS.rem q 360 + 360) 360).
  { apply rem_comp. apply Qplus_comp; [|reflexivity]. apply rem_comp. exact E. }
  set (n := JS.rem (JS.rem p 360 + 360) 360) in *.
  set (m := JS.rem (JS.rem q 360 + 360) 360) in *.
  clearbody n m.
  repeat split_test; lra.
Qed.

(** Step 2 returns a whole number of tenths between -180 and 180. *)
Lemma normalizedRotationOf_tenths (r : Q) :
  exists k : Z,
    normalizedRotationOf r = inject_Z k / 10 /\ (-1800 <= k <= 1800)%Z.
Proof.
  unfold normalizedRotationOf. cbv zeta.
  pose proof (signed_rotation_range r) as S. cbv zeta in S.
  set (n := if JS.rem (JS.rem r 360 + 360) 360 >? 180
            then JS.rem (JS.rem r 360 + 360) 360 - 360
            else JS.rem (JS.rem r 360 + 360) 360) in *.
  clearbody n.
  destruct (round_between (n * 10) (-1800) 1800) as [k [-> K]].
  - change (inject_Z (-1800)) with (-1800).
    change (inject_Z 1800) with 1800. lra.
  - exists k. split; [reflexivity|exact K].
Qed.

Lemma tenths_range (k : Z) :
  (-1800 <= k <= 1800)%Z -> -180 <= inject_Z k / 10 <= 180.
Proof.
  intros [L H]. rewrite Zle_Qle in L, H.
  change (inject_Z (-1800)) with (-1800) in L.
  change (inject_Z 1800) with 1800 in H.
  assert (D : inject_Z k == 10 * (inject_Z k / 10)) by (field; discriminate).
  set (u := inject_Z k / 10) in *. clearbody u. lra.
Qed.

Lemma normalizedRotationOf_range (r : Q) : -180 <= normalizedRotationOf r <= 180.
Proof.
  destruct (normalizedRotationOf_tenths r) as [k [-> K]].
  apply tenths_range. exact K.
Qed.

(** Step 2 leaves a whole number of tenths in (-180, 180] as it is. *)
Lemma normalizedRotationOf_fixed (k : Z) :
  (-1800 < k <= 1800)%Z ->
  normalizedRotationOf (inject_Z k / 10) == inject_Z k / 10.
Proof.
  intros [L H]. rewrite Zlt_Qlt in L. rewrite Zle_Qle in H.
  change (inject_Z (-1800)) with (-1800) in L.
  change (inject_Z 1800) with 1800 in H.
  unfold normalizedRotationOf. cbv zeta.
  assert (D : inject_Z k == 10 * (inject_Z k / 10)) by (field; discriminate).
  assert (B : -180 < inject_Z k / 10 <= 180)
    by (set (u := inject_Z k / 10) in *; clearbody u; lra).
  pose proof (signed_rotation_fixed (inject_Z k / 10) B) as F. cbv zeta in F.
  set (n := if JS.rem (JS.rem (inject_Z k / 10) 360 + 360) 360 >? 180
            then JS.rem (JS.rem (inject_Z k / 10) 360 + 360) 360 - 360
            else JS.rem (JS.rem (inject_Z k / 10) 360 + 360) 360) in *.
  clearbody n.
  rewrite (round_comp (n * 10) (inject_Z k)) by (rewrite F; lra).
  rewrite round_integer. reflexivity.
Qed.

(** [v || d] is [v] itself when [v] is given, up to the value of zero
    when [d] is zero. *)
Lemma or_else_zero (v : Q) : JS.or_else (Some v) 0 == v.
Proof.
  unfold JS.or_else, JS.truthy.
  destruct (Qeq_bool v 0) eqn:E; simpl; [|reflexivity].
  apply Qeq_bool_iff in E. rewrite E. reflexivity.
Qed.

Lemma or_else_nonzero (v d : Q) : ~ v == 0 -> JS.or_else (Some v) d = v.
Proof.
  intro N. unfold JS.or_else, JS.truthy.
  destruct (Qeq_bool v 0) eqn:E; simpl; [|reflexivity].
  apply Qeq_bool_iff in E. contradiction.
Qed.

(** Step 3 clamps into [10, 500] and leaves that range alone. *)
Lemma normalizedScaleOf_range (s : Q) : 10 <= normalizedScaleOf s <= 500.
Proof. unfold normalizedScaleOf. cbv zeta. repeat split_test; lra. Qed.

Lemma normalizedScaleOf_fixed (s : Q) :
  10 <= s <= 500 -> normalizedScaleOf s = s.
Proof.
  intro B. unfold normalizedScaleOf. cbv zeta.
  repeat split_test; try reflexivity; lra.
Qed.

(** Step 4 clamps into [-bound, bound] and leaves that range alone. *)
Lemma normalizedOffsetOf_range (o bound : Q) :
  0 <= bound -> Qabs (normalizedOffsetOf o bound) <= bound.
Proof.
  intro B. unfold normalizedOffsetOf, JS.abs, JS.sign.
  split_test.
  - apply Qabs_Qle_condition.
    revert T. apply Qabs_case; intros; repeat split_test; lra.
  - exact T.
Qed.

Lemma normalizedOffsetOf_fixed (o bound : Q) :
  Qabs o <= bound -> normalizedOffsetOf o bound = o.
Proof.
  intro B. unfold normalizedOffsetOf, JS.abs.
  split_test; [|reflexivity]. lra.
Qed.

Lemma normalizedOffsetOf_comp (p q bound : Q) :
  p == q -> normalizedOffsetOf p bound == normalizedOffsetOf q bound.
Proof.
  intro E. unfold normalizedOffsetOf, JS.abs, JS.sign.
  pose proof (Qabs_wd p q E) as A.
  set (ap := Qabs p) in *. set (aq := Qabs q) in *. clearbody ap aq.
  repeat split_test; lra.
Qed.

(** What the normalizer makes of an absent edit is what it makes of the
    identity edit, up to the value of the numbers. *)
Lemma normalizedRotationOf_zero : normalizedRotationOf 0 == 0.
Proof. unfold Qeq. vm_compute. reflexivity. Qed.

(** A normalized edit is a fixed point of steps 1, 3 and 4, and of step 2
    unless its rotation is -180. *)
Lemma normalize_fixed_fields (dims : Dimensions) (e : EditHistory) :
  0 <= dimWidth dims -> 0 <= dimHeight dims ->
  let once := value (normalizeEditHistory dims (Some e)) in
  let twice := value (normalizeEditHistory dims (Some once)) in
  opt_eq crop_eq (cropArea twice) (cropArea once) /\
  (~ opt_eq Qeq (rotation once) (Some (-180)) ->
   opt_eq Qeq (rotation twice) (rotation once)) /\
  opt_eq Qeq (scale twice) (scale once) /\
  opt_eq Qeq (offsetX twice) (offsetX once) /\
  opt_eq Qeq (offsetY twice) (offsetY once).
Proof.
  intros W H once twice. subst twice once.
  rewrite (normalizeEditHistory_value dims e).
  rewrite normalizeEditHistory_value.
  cbn [cropArea rotation scale offsetX offsetY opt_eq].
  split; [|split; [|split; [|split]]].
  - destruct (cropArea e) as [crop|]; cbn [option_map opt_eq]; [|exact I].
    pose proof (normalizedCropOf_inside crop) as In. cbv zeta in In.
    apply normalizedCropOf_fixed; tauto.
  - intro Off.
    destruct (normalizedRotationOf_tenths (JS.or_else (rotation e) 0))
      as [k [E K]].
    rewrite E in *.
    rewrite (normalizedRotationOf_comp _ _ (or_else_zero (inject_Z k / 10))).
    apply normalizedRotationOf_fixed.
    assert (k <> -1800)%Z; [|lia].
    intro Bad. apply Off. rewrite Bad. unfold Qeq. vm_compute. reflexivity.
  - pose proof (normalizedScaleOf_range (JS.or_else (scale e) 100)) as R.
    set (s := normalizedScaleOf (JS.or_else (scale e) 100)) in *. clearbody s.
    rewrite or_else_nonzero by lra.
    rewrite normalizedScaleOf_fixed by lra. reflexivity.
  - assert (B : 0 <= dimWidth dims * 0.5) by lra.
    pose proof (normalizedOffsetOf_range
                  (JS.or_else (offsetX e) 0) (dimWidth dims * 0.5) B) as R.
    set (o := normalizedOffsetOf (JS.or_else (offsetX e) 0) (dimWidth dims * 0.5))
      in *. clearbody o.
    rewrite (normalizedOffsetOf_comp _ _ _ (or_else_zero o)).
    rewrite normalizedOffsetOf_fixed by exact R. reflexivity.
  - assert (B : 0 <= dimHeight dims * 0.5) by lra.
    pose proof (normalizedOffsetOf_range
                  (JS.or_else (offsetY e) 0) (dimHeight dims * 0.5) B) as R.
    set (o := normalizedOffsetOf (JS.or_else (offsetY e) 0) (dimHeight dims * 0.5))
      in *. clearbody o.
    rewrite (normalizedOffsetOf_comp _ _ _ (or_else_zero o)).
    rewrite normalizedOffsetOf_fixed by exact R. reflexivity.
Qed.

(** The absent edit normalizes to the identity edit, which is a fixed
    point. *)
Lemma normalize_identity_fixed (dims : Dimensions) :
  0 <= dimWidth dims -> 0 <= dimHeight dims ->
  let once := value (normalizeEditHistory dims None) in
  edit_eq (value (normalizeEditHistory dims (Some once))) once.
Proof.
  intros W H once. subst once.
  change (value (normalizeEditHistory dims None))
    with {| cropArea := None; rotation := Some 0; scale := Some 100;
            offsetX := Some 0; offsetY := Some 0 |}.
  rewrite normalizeEditHistory_value. unfold edit_eq.
  cbn [cropArea rotation scale offsetX offsetY option_map opt_eq].
  assert (Z : Qabs 0 <= dimWidth dims * 0.5) by (apply Qabs_Qle_condition; lra).
  assert (Z' : Qabs 0 <= dimHeight dims * 0.5) by (apply Qabs_Qle_condition; lra).
  change (JS.or_else (Some 0) 0) with 0.
  change (JS.or_else (Some 100) 100) with 100.
  rewrite !normalizedOffsetOf_fixed by assumption.
  repeat split; reflexivity.
Qed.

(** The normalizer is idempotent on every edit it does not send to the
    rotation -180. *)
Lemma normalizeEditHistory_idempotent_off_boundary
  (dims : Dimensions) (h : option EditHistory) :
  0 <= dimWidth dims -> 0 <= dimHeight dims ->
  let once := value (normalizeEditHistory dims h) in
  ~ opt_eq Qeq (rotation once) (Some (-180)) ->
  edit_eq (value (normalizeEditHistory dims (Some once))) once.
Proof.
  intros W H once Off. subst once.
  destruct h as [e|]; [|apply normalize_identity_fixed; assumption].
  destruct (normalize_fixed_fields dims e W H) as (C & R & S & X & Y).
  unfold edit_eq. auto.
Qed.

(** C3, at the input that breaks it: the rotation 180.04 is normalized to
    -180, which a second pass turns into 180; the normalizer is not
    idempotent there, for want of a wrap after the rounding of step 2. *)
Theorem normalizeEditHistory_not_idempotent_at_180_04 :
  let once := value (normalizeEditHistory a4 (Some (rotationOnly 180.04))) in
  let twice := value (normalizeEditHistory a4 (Some once)) in
  opt_eq Qeq (rotation once) (Some (-180)) /\
  opt_eq Qeq (rotation twice) (Some 180) /\
  ~ edit_eq twice once.
Proof.
  cbv zeta. split; [|split].
  - unfold opt_eq, Qeq. vm_compute. reflexivity.
  - unfold opt_eq, Qeq. vm_compute. reflexivity.
  - intros (_ & R & _). revert R. unfold opt_eq, Qeq. vm_compute. discriminate.
Qed.

(** C4: for all page dimensions and every edit, given or absent, the
    normalizer returns an edit within bounds: a crop, if any, has its four
    fields in [0, 1], right and bottom edges at most 1 + 1e-9, and width and
    height at least 0.01; the rotation is in [-180, 180]; the scale is in
    [10, 500]; the offsets are at most half the page's width and height in
    absolute value.  The normalizer is a total function: there is no input on
    which it fails. *)
Theorem normalizeEditHistory_bounded :
  forall (dims : Dimensions) (h : option EditHistory),
    0 <= dimWidth dims -> 0 <= dimHeight dims ->
    edit_bounded dims (value (normalizeEditHistory dims h)).
Proof.
  intros dims h W H. unfold edit_bounded.
  destruct h as [e|].
  - rewrite normalizeEditHistory_value.
    cbn [cropArea rotation scale offsetX offsetY].
    split; [|split; [|split; [|split]]].
    + destruct (cropArea e) as [crop|]; cbn [option_map]; [|exact I].
      pose proof (normalizedCropOf_inside crop) as In. cbv zeta in In.
      unfold crop_bounded.
      assert (Eps : 0 <= 1e-9) by discriminate.
      set (eps := 1e-9) in *. clearbody eps.
      repeat split; lra.
    + eexists. split; [reflexivity|]. apply normalizedRotationOf_range.
    + eexists. split; [reflexivity|]. apply normalizedScaleOf_range.
    + eexists. split; [reflexivity|].
      assert (B : 0 <= dimWidth dims * 0.5) by lra.
      pose proof (normalizedOffsetOf_range
                    (JS.or_else (offsetX e) 0) (dimWidth dims * 0.5) B).
      lra.
    + eexists. split; [reflexivity|].
      assert (B : 0 <= dimHeight dims * 0.5) by lra.
      pose proof (normalizedOffsetOf_range
                    (JS.or_else (offsetY e) 0) (dimHeight dims * 0.5) B).
      lra.
  - change (value (normalizeEditHistory dims None))
      with {| cropArea := None; rotation := Some 0; scale := Some 100;
              offsetX := Some 0; offsetY := Some 0 |}.
    cbn [cropArea rotation scale offsetX offsetY].
    split; [exact I|].
    split; [exists 0; split; [reflexivity|lra]|].
    split; [exists 100; split; [reflexivity|lra]|].
    split; exists 0; (split; [reflexivity|]); apply Qabs_Qle_condition; lra.
Qed.

Lemma normalizeEditHistory_bounded_witness :
  edit_bounded a4
    (value (normalizeEditHistory a4
              (Some {| cropArea := Some {| cropX := 0.9; cropY := 0.9;
                                           cropWidth := 0.3; cropHeight := 0.3 |};
                       rotation := Some 450; scale := Some 1000;
                       offsetX := Some 400; offsetY := Some (-900) |}))).
Proof.
  apply normalizeEditHistory_bounded; unfold a4; simpl; discriminate.
Defined.

(** ** The recipe validator *)

Lemma forEachPage_reports (ps : list (option Recipe.Page)) :
  forall (from i : nat) (page : Recipe.Page) (v : Recipe.Violation)
         (pushed : list Recipe.Violation),
    Recipe.forEachPage ps from = Recipe.Returned pushed ->
    nth_error ps i = Some (Some page) ->
    In v (Recipe.validatePage page (from + i)) ->
    In v pushed.
Proof.
  induction ps as [|p ps IH]; intros from i page v pushed R N V.
  - destruct i; discriminate.
  - cbn [Recipe.forEachPage] in R. destruct p as [p|]; [|discriminate].
    destruct (Recipe.forEachPage ps (S from)) as [more|] eqn:F;
      [|discriminate].
    injection R as <-. apply in_or_app.
    destruct i as [|i]; cbn [nth_error] in N.
    + injection N as ->. left. rewrite Nat.add_0_r in V. exact V.
    + right. apply (IH (S from) i page v more F N).
      rewrite Nat.add_succ_comm. exact V.
Qed.

(** [forEach] throws exactly when an entry is missing. *)
Lemma forEachPage_throws (ps : list (option Recipe.Page)) :
  forall from : nat,
    Recipe.forEachPage ps from = Recipe.TypeError <-> In None ps.
Proof.
  induction ps as [|p ps IH]; intro from; cbn [Recipe.forEachPage In].
  - split; [discriminate|contradiction].
  - destruct p as [p|].
    + specialize (IH (S from)).
      destruct (Recipe.forEachPage ps (S from)) as [more|].
      * split; [discriminate|].
        intros [N | N]; [discriminate|]. apply IH in N. discriminate.
      * split; [intros _; right; apply IH; reflexivity|reflexivity].
    + split; [intros _; left; reflexivity|reflexivity].
Qed.

(** What a returning call returns: the errors of the head checks, then
    what [forEach] pushed. *)
Lemma validateRecipe_returned (recipe : Recipe.t) (result : Recipe.Validation) :
  Recipe.validateRecipe (Some recipe) = Recipe.Returned result ->
  Recipe.valid result = (List.length (Recipe.errors result) =? 0)%nat /\
  exists pushed : list Recipe.Violation,
    match Recipe.pages recipe with
    | Some (Recipe.PageArray ps) =>
        Recipe.forEachPage ps 0 = Recipe.Returned pushed
    | Some Recipe.NotAnArray => False
    | None => pushed = []
    end /\
    Recipe.errors result =
      (if Recipe.truthy_string (Recipe.version recipe)
       then [] else [Recipe.MissingVersion])
      ++ (if Recipe.truthy_string
              (Recipe.chain (Recipe.source recipe) Recipe.fileName)
          then [] else [Recipe.MissingSourceFileName])
      ++ (match Recipe.pages recipe with
          | Some (Recipe.PageArray (_ :: _)) => []
          | _ => [Recipe.NoPages]
          end)
      ++ pushed.
Proof.
  unfold Recipe.validateRecipe. cbv zeta.
  destruct (Recipe.pages recipe) as [[ps|]|]; [| discriminate |].
  - destruct (Recipe.forEachPage ps 0) as [pushed|]; [|discriminate].
    intro R. injection R as <-. cbn [Recipe.valid Recipe.errors].
    split; [reflexivity|]. exists pushed. split; [reflexivity|].
    destruct (Recipe.truthy_string (Recipe.version recipe));
      destruct (Recipe.truthy_string
                  (Recipe.chain (Recipe.source recipe) Recipe.fileName));
      destruct ps; reflexivity.
  - intro R. injection R as <-. cbn [Recipe.valid Recipe.errors].
    split; [reflexivity|]. exists []. split; [reflexivity|].
    destruct (Recipe.truthy_string (Recipe.version recipe));
      destruct (Recipe.truthy_string
                  (Recipe.chain (Recipe.source recipe) Recipe.fileName));
      reflexivity.
Qed.

Lemma validateRecipe_throws (recipe : option Recipe.t) :
  Recipe.validateRecipe recipe = Recipe.TypeError <-> breaks_validation recipe.
Proof.
  unfold Recipe.validateRecipe, breaks_validation. cbv zeta.
  destruct recipe as [recipe|]; [|split; trivial].
  destruct (Recipe.pages recipe) as [[ps|]|].
  - rewrite <- (forEachPage_throws ps 0).
    destruct (Recipe.forEachPage ps 0); split; trivial; discriminate.
  - split; trivial.
  - split; [discriminate|contradiction].
Qed.

Lemma validateRecipe_reports (recipe : Recipe.t)
  (ps : list (option Recipe.Page)) (result : Recipe.Validation)
  (i : nat) (page : Recipe.Page) (v : Recipe.Violation) :
  Recipe.validateRecipe (Some recipe) = Recipe.Returned result ->
  Recipe.pages recipe = Some (Recipe.PageArray ps) ->
  nth_error ps i = Some (Some page) ->
  In v (Recipe.validatePage page i) ->
  In v (Recipe.errors result).
Proof.
  intros R P N V.
  destruct (validateRecipe_returned recipe result R) as (_ & pushed & F & E).
  rewrite P in F. rewrite E.
  apply in_or_app. right. apply in_or_app. right. apply in_or_app. right.
  apply (forEachPage_reports ps 0 i page v pushed F N). exact V.
Qed.

Lemma includes_quarter_turn (r : Q) :
  Recipe.includes [0; 90; 180; 270] r = true <-> quarter_turn r.
Proof.
  unfold Recipe.includes, quarter_turn. cbn [existsb].
  rewrite !orb_true_iff, !eqb_true. intuition discriminate.
Qed.

Lemma truthy_number_some (v : Q) :
  ~ v == 0 -> Recipe.truthy_number (Some v) = Some v.
Proof.
  intro N. unfold Recipe.truthy_number, JS.truthy.
  destruct (Qeq_bool v 0) eqn:E; [|reflexivity].
  apply Qeq_bool_iff in E. contradiction.
Qed.

(** What [validatePage] pushes for each defect. *)
Lemma validatePage_rotation (page : Recipe.Page) (t : Recipe.Transforms)
  (i : nat) (r : Q) :
  Recipe.transforms page = Some t -> bad_rotation t r ->
  In (Recipe.InvalidRotation (i + 1) r) (Recipe.validatePage page i).
Proof.
  intros T [R Bad]. unfold Recipe.validatePage. rewrite T.
  cbn [Recipe.chain]. rewrite R.
  rewrite truthy_number_some
    by (intro Z; apply Bad; left; exact Z).
  destruct (Recipe.includes [0; 90; 180; 270] r) eqn:I.
  - apply includes_quarter_turn in I. contradiction.
  - cbn [negb]. apply in_or_app. left. left. reflexivity.
Qed.

Lemma validatePage_scale (page : Recipe.Page) (t : Recipe.Transforms)
  (i : nat) (s : Q) :
  Recipe.transforms page = Some t -> bad_scale t s -> ~ s == 0 ->
  In (Recipe.InvalidScale (i + 1) s) (Recipe.validatePage page i).
Proof.
  intros T [S Bad] NZ. unfold Recipe.validatePage. rewrite T.
  cbn [Recipe.chain]. rewrite S.
  rewrite (truthy_number_some s NZ).
  apply in_or_app. right. apply in_or_app. left.
  destruct ((s <? 10) || (s >? 500)) eqn:C; [left; reflexivity|].
  apply orb_false_iff in C. destruct C as [C1 C2].
  reflect_test C1. reflect_test C2. lra.
Qed.

Lemma validatePage_crop_area (page : Recipe.Page) (t : Recipe.Transforms)
  (i : nat) :
  Recipe.transforms page = Some t -> bad_crop_area t ->
  In (Recipe.InvalidCropArea (i + 1)) (Recipe.validatePage page i).
Proof.
  intros T (crop & C & Bad). unfold Recipe.validatePage. rewrite T.
  cbn [Recipe.chain]. rewrite C.
  apply in_or_app. right. apply in_or_app. right. apply in_or_app. left.
  destruct ((cropX crop <? 0) || (cropY crop <? 0)
            || (cropWidth crop <=? 0) || (cropHeight crop <=? 0)) eqn:K;
    [left; reflexivity|].
  repeat (apply orb_false_iff in K; destruct K as [K ?]).
  repeat match goal with H : _ = false |- _ => reflect_test H end.
  lra.
Qed.

Lemma validatePage_crop_exceeds (page : Recipe.Page) (t : Recipe.Transforms)
  (i : nat) :
  Recipe.transforms page = Some t -> crop_exceeds t ->
  In (Recipe.CropExceedsBounds (i + 1)) (Recipe.validatePage page i).
Proof.
  intros T (crop & C & Bad). unfold Recipe.validatePage. rewrite T.
  cbn [Recipe.chain]. rewrite C.
  apply in_or_app. right. apply in_or_app. right. apply in_or_app. right.
  destruct ((cropX crop + cropWidth crop >? 1.01)
            || (cropY crop + cropHeight crop >? 1.01)) eqn:K;
    [left; reflexivity|].
  repeat (apply orb_false_iff in K; destruct K as [K ?]).
  repeat match goal with H : _ = false |- _ => reflect_test H end.
  lra.
Qed.

(** C10, as the code has it.  [validateRecipe] throws a [TypeError]
    exactly when the recipe is [null] or [undefined], its pages are no
    array, or an entry of the array is [null] or [undefined].  On every
    other recipe it returns, and what it returns reports every page whose
    transforms hold a rotation outside 0, 90, 180, 270, a scale other than
    zero outside [10, 500], a crop of non-positive width or height or
    negative x or y, or a crop with x + width or y + height above 1.01;
    and [valid] is true exactly when the error list is empty. *)
Theorem validateRecipe_reports_defects :
  forall input : option Recipe.t,
    (Recipe.validateRecipe input = Recipe.TypeError <->
     breaks_validation input) /\
    (~ breaks_validation input ->
     exists result : Recipe.Validation,
       Recipe.validateRecipe input = Recipe.Returned result /\
       (forall (recipe : Recipe.t) (ps : list (option Recipe.Page)) (i : nat)
               (page : Recipe.Page) (t : Recipe.Transforms),
          input = Some recipe ->
          Recipe.pages recipe = Some (Recipe.PageArray ps) ->
          nth_error ps i = Some (Some page) ->
          Recipe.transforms page = Some t ->
          let errors := Recipe.errors result in
          (forall r, bad_rotation t r ->
                     In (Recipe.InvalidRotation (i + 1) r) errors) /\
          (forall s, bad_scale t s -> ~ s == 0 ->
                     In (Recipe.InvalidScale (i + 1) s) errors) /\
          (bad_crop_area t -> In (Recipe.InvalidCropArea (i + 1)) errors) /\
          (crop_exceeds t -> In (Recipe.CropExceedsBounds (i + 1)) errors)) /\
       (Recipe.valid result = true <-> Recipe.errors result = [])).
Proof.
  intro input. split; [apply validateRecipe_throws|].
  intro Fine.
  destruct (Recipe.validateRecipe input) as [result|] eqn:R;
    [|exfalso; apply Fine, validateRecipe_throws; exact R].
  exists result. split; [reflexivity|]. split.
  - intros recipe ps i page t -> P N T errors. subst errors.
    repeat split; intros.
    + eapply validateRecipe_reports; eauto using validatePage_rotation.
    + eapply validateRecipe_reports; eauto using validatePage_scale.
    + eapply validateRecipe_reports; eauto using validatePage_crop_area.
    + eapply validateRecipe_reports; eauto using validatePage_crop_exceeds.
  - destruct input as [recipe|]; [|discriminate].
    destruct (validateRecipe_returned recipe result R) as (V & _).
    rewrite V. destruct (Recipe.errors result); cbn; intuition discriminate.
Qed.

Lemma validateRecipe_reports_defects_witness :
  exists result : Recipe.Validation,
    Recipe.validateRecipe (Some (onePage (rotationOnlyPage 45)))
      = Recipe.Returned result /\
    In (Recipe.InvalidRotation 1 45) (Recipe.errors result).
Proof.
  destruct (proj2 (validateRecipe_reports_defects
                     (Some (onePage (rotationOnlyPage 45)))))
    as (result & R & Complete & _).
  - intros [N | []]. discriminate.
  - exists result. split; [exact R|].
    apply (Complete (onePage (rotationOnlyPage 45))
             [Some {| Recipe.transforms := Some (rotationOnlyPage 45) |}] 0%nat
             {| Recipe.transforms := Some (rotationOnlyPage 45) |}
             (rotationOnlyPage 45) eq_refl eq_refl eq_refl eq_refl).
    split; [reflexivity|].
    unfold quarter_turn. intros [E | [E | [E | E]]]; discriminate.
Defined.

(** C10 fails as stated, twice.  A scale of zero is outside [10, 500], yet
    the validator reports nothing for the page and finds the recipe valid;
    and the validator does throw: on a recipe that is [null], and on a
    recipe whose only page is [null]. *)
Lemma zero_scale_is_not_reported :
  defective_as_stated (scaleOnly 0) /\
  ~ reported (onePage (scaleOnly 0)) 1 /\
  Recipe.validateRecipe (Some (onePage (scaleOnly 0))) =
    Recipe.Returned {| Recipe.valid := true; Recipe.errors := [] |} /\
  Recipe.validateRecipe None = Recipe.TypeError /\
  Recipe.validateRecipe (Some nullPage) = Recipe.TypeError.
Proof.
  split; [|split; [|split; [|split]]].
  - right. left. exists 0. split; [reflexivity|]. left. reflexivity.
  - intros (result & v & R & V & _).
    injection R as <-. exact V.
  - reflexivity.
  - reflexivity.
  - reflexivity.
Qed.

(** ** The canvas renderer adapter against the builder *)

Import CanvasRendererAdapter.









(** The part of a page of size [m] from the fraction [p] on, [q] wide. *)
Lemma fraction_inside (p q m : Q) :
  0 <= p -> 0 <= q -> p + q <= 1 -> 0 <= m ->
  0 <= p * m /\ 0 <= q * m /\ p * m + q * m <= m /\
  0 <= m - p * m - q * m.
Proof.
  intros P Q0 PQ M.
  assert (0 <= p * m) by (apply Qmult_le_0_compat; assumption).
  assert (0 <= q * m) by (apply Qmult_le_0_compat; assumption).
  assert (0 <= (1 - p - q) * m) by (apply Qmult_le_0_compat; lra).
  repeat split; lra.
Qed.



Section Renderers.

Context {M : MathLib}.



End Renderers.



(** ** Rotations modulo a full turn *)

(** The reduction [((r % 360) + 360) % 360] is [r] less the whole turns
    below it. *)
Lemma normalized_floor (r : Q) :
  JS.rem (JS.rem r 360 + 360) 360 == r - 360 * inject_Z (Qfloor (r / 360)).
Proof.
  pose proof (normalized_range r) as N. revert N. unfold JS.rem.
  set (t1 := JS.trunc (r / 360)).
  set (t2 := JS.trunc ((r - 360 * inject_Z t1 + 360) / 360)).
  intro N.
  assert (D : r == 360 * (r / 360)) by (field; discriminate).
  assert (F : Qfloor (r / 360) = (t1 + t2 - 1)%Z).
  { apply Qfloor_unique.
    - unfold Z.sub. rewrite !inject_Z_plus, inject_Z_opp.
      change (inject_Z 1) with 1.
      set (u := r / 360) in *. clearbody u t1 t2. lra.
    - replace (t1 + t2 - 1 + 1)%Z with (t1 + t2)%Z by lia.
      rewrite inject_Z_plus.
      set (u := r / 360) in *. clearbody u t1 t2. lra. }
  rewrite F. unfold Z.sub. rewrite !inject_Z_plus, inject_Z_opp.
  change (inject_Z 1) with 1. ring.
Qed.

Lemma Qfloor_shift (q : Q) (k : Z) :
  Qfloor (q + inject_Z k) = (Qfloor q + k)%Z.
Proof.
  apply Qfloor_unique.
  - rewrite inject_Z_plus. pose proof (Qfloor_le q). lra.
  - replace (Qfloor q + k + 1)%Z with ((Qfloor q + 1) + k)%Z by lia.
    rewrite inject_Z_plus. pose proof (Qlt_floor q). lra.
Qed.

Lemma normalized_periodic (r : Q) (k : Z) :
  JS.rem (JS.rem (r + 360 * inject_Z k) 360 + 360) 360
  == JS.rem (JS.rem r 360 + 360) 360.
Proof.
  rewrite !normalized_floor.
  assert (E : (r + 360 * inject_Z k) / 360 == r / 360 + inject_Z k)
    by (field; discriminate).
  rewrite (Qfloor_comp _ _ E), Qfloor_shift, inject_Z_plus. ring.
Qed.

Lemma normalized_idempotent (r : Q) :
  JS.rem (JS.rem (JS.rem (JS.rem r 360 + 360) 360) 360 + 360) 360
  == JS.rem (JS.rem r 360 + 360) 360.
Proof.
  pose proof (normalized_range r) as N.
  set (n := JS.rem (JS.rem r 360 + 360) 360) in *. clearbody n.
  assert (S : JS.rem n 360 == n) by (apply rem_360_small; lra).
  rewrite (rem_comp (JS.rem n 360 + 360) (n + 360)) by (rewrite S; reflexivity).
  rewrite rem_360_wrap by lra. ring.
Qed.

(** X1: [normalizeRotation] returns the rotation less its whole turns: a
    value in [0, 360) that differs from the rotation by 360 times the
    integer part (floor) of rotation / 360. *)
Theorem normalizeRotation_is_remainder :
  forall r : Q,
    0 <= Geometry.normalizeRotation r < 360 /\
    Geometry.normalizeRotation r == r - 360 * inject_Z (Qfloor (r / 360)).
Proof.
  intro r. unfold Geometry.normalizeRotation.
  split; [apply normalized_range | apply normalized_floor].
Qed.

(** X2: [normalizeRotation] ignores whole turns added to the rotation, and
    normalizing twice is normalizing once. *)
Theorem normalizeRotation_periodic_idempotent :
  forall (r : Q) (k : Z),
    Geometry.normalizeRotation (r + 360 * inject_Z k)
      == Geometry.normalizeRotation r /\
    Geometry.normalizeRotation (Geometry.normalizeRotation r)
      == Geometry.normalizeRotation r.
Proof.
  intros r k. unfold Geometry.normalizeRotation.
  split; [apply normalized_periodic | apply normalized_idempotent].
Qed.

(** X3: [isRotated90or270] holds exactly of the odd multiples of 90, in
    either direction and over any number of turns. *)
Theorem isRotated90or270_odd_quarter :
  forall r : Q,
    Geometry.isRotated90or270 r = true <->
    exists k : Z, r == 90 + 180 * inject_Z k.
Proof.
  intro r. unfold Geometry.isRotated90or270, Geometry.normalizeRotation.
  cbv zeta. rewrite orb_true_iff, !eqb_true. split.
  - pose proof (normalized_floor r) as F.
    set (n := JS.rem (JS.rem r 360 + 360) 360) in *. clearbody n.
    set (z := Qfloor (r / 360)) in *. clearbody z.
    intros [E | E].
    + exists (2 * z)%Z. rewrite inject_Z_mult.
      change (inject_Z 2) with 2. lra.
    + exists (2 * z + 1)%Z. rewrite inject_Z_plus, inject_Z_mult.
      change (inject_Z 2) with 2. change (inject_Z 1) with 1. lra.
  - intros [k E].
    destruct (Z.Even_or_Odd k) as [[j ->] | [j ->]].
    + left.
      assert (R : r == 90 + 360 * inject_Z j)
        by (rewrite E, inject_Z_mult; change (inject_Z 2) with 2; ring).
      rewrite (rem_comp _ (JS.rem (90 + 360 * inject_Z j) 360 + 360))
        by (apply Qplus_comp; [apply rem_comp; exact R | reflexivity]).
      rewrite normalized_periodic. reflexivity.
    + right.
      assert (R : r == 270 + 360 * inject_Z j).
      { rewrite E, inject_Z_plus, inject_Z_mult.
        change (inject_Z 2) with 2. change (inject_Z 1) with 1. ring. }
      rewrite (rem_comp _ (JS.rem (270 + 360 * inject_Z j) 360 + 360))
        by (apply Qplus_comp; [apply rem_comp; exact R | reflexivity]).
      rewrite normalized_periodic. reflexivity.
Qed.

(** ** The auto-fit scale *)

(** The smaller of the two target-to-content ratios, less the margin: the
    content fits both ways, and exactly one way. *)
Lemma fit_min (cw ch tw th : Q) :
  0 < cw -> 0 < ch ->
  let s := JS.min (tw / cw) (th / ch) * 0.90 in
  cw * s <= 0.90 * tw /\ ch * s <= 0.90 * th /\
  (cw * s == 0.90 * tw \/ ch * s == 0.90 * th).
Proof.
  intros CW CH. cbv zeta.
  assert (U : cw * (tw / cw) == tw) by (field; lra).
  assert (V : ch * (th / ch) == th) by (field; lra).
  set (u := tw / cw) in *. set (v := th / ch) in *. clearbody u v.
  unfold JS.min. split_test.
  - assert (ch * u <= ch * v) by (apply Qmult_le_l; assumption).
    repeat split; lra.
  - assert (cw * v <= cw * u) by (apply Qmult_le_l; [assumption|lra]).
    repeat split; lra.
Qed.

(** [calculateScaleToFit] by the test of [isRotated90or270]. *)
Lemma calculateScaleToFit_by_content
  (sourceWidth sourceHeight targetWidth targetHeight rotation : Q) :
  Geometry.calculateScaleToFit
    sourceWidth sourceHeight targetWidth targetHeight rotation =
  if Geometry.isRotated90or270 rotation
  then JS.min (targetWidth / sourceHeight) (targetHeight / sourceWidth) * 0.90
  else JS.min (targetWidth / sourceWidth) (targetHeight / sourceHeight) * 0.90.
Proof. reflexivity. Qed.

(** X4: for a source of positive size, [calculateScaleToFit] returns a scale
    at which the content, with width and height exchanged when the rotation
    is an odd multiple of 90, takes at most 90% of the target's width and of
    its height, and exactly 90% of one of them. *)
Theorem calculateScaleToFit_fits :
  forall sourceWidth sourceHeight targetWidth targetHeight rotation : Q,
    0 < sourceWidth -> 0 < sourceHeight ->
    let s :=
      Geometry.calculateScaleToFit
        sourceWidth sourceHeight targetWidth targetHeight rotation in
    let cw :=
      if Geometry.isRotated90or270 rotation then sourceHeight else sourceWidth in
    let ch :=
      if Geometry.isRotated90or270 rotation then sourceWidth else sourceHeight in
    cw * s <= 0.90 * targetWidth /\ ch * s <= 0.90 * targetHeight /\
    (cw * s == 0.90 * targetWidth \/ ch * s == 0.90 * targetHeight).
Proof.
  intros sw sh tw th r SW SH. cbv zeta.
  rewrite calculateScaleToFit_by_content.
  destruct (Geometry.isRotated90or270 r).
  - apply (fit_min sh sw tw th SH SW).
  - apply (fit_min sw sh tw th SW SH).
Qed.

Lemma calculateScaleToFit_fits_witness :
  595 * Geometry.calculateScaleToFit 842 595 595 842 90 <= 0.90 * 595 /\
  842 * Geometry.calculateScaleToFit 842 595 595 842 90 <= 0.90 * 842 /\
  (595 * Geometry.calculateScaleToFit 842 595 595 842 90 == 0.90 * 595 \/
   842 * Geometry.calculateScaleToFit 842 595 595 842 90 == 0.90 * 842).
Proof.
  apply (calculateScaleToFit_fits 842 595 595 842 90); reflexivity.
Defined.

Section BuilderFit.

Context {M : MathLib}.

(** X5: when the rotation is not zero and the source rectangle has a
    positive size, [buildGeometricTransform] takes its [scaleToFit] from the
    rule of [calculateScaleToFit] applied to the source rectangle, and the
    drawn rectangle, with its sides exchanged at an odd multiple of 90, stays
    within 90% of the target times the user scale. *)
Theorem buildGeometricTransform_fits :
  forall (orig target : Dimensions) (h : EditHistory),
    let g := value (buildGeometricTransform orig target (Some h)) in
    let r := JS.default (rotation h) 0 in
    let s := JS.default (scale h) 100 in
    ~ r == 0 ->
    0 < rectWidth (sourceRect g) -> 0 < rectHeight (sourceRect g) ->
    0 <= s ->
    scaleToFit g =
      Geometry.calculateScaleToFit
        (rectWidth (sourceRect g)) (rectHeight (sourceRect g))
        (dimWidth target) (dimHeight target) r /\
    (if Geometry.isRotated90or270 r then drawHeight g else drawWidth g)
      <= 0.90 * dimWidth target * (s / 100) /\
    (if Geometry.isRotated90or270 r then drawWidth g else drawHeight g)
      <= 0.90 * dimHeight target * (s / 100).
Proof.
  intros orig target h g r s NZ PW PH PS.
  destruct (buildGeometricTransform_fields orig target (Some h))
    as (F1 & F2 & F3 & F4).
  fold g r s in F1, F2, F3, F4.
  apply neqb_true in NZ. rewrite NZ in F1.
  assert (Fit : scaleToFit g =
                Geometry.calculateScaleToFit
                  (rectWidth (sourceRect g)) (rectHeight (sourceRect g))
                  (dimWidth target) (dimHeight target) r)
    by (rewrite F1; reflexivity).
  split; [exact Fit|].
  assert (C : (if Geometry.isRotated90or270 r
               then rectHeight (sourceRect g) else rectWidth (sourceRect g))
              * scaleToFit g <= 0.90 * dimWidth target /\
              (if Geometry.isRotated90or270 r
               then rectWidth (sourceRect g) else rectHeight (sourceRect g))
              * scaleToFit g <= 0.90 * dimHeight target).
  { rewrite Fit, calculateScaleToFit_by_content.
    destruct (Geometry.isRotated90or270 r).
    - split; apply (fit_min _ _ _ _ PH PW).
    - split; apply (fit_min _ _ _ _ PW PH). }
  rewrite F3, F4, F2.
  assert (K : 0 <= s / 100).
  { assert (D : s == 100 * (s / 100)) by (field; discriminate).
    set (k := s / 100) in *. clearbody k. lra. }
  set (k := s / 100) in *. clearbody k.
  set (w := rectWidth (sourceRect g)) in *.
  set (e := rectHeight (sourceRect g)) in *.
  set (f := scaleToFit g) in *. clearbody w e f.
  destruct (Geometry.isRotated90or270 r); destruct C as (C1 & C2).
  - assert ((e * f) * k <= (0.90 * dimWidth target) * k)
      by (apply Qmult_le_compat_r; assumption).
    assert ((w * f) * k <= (0.90 * dimHeight target) * k)
      by (apply Qmult_le_compat_r; assumption).
    split; lra.
  - assert ((w * f) * k <= (0.90 * dimWidth target) * k)
      by (apply Qmult_le_compat_r; assumption).
    assert ((e * f) * k <= (0.90 * dimHeight target) * k)
      by (apply Qmult_le_compat_r; assumption).
    split; lra.
Qed.

End BuilderFit.

Lemma buildGeometricTransform_fits_witness :
  let g := value (buildGeometricTransform (M := taylorMath) a4 a4 (Some scenarioA)) in
  drawHeight g <= 0.90 * 595 * (100 / 100) /\
  drawWidth g <= 0.90 * 842 * (100 / 100).
Proof.
  cbv zeta.
  destruct (buildGeometricTransform_fits (M := taylorMath) a4 a4 scenarioA)
    as (_ & W & H).
  - discriminate.
  - unfold Qlt. vm_compute. reflexivity.
  - unfold Qlt. vm_compute. reflexivity.
  - discriminate.
  - split; [exact W | exact H].
Defined.

(** ** More on the rotation-space mapper *)

Lemma rotationCase_periodic (r : Q) (k : Z) :
  rotationCase (r + 360 * inject_Z k) = rotationCase r.
Proof.
  unfold rotationCase. f_equal. apply round_comp.
  apply Qmult_comp; [|reflexivity]. apply normalized_periodic.
Qed.

(** X6: both mappers, and the remap between two rotations, keep an
    in-bounds crop inside the unit page and keep its area, at every
    rotation. *)
Theorem mappers_keep_crop_inside :
  forall (crop : CropArea) (r1 r2 : Q),
    in_bounds crop ->
    let inside_same_area (n : CropArea) :=
      in_bounds n /\
      cropWidth n * cropHeight n == cropWidth crop * cropHeight crop in
    inside_same_area (value (remapCropForRotation crop r1)) /\
    inside_same_area (value (forwardMapCropToRotation crop r1)) /\
    inside_same_area (value (remapCropBetweenRotations crop r1 r2)).
Proof.
  intros crop r1 r2 (X0 & Y0 & W0 & H0 & XW & YH). cbv zeta.
  rewrite remapCropBetweenRotations_value.
  rewrite (forwardMapCropToRotation_by_case _ r2).
  rewrite (forwardMapCropToRotation_by_case _ r1).
  rewrite (remapCropForRotation_by_case _ r1).
  destruct (rotationCase_cases r1) as [E | [E | [E | [E | E]]]];
    destruct (rotationCase_cases r2) as [F | [F | [F | [F | F]]]];
    cbv zeta; rewrite E, F; unfold in_bounds; simpl;
    repeat split; try lra; ring.
Qed.

Lemma mappers_keep_crop_inside_witness :
  in_bounds (value (remapCropBetweenRotations sampleCrop 90 180)).
Proof.
  destruct (mappers_keep_crop_inside sampleCrop 90 180) as (_ & _ & In & _).
  - unfold in_bounds, sampleCrop. simpl. repeat split; discriminate.
  - exact In.
Defined.

(** X7: remaps compose: going from the first rotation's space to the
    second's and on to the third's is going from the first's to the third's,
    and a remap from a rotation to itself changes nothing. *)
Theorem remapCropBetweenRotations_composes :
  forall (crop : CropArea) (r1 r2 r3 : Q),
    crop_eq
      (value (remapCropBetweenRotations
                (value (remapCropBetweenRotations crop r1 r2)) r2 r3))
      (value (remapCropBetweenRotations crop r1 r3)) /\
    crop_eq (value (remapCropBetweenRotations crop r1 r1)) crop.
Proof.
  intros crop r1 r2 r3. rewrite !remapCropBetweenRotations_value. split.
  - apply forwardMapCropToRotation_crop_comp. apply remap_after_forward.
  - apply forward_after_remap.
Qed.

(** X8: the mappers take the rotation modulo a full turn: adding whole
    turns changes neither the result nor the console. *)
Theorem mappers_periodic :
  forall (crop : CropArea) (r : Q) (k : Z),
    remapCropForRotation crop (r + 360 * inject_Z k)
      = remapCropForRotation crop r /\
    forwardMapCropToRotation crop (r + 360 * inject_Z k)
      = forwardMapCropToRotation crop r.
Proof.
  intros crop r k.
  rewrite !remapCropForRotation_by_case, !forwardMapCropToRotation_by_case.
  rewrite rotationCase_periodic. split; reflexivity.
Qed.

(** X9: at the rotations 0, 90, 180 and 270, mapping forward into a
    rotation's space is mapping back from the opposite rotation's:
    [forwardMapCropToRotation] at r is [remapCropForRotation] at 360 - r. *)
Theorem forward_is_remap_of_opposite :
  forall (crop : CropArea) (r : Q),
    quarter_turn r ->
    forwardMapCropToRotation crop r = remapCropForRotation crop (360 - r).
Proof.
  intros crop r [E | [E | [E | E]]].
  - rewrite (forwardMapCropToRotation_comp crop r 0 E).
    rewrite (remapCropForRotation_comp crop (360 - r) 360)
      by (rewrite E; reflexivity).
    reflexivity.
  - rewrite (forwardMapCropToRotation_comp crop r 90 E).
    rewrite (remapCropForRotation_comp crop (360 - r) 270)
      by (rewrite E; reflexivity).
    reflexivity.
  - rewrite (forwardMapCropToRotation_comp crop r 180 E).
    rewrite (remapCropForRotation_comp crop (360 - r) 180)
      by (rewrite E; reflexivity).
    reflexivity.
  - rewrite (forwardMapCropToRotation_comp crop r 270 E).
    rewrite (remapCropForRotation_comp crop (360 - r) 90)
      by (rewrite E; reflexivity).
    reflexivity.
Qed.

Lemma forward_is_remap_of_opposite_witness :
  forwardMapCropToRotation sampleCrop 90 = remapCropForRotation sampleCrop (360 - 90).
Proof.
  apply (forward_is_remap_of_opposite sampleCrop 90).
  unfold quarter_turn. right. left. reflexivity.
Defined.

(** ** The facade: normalizer, then builder *)

Lemma remapCropForRotation_in_bounds (crop : CropArea) (r : Q) :
  in_bounds crop -> in_bounds (value (remapCropForRotation crop r)).
Proof.
  intros (X0 & Y0 & W0 & H0 & XW & YH).
  rewrite remapCropForRotation_by_case.
  destruct (rotationCase_cases r) as [E | [E | [E | [E | E]]]];
    cbv zeta; rewrite E; unfold in_bounds; simpl; repeat split; lra.
Qed.

Lemma forwardMapCropToRotation_in_bounds (crop : CropArea) (r : Q) :
  in_bounds crop -> in_bounds (value (forwardMapCropToRotation crop r)).
Proof.
  intros (X0 & Y0 & W0 & H0 & XW & YH).
  rewrite forwardMapCropToRotation_by_case.
  destruct (rotationCase_cases r) as [E | [E | [E | [E | E]]]];
    cbv zeta; rewrite E; unfold in_bounds; simpl; repeat split; lra.
Qed.

Lemma scaled_crop_inside (dims : Dimensions) (crop : CropArea) :
  0 <= dimWidth dims -> 0 <= dimHeight dims -> in_bounds crop ->
  rect_inside dims
    {| rectX := cropX crop * dimWidth dims;
       rectY := cropY crop * dimHeight dims;
       rectWidth := cropWidth crop * dimWidth dims;
       rectHeight := cropHeight crop * dimHeight dims |}.
Proof.
  intros W H (X0 & Y0 & W0 & H0 & XW & YH).
  destruct (fraction_inside _ _ _ X0 W0 XW W) as (? & ? & ? & ?).
  destruct (fraction_inside _ _ _ Y0 H0 YH H) as (? & ? & ? & ?).
  unfold rect_inside. cbn [rectX rectY rectWidth rectHeight].
  repeat split; assumption.
Qed.

Section Facade.

Context {M : MathLib}.

(** X10: whatever the edit, given or absent, and whatever the target, the
    source rectangle of [buildCanonicalTransform] lies inside the original
    page: the normalizer's crop, mapped back through the rotation and scaled
    to the page, never samples outside it. *)
Theorem buildCanonicalTransform_samples_inside :
  forall (orig target : Dimensions) (h : option EditHistory),
    0 <= dimWidth orig -> 0 <= dimHeight orig ->
    rect_inside orig
      (sourceRect (transform (value (buildCanonicalTransform orig target h)))).
Proof.
  intros orig target h W H.
  rewrite buildCanonicalTransform_transform.
  rewrite buildGeometricTransform_sourceRect. cbv zeta.
  assert (Full : rect_inside orig
                   {| rectX := 0; rectY := 0;
                      rectWidth := dimWidth orig; rectHeight := dimHeight orig |}).
  { unfold rect_inside. cbn [rectX rectY rectWidth rectHeight].
    repeat split; lra. }
  destruct h as [e|]; [|exact Full].
  rewrite normalizeEditHistory_value. cbn [cropArea rotation JS.default].
  destruct (cropArea e) as [c|]; cbn [option_map]; [|exact Full].
  pose proof (normalizedCropOf_inside c) as In. cbv zeta in In.
  assert (In0 : in_bounds (normalizedCropOf c))
    by (unfold in_bounds; repeat split; lra).
  apply scaled_crop_inside; try assumption.
  destruct (_ <>? 0); [|exact In0].
  apply remapCropForRotation_in_bounds. exact In0.
Qed.

End Facade.

Lemma buildCanonicalTransform_samples_inside_witness :
  rect_inside a4
    (sourceRect
       (transform
          (value (buildCanonicalTransform (M := taylorMath) a4 a4
                    (Some (cropAt sampleCrop 90)))))).
Proof.
  apply buildCanonicalTransform_samples_inside; discriminate.
Defined.

(** ** More on the normalizer *)

(** X11: the normalizer returns an edit in normal form as it is, field by
    field. *)
Theorem normalizeEditHistory_fixes_normal_edits :
  forall (dims : Dimensions) (h : EditHistory),
    edit_normal dims h ->
    edit_eq (value (normalizeEditHistory dims (Some h))) h.
Proof.
  intros dims h (C & (r & k & R & Rk & K) & (s & S & Sb) & (ox & X & Xb)
                 & (oy & Y & Yb)).
  rewrite normalizeEditHistory_value. unfold edit_eq.
  cbn [cropArea rotation scale offsetX offsetY].
  rewrite R, S, X, Y. cbn [opt_eq].
  split; [|split; [|split; [|split]]].
  - destruct (cropArea h) as [crop|]; cbn [option_map opt_eq]; [|exact I].
    destruct C as (? & ? & ? & ? & ? & ?).
    apply normalizedCropOf_fixed; assumption.
  - assert (E : JS.or_else (Some r) 0 == inject_Z k / 10)
      by (rewrite or_else_zero; exact Rk).
    rewrite (normalizedRotationOf_comp _ _ E).
    rewrite normalizedRotationOf_fixed by exact K.
    symmetry. exact Rk.
  - rewrite or_else_nonzero by lra.
    rewrite normalizedScaleOf_fixed by lra. reflexivity.
  - rewrite (normalizedOffsetOf_comp _ _ _ (or_else_zero ox)).
    rewrite normalizedOffsetOf_fixed by exact Xb. reflexivity.
  - rewrite (normalizedOffsetOf_comp _ _ _ (or_else_zero oy)).
    rewrite normalizedOffsetOf_fixed by exact Yb. reflexivity.
Qed.

Lemma normalizeEditHistory_fixes_normal_edits_witness :
  edit_eq (value (normalizeEditHistory a4 (Some (cropAt sampleCrop 90))))
          (cropAt sampleCrop 90).
Proof.
  apply normalizeEditHistory_fixes_normal_edits.
  unfold edit_normal, cropAt, crop_normal, sampleCrop, a4.
  cbn [cropArea rotation scale offsetX offsetY cropX cropY cropWidth cropHeight
       dimWidth dimHeight].
  split; [repeat split; discriminate|].
  split; [exists 90, 900%Z; repeat split; try reflexivity; lia|].
  split; [exists 100; repeat split; discriminate|].
  split; exists 0; split; try reflexivity; discriminate.
Defined.

(** X12: the normalizer changes a rotation by whole turns and by the
    rounding to tenths only: the rotation it returns is within 0.05 of the
    given one less some whole number of turns. *)
Theorem normalizeEditHistory_rotation_congruent :
  forall (dims : Dimensions) (h : EditHistory),
    exists (r' : Q) (m : Z),
      rotation (value (normalizeEditHistory dims (Some h))) = Some r' /\
      Qabs (r' - (JS.or_else (rotation h) 0 - 360 * inject_Z m)) <= 0.05.
Proof.
  intros dims h. rewrite normalizeEditHistory_value. cbn [rotation].
  set (r := JS.or_else (rotation h) 0). clearbody r.
  unfold normalizedRotationOf. cbv zeta.
  pose proof (normalized_floor r) as F.
  set (n := JS.rem (JS.rem r 360 + 360) 360) in *. clearbody n.
  set (z := Qfloor (r / 360)) in *. clearbody z.
  destruct (n >? 180) eqn:T.
  - eexists. exists (z + 1)%Z. split; [reflexivity|].
    pose proof (round_spec ((n - 360) * 10)) as R.
    assert (D : JS.round ((n - 360) * 10)
                == 10 * (JS.round ((n - 360) * 10) / 10))
      by (field; discriminate).
    set (u := JS.round ((n - 360) * 10) / 10) in *. clearbody u.
    rewrite inject_Z_plus. change (inject_Z 1) with 1.
    apply Qabs_Qle_condition. lra.
  - eexists. exists z. split; [reflexivity|].
    pose proof (round_spec (n * 10)) as R.
    assert (D : JS.round (n * 10) == 10 * (JS.round (n * 10) / 10))
      by (field; discriminate).
    set (u := JS.round (n * 10) / 10) in *. clearbody u.
    apply Qabs_Qle_condition. lra.
Qed.

Lemma written_ret {A : Type} (v : A) : written (ret v) = [].
Proof. reflexivity. Qed.

(** X13: the normalizer keeps the size of a crop, clamped into [0.01, 1],
    and only moves it: a crop that passes the right or bottom edge is
    pulled back to end at the edge.  Its fallbacks to full width, to full
    height and to the full page are never taken, and their messages are
    never written. *)
Theorem normalizeEditHistory_moves_crop_only :
  forall (dims : Dimensions) (h : EditHistory) (crop : CropArea),
    cropArea h = Some crop ->
    let w := JS.max 0.01 (JS.max 0 (JS.min 1 (cropWidth crop))) in
    let e := JS.max 0.01 (JS.max 0 (JS.min 1 (cropHeight crop))) in
    let x := JS.max 0 (JS.min 1 (cropX crop)) in
    let y := JS.max 0 (JS.min 1 (cropY crop)) in
    cropArea (value (normalizeEditHistory dims (Some h))) =
      Some {| cropX := if x + w >? 1 then 1 - w else x;
              cropY := if y + e >? 1 then 1 - e else y;
              cropWidth := w; cropHeight := e |} /\
    forall d : Diagnostic,
      In d (written (normalizeEditHistory dims (Some h))) ->
      d <> WarnCropTooWide /\ d <> WarnCropTooTall /\
      forall p q u v, d <> ErrorInvalidCrop p q u v.
Proof.
  intros dims h crop C.
  pose proof (size_clamp_bounds (cropWidth crop)) as BW.
  pose proof (size_clamp_bounds (cropHeight crop)) as BH.
  assert (BX : 0 <= JS.max 0 (JS.min 1 (cropX crop)) <= 1)
    by (apply clamp_bounds; lra).
  assert (BY : 0 <= JS.max 0 (JS.min 1 (cropY crop)) <= 1)
    by (apply clamp_bounds; lra).
  cbv zeta. split.
  - rewrite normalizeEditHistory_value. cbn [cropArea]. rewrite C.
    cbn [option_map]. unfold normalizedCropOf. cbv zeta.
    set (w := JS.max 0.01 (JS.max 0 (JS.min 1 (cropWidth crop)))) in *.
    set (e := JS.max 0.01 (JS.max 0 (JS.min 1 (cropHeight crop)))) in *.
    set (x := JS.max 0 (JS.min 1 (cropX crop))) in *.
    set (y := JS.max 0 (JS.min 1 (cropY crop))) in *.
    clearbody w e x y.
    destruct (x + w >? 1) eqn:T1; destruct (y + e >? 1) eqn:T2;
      try reflect_test T1; try reflect_test T2;
      repeat (split_test; cbv beta iota; try lra);
      try reflexivity;
      match goal with
      | T : _ = true |- _ => split_orb T; lra
      end.
  - unfold normalizeEditHistory. rewrite C. cbv zeta.
    set (w := JS.max 0.01 (JS.max 0 (JS.min 1 (cropWidth crop)))) in *.
    set (e := JS.max 0.01 (JS.max 0 (JS.min 1 (cropHeight crop)))) in *.
    set (x := JS.max 0 (JS.min 1 (cropX crop))) in *.
    set (y := JS.max 0 (JS.min 1 (cropY crop))) in *.
    clearbody w e x y.
    intro d. unfold written, bind, ret, emit.
    repeat (cbn [fst snd app]; cbv beta iota zeta; try split_test; try lra);
      try (match goal with
           | T : _ || _ = true |- _ => split_orb T; lra
           end);
      intro D; cbn [In] in D;
      repeat (destruct D as [D | D]; [subst d; repeat split; discriminate|]);
      contradiction.
Qed.

Lemma normalizeEditHistory_moves_crop_only_witness :
  cropArea (value (normalizeEditHistory a4
                     (Some (cropAt (mkCropArea 0.9 0.9 0.3 0.3) 0)))) =
    Some (mkCropArea (1 - JS.max 0.01 (JS.max 0 (JS.min 1 0.3)))
                     (1 - JS.max 0.01 (JS.max 0 (JS.min 1 0.3)))
                     (JS.max 0.01 (JS.max 0 (JS.min 1 0.3)))
                     (JS.max 0.01 (JS.max 0 (JS.min 1 0.3)))).
Proof.
  exact (proj1 (normalizeEditHistory_moves_crop_only
                  a4 (cropAt (mkCropArea 0.9 0.9 0.3 0.3) 0)
                  (mkCropArea 0.9 0.9 0.3 0.3) eq_refl)).
Defined.

(** X14: normalizing an edit that is in normal form writes nothing to the
    console. *)
Theorem normalizeEditHistory_silent_on_normal_edits :
  forall (dims : Dimensions) (h : EditHistory),
    edit_normal dims h ->
    written (normalizeEditHistory dims (Some h)) = [].
Proof.
  intros dims h (C & (r & k & R & Rk & K) & (s & S & Sb) & (ox & X & Xb)
                 & (oy & Y & Yb)).
  unfold normalizeEditHistory. rewrite R, S, X, Y.
  rewrite (or_else_nonzero s 100) by lra.
  assert (AX : JS.abs (JS.or_else (Some ox) 0) <= dimWidth dims * 0.5)
    by (unfold JS.abs; rewrite (Qabs_wd _ _ (or_else_zero ox)); exact Xb).
  assert (AY : JS.abs (JS.or_else (Some oy) 0) <= dimHeight dims * 0.5)
    by (unfold JS.abs; rewrite (Qabs_wd _ _ (or_else_zero oy)); exact Yb).
  set (ax := JS.abs (JS.or_else (Some ox) 0)) in *.
  set (ay := JS.abs (JS.or_else (Some oy) 0)) in *.
  clearbody ax ay.
  destruct (cropArea h) as [crop|].
  - destruct C as (X0 & Y0 & W0 & H0 & XW & YH).
    pose proof (size_clamp_fixed (cropWidth crop) W0) as BW.
    pose proof (size_clamp_fixed (cropHeight crop) H0) as BH.
    assert (BX : JS.max 0 (JS.min 1 (cropX crop)) == cropX crop)
      by (apply clamp_fixed; lra).
    assert (BY : JS.max 0 (JS.min 1 (cropY crop)) == cropY crop)
      by (apply clamp_fixed; lra).
    cbv zeta.
    set (w := JS.max 0.01 (JS.max 0 (JS.min 1 (cropWidth crop)))) in *.
    set (e := JS.max 0.01 (JS.max 0 (JS.min 1 (cropHeight crop)))) in *.
    set (x := JS.max 0 (JS.min 1 (cropX crop))) in *.
    set (y := JS.max 0 (JS.min 1 (cropY crop))) in *.
    clearbody w e x y.
    unfold written, bind, ret, emit.
    repeat (cbn [fst snd app]; cbv beta iota zeta; try split_test; try lra);
      try (match goal with
           | T : _ || _ = true |- _ => split_orb T; lra
           end);
      reflexivity.
  - cbv zeta. unfold written, bind, ret, emit.
    repeat (cbn [fst snd app]; cbv beta iota zeta; try split_test; try lra);
      reflexivity.
Qed.

Lemma normalizeEditHistory_silent_on_normal_edits_witness :
  written (normalizeEditHistory a4 (Some (cropAt sampleCrop 90))) = [].
Proof.
  apply normalizeEditHistory_silent_on_normal_edits.
  unfold edit_normal, cropAt, crop_normal, sampleCrop, a4.
  cbn [cropArea rotation scale offsetX offsetY cropX cropY cropWidth cropHeight
       dimWidth dimHeight].
  split; [repeat split; discriminate|].
  split; [exists 90, 900%Z; repeat split; try reflexivity; lia|].
  split; [exists 100; repeat split; discriminate|].
  split; exists 0; split; try reflexivity; discriminate.
Defined.

(** ** The affine matrix against the absolute draw position *)


Section MatrixAndPosition.

Context {M : MathLib}.




End MatrixAndPosition.




(** ** More on the canvas renderer adapter *)

Lemma clampRect_samplable (x y w h maxW maxH : Q) :
  1 <= maxW -> 1 <= maxH ->
  rect_samplable maxW maxH (clampRect x y w h maxW maxH).
Proof.
  intros W H. unfold rect_samplable, clampRect. cbv zeta.
  cbn [rectX rectY rectWidth rectHeight].
  assert (CX : 0 <= JS.max 0 (JS.min x (maxW - 1)) <= maxW - 1).
  { destruct (min_spec x (maxW - 1)) as [[? ->]|[? ->]];
      [destruct (max_spec 0 x) as [[? ->]|[? ->]]
      |destruct (max_spec 0 (maxW - 1)) as [[? ->]|[? ->]]]; lra. }
  assert (CY : 0 <= JS.max 0 (JS.min y (maxH - 1)) <= maxH - 1).
  { destruct (min_spec y (maxH - 1)) as [[? ->]|[? ->]];
      [destruct (max_spec 0 y) as [[? ->]|[? ->]]
      |destruct (max_spec 0 (maxH - 1)) as [[? ->]|[? ->]]]; lra. }
  set (cx := JS.max 0 (JS.min x (maxW - 1))) in *.
  set (cy := JS.max 0 (JS.min y (maxH - 1))) in *.
  clearbody cx cy.
  destruct (min_spec w (maxW - cx)) as [[? ->]|[? ->]];
    destruct (min_spec h (maxH - cy)) as [[? ->]|[? ->]];
    match goal with
    | |- context [JS.max 1 ?p] =>
        destruct (max_spec 1 p) as [[? ->]|[? ->]]
    end;
    match goal with
    | |- context [JS.max 1 ?p] =>
        destruct (max_spec 1 p) as [[? ->]|[? ->]]
    end;
    repeat split; lra.
Qed.

(** X16: on an image at least a pixel wide and high, [calculateSourceRect]
    returns, for every crop, in range or not, and every rotation, a
    rectangle the canvas can sample: inside the image and at least a pixel
    wide and high. *)
Theorem calculateSourceRect_samplable :
  forall (crop : CropArea) (rotation origW origH : Q),
    1 <= origW -> 1 <= origH ->
    rect_samplable origW origH
      (calculateSourceRect (Some crop) rotation origW origH).
Proof.
  intros crop rotation origW origH W H. unfold calculateSourceRect.
  cbv zeta.
  repeat split_test; apply clampRect_samplable; assumption.
Qed.

Lemma calculateSourceRect_samplable_witness :
  rect_samplable 595 842
    (calculateSourceRect
       (Some {| cropX := 0.9; cropY := -3; cropWidth := 7; cropHeight := 0 |})
       90 595 842).
Proof.
  apply calculateSourceRect_samplable; discriminate.
Defined.



(** ** The page preview service *)

(** X18: [calculateScale] never exceeds 2, makes a page of positive size
    fit the container both ways, and is as large as these three bounds allow;
    without page dimensions it is 1. *)
Theorem calculateScale_fits_container :
  forall (dims : Dimensions) (containerWidth containerHeight : Q),
    0 < dimWidth dims -> 0 < dimHeight dims ->
    let s :=
      PagePreviewService.calculateScale (Some dims) containerWidth containerHeight in
    s <= 2 /\
    dimWidth dims * s <= containerWidth /\
    dimHeight dims * s <= containerHeight /\
    (s == 2 \/ dimWidth dims * s == containerWidth
     \/ dimHeight dims * s == containerHeight) /\
    PagePreviewService.calculateScale None containerWidth containerHeight = 1.
Proof.
  intros dims cw ch W H. unfold PagePreviewService.calculateScale. cbv zeta.
  assert (U : dimWidth dims * (cw / dimWidth dims) == cw) by (field; lra).
  assert (V : dimHeight dims * (ch / dimHeight dims) == ch) by (field; lra).
  set (u := cw / dimWidth dims) in *. set (v := ch / dimHeight dims) in *.
  clearbody u v.
  set (w := dimWidth dims) in *. set (h := dimHeight dims) in *.
  clearbody w h.
  unfold JS.min. repeat split_test.
  - assert (h * u <= h * v) by (apply Qmult_le_l; assumption).
    repeat split; try reflexivity; lra.
  - assert (h * u <= h * v) by (apply Qmult_le_l; assumption).
    assert (w * 2 <= w * u) by (apply Qmult_le_l; [assumption|lra]).
    assert (h * 2 <= h * u) by (apply Qmult_le_l; [assumption|lra]).
    repeat split; try reflexivity; lra.
  - assert (w * v <= w * u) by (apply Qmult_le_l; [assumption|lra]).
    repeat split; try reflexivity; lra.
  - assert (w * 2 <= w * v) by (apply Qmult_le_l; [assumption|lra]).
    assert (w * v <= w * u) by (apply Qmult_le_l; [assumption|lra]).
    assert (h * 2 <= h * v) by (apply Qmult_le_l; [assumption|lra]).
    repeat split; try reflexivity; lra.
Qed.

Lemma calculateScale_fits_container_witness :
  PagePreviewService.calculateScale (Some a4) 400 400 <= 2 /\
  595 * PagePreviewService.calculateScale (Some a4) 400 400 <= 400 /\
  842 * PagePreviewService.calculateScale (Some a4) 400 400 <= 400.
Proof.
  destruct (calculateScale_fits_container a4 400 400) as (A & B & C & _).
  - reflexivity.
  - reflexivity.
  - repeat split; assumption.
Defined.

(** *** The preview cache *)

Lemma string_app_assoc (p q r : string) :
  ((p ++ q) ++ r = p ++ (q ++ r))%string.
Proof. induction p as [|c p IH]; cbn; [reflexivity | rewrite IH; reflexivity]. Qed.

Lemma prefix_app (p q : string) : String.prefix p (p ++ q) = true.
Proof.
  induction p as [|c p IH]; cbn.
  - destruct q; reflexivity.
  - destruct (Ascii.ascii_dec c c) as [_|N]; [exact IH | contradiction].
Qed.

Lemma includes_app (needle before after : string) :
  PagePreviewService.includes needle (before ++ (needle ++ after)) = true.
Proof.
  induction before as [|c before IH]; cbn [String.append].
  - destruct (needle ++ after)%string eqn:E.
    + cbn [PagePreviewService.includes]. rewrite <- E, prefix_app. reflexivity.
    + cbn [PagePreviewService.includes]. rewrite <- E, prefix_app. reflexivity.
  - cbn [PagePreviewService.includes]. rewrite IH. apply orb_true_r.
Qed.

Lemma decimalWith_enough (fuel : nat) :
  forall fuel' n : nat,
    (n < fuel)%nat -> (n < fuel')%nat ->
    PagePreviewService.decimalWith fuel n = PagePreviewService.decimalWith fuel' n.
Proof.
  induction fuel as [|fuel IH]; intros fuel' n F F'; [lia|].
  destruct fuel' as [|fuel']; [lia|].
  cbn [PagePreviewService.decimalWith].
  destruct (n <? 10)%nat eqn:T; [reflexivity|].
  apply Nat.ltb_ge in T.
  assert (n / 10 < n)%nat by (apply Nat.div_lt; lia).
  rewrite (IH fuel' (n / 10)%nat) by lia. reflexivity.
Qed.

(** The digits of ten times a positive number plus a digit are the number's
    digits and that digit. *)
Lemma decimal_step (p d : nat) :
  (1 <= p)%nat -> (d < 10)%nat ->
  PagePreviewService.decimal (10 * p + d)
  = (PagePreviewService.decimal p ++ PagePreviewService.digit d)%string.
Proof.
  intros P D. unfold PagePreviewService.decimal.
  cbn [PagePreviewService.decimalWith].
  destruct (10 * p + d <? 10)%nat eqn:T; [apply Nat.ltb_lt in T; lia|].
  assert (Q1 : ((10 * p + d) / 10 = p)%nat).
  { rewrite Nat.mul_comm, Nat.div_add_l by lia.
    rewrite (Nat.div_small d 10) by lia. lia. }
  assert (Q2 : ((10 * p + d) mod 10 = d)%nat).
  { rewrite Nat.add_comm, Nat.mul_comm, Nat.Div0.mod_add.
    apply Nat.mod_small. lia. }
  rewrite Q1, Q2.
  rewrite (decimalWith_enough (10 * p + d) (S p) p) by lia. reflexivity.
Qed.

Section CacheFacts.

Variable Canvas : Type.



Lemma set_fresh (cache : PagePreviewService.Cache Canvas) (key : string) (canvas : Canvas) :
  ~ In key (PagePreviewService.keys Canvas cache) ->
  PagePreviewService.set Canvas cache key canvas = cache ++ [(key, canvas)].
Proof.
  induction cache as [|[k v] rest IH]; cbn; intro N; [reflexivity|].
  destruct (String.eqb k key) eqn:E.
  - apply String.eqb_eq in E. exfalso. apply N. left. exact E.
  - rewrite IH; [reflexivity|]. intro I. apply N. right. exact I.
Qed.


Lemma delete_absent (cache : PagePreviewService.Cache Canvas) (key : string) :
  ~ In key (PagePreviewService.keys Canvas cache) ->
  PagePreviewService.delete Canvas cache key = cache.
Proof.
  unfold PagePreviewService.delete.
  induction cache as [|[k v] rest IH]; cbn; intro N; [reflexivity|].
  destruct (String.eqb k key) eqn:E.
  - apply String.eqb_eq in E. exfalso. apply N. left. exact E.
  - cbn. rewrite IH; [reflexivity|]. intro I. apply N. right. exact I.
Qed.


(** X20: when the cache is full, [addToCache] with a new key drops the
    entry that was inserted first and appends the new one, leaving the
    others in their order. *)
Theorem addToCache_evicts_first_inserted :
  forall (limit : nat) (first : string) (canvas0 : Canvas) (rest : PagePreviewService.Cache Canvas)
         (key : string) (canvas : Canvas),
    (1 <= limit)%nat ->
    List.length ((first, canvas0) :: rest) = limit ->
    NoDup (PagePreviewService.keys Canvas ((first, canvas0) :: rest)) ->
    first <> EmptyString ->
    ~ In key (PagePreviewService.keys Canvas ((first, canvas0) :: rest)) ->
    PagePreviewService.previewCache Canvas
      (PagePreviewService.addToCache Canvas
         {| PagePreviewService.previewCache := (first, canvas0) :: rest;
            PagePreviewService.maxCacheSize := limit |} key canvas)
    = rest ++ [(key, canvas)].
Proof.
  intros limit first canvas0 rest key canvas L Full ND NE Fresh.
  unfold PagePreviewService.addToCache.
  cbn [PagePreviewService.maxCacheSize PagePreviewService.previewCache].
  rewrite Full, Nat.leb_refl.
  cbn [PagePreviewService.keys map fst].
  destruct first as [|c first]; [contradiction|].
  unfold PagePreviewService.delete at 1. cbn [filter fst].
  rewrite String.eqb_refl. cbn [negb].
  cbn [PagePreviewService.keys map fst] in ND, Fresh.
  inversion ND as [|? ? NotIn _]; subst.
  pose proof (delete_absent rest (String c first) NotIn) as D.
  unfold PagePreviewService.delete in D. rewrite D.
  apply set_fresh. intro I. apply Fresh. right. exact I.
Qed.

Lemma fold_delete_filter (doomed : list string) :
  forall cache : PagePreviewService.Cache Canvas,
    fold_left (PagePreviewService.delete Canvas) doomed cache
    = filter (fun entry => negb (existsb (String.eqb (fst entry)) doomed)) cache.
Proof.
  induction doomed as [|key doomed IH]; intro cache; cbn [fold_left existsb].
  - cbn [negb]. induction cache as [|e rest IHc]; cbn; [reflexivity|].
    rewrite <- IHc. reflexivity.
  - rewrite IH. unfold PagePreviewService.delete.
    induction cache as [|e rest IHc]; cbn [filter]; [reflexivity|].
    destruct (String.eqb (fst e) key) eqn:E; cbn [negb orb filter].
    + exact IHc.
    + rewrite IHc. reflexivity.
Qed.

Lemma existsb_eqb_filter (f : string -> bool) (key : string) (l : list string) :
  In key l -> existsb (String.eqb key) (filter f l) = f key.
Proof.
  intro I. destruct (f key) eqn:F.
  - apply existsb_exists. exists key. split; [|apply String.eqb_refl].
    apply filter_In. split; assumption.
  - destruct (existsb (String.eqb key) (filter f l)) eqn:E; [|reflexivity].
    apply existsb_exists in E. destruct E as (k & K & EQ).
    apply String.eqb_eq in EQ. subst k.
    apply filter_In in K. destruct K as [_ K]. congruence.
Qed.

(** [clearPageCache] keeps, in their order, the entries whose key does not
    contain the needle. *)
Lemma clearPageCache_filter (self : PagePreviewService.t Canvas) (page : nat) :
  PagePreviewService.previewCache Canvas
    (PagePreviewService.clearPageCache Canvas self page)
  = filter
      (fun entry =>
         negb (PagePreviewService.includes
                 (PagePreviewService.quote ++ "page" ++ PagePreviewService.quote
                  ++ ":" ++ PagePreviewService.decimal page)%string
                 (fst entry)))
      (PagePreviewService.previewCache Canvas self).
Proof.
  unfold PagePreviewService.clearPageCache.
  cbn [PagePreviewService.previewCache]. cbv zeta.
  rewrite fold_delete_filter. apply filter_ext_in.
  intros entry I. f_equal. apply existsb_eqb_filter.
  unfold PagePreviewService.keys. apply in_map. exact I.
Qed.

Lemma get_filter (f : string -> bool) (key : string)
  (cache : PagePreviewService.Cache Canvas) :
  PagePreviewService.get Canvas (filter (fun entry => f (fst entry)) cache) key
  = if f key then PagePreviewService.get Canvas cache key else None.
Proof.
  induction cache as [|[k v] rest IH]; cbn [filter fst PagePreviewService.get].
  - destruct (f key); reflexivity.
  - destruct (String.eqb k key) eqn:E.
    + apply String.eqb_eq in E. subst k.
      destruct (f key) eqn:F.
      * cbn [PagePreviewService.get]. rewrite String.eqb_refl. reflexivity.
      * exact IH.
    + destruct (f k); [cbn [PagePreviewService.get]; rewrite E|]; exact IH.
Qed.

(** X21: after [clearPageCache] of a page, no preview of that page is left,
    whatever its transforms and container size, and every entry whose key
    does not contain the page's needle is still there. *)
Theorem clearPageCache_clears_page :
  forall (self : PagePreviewService.t Canvas) (page : nat),
    let cache' :=
      PagePreviewService.previewCache Canvas
        (PagePreviewService.clearPageCache Canvas self page) in
    (forall (transforms : string) (width height : Q),
       PagePreviewService.get Canvas cache'
         (PagePreviewService.getCacheKey page transforms width height) = None) /\
    (forall key : string,
       PagePreviewService.includes
         (PagePreviewService.quote ++ "page" ++ PagePreviewService.quote
          ++ ":" ++ PagePreviewService.decimal page)%string key = false ->
       PagePreviewService.get Canvas cache' key
       = PagePreviewService.get Canvas
           (PagePreviewService.previewCache Canvas self) key).
Proof.
  intros self page cache'. subst cache'. rewrite clearPageCache_filter.
  split.
  - intros transforms width height.
    rewrite (get_filter
               (fun key =>
                  negb (PagePreviewService.includes
                          (PagePreviewService.quote ++ "page"
                           ++ PagePreviewService.quote ++ ":"
                           ++ PagePreviewService.decimal page)%string key))).
    unfold PagePreviewService.getCacheKey.
    match goal with
    | |- (if negb (PagePreviewService.includes ?n ?k) then _ else _) = _ =>
        replace k with ("{" ++ (n ++ ("," ++ PagePreviewService.quote
                         ++ "transforms" ++ PagePreviewService.quote ++ ":"
                         ++ transforms ++ "," ++ PagePreviewService.quote
                         ++ "width" ++ PagePreviewService.quote ++ ":"
                         ++ PagePreviewService.printInteger
                              (JS.trunc (JS.round width))
                         ++ "," ++ PagePreviewService.quote ++ "height"
                         ++ PagePreviewService.quote ++ ":"
                         ++ PagePreviewService.printInteger
                              (JS.trunc (JS.round height))
                         ++ "}")))%string
    end.
    + rewrite includes_app. reflexivity.
    + cbn [String.append PagePreviewService.quote]. reflexivity.
  - intros key N.
    rewrite (get_filter
               (fun key =>
                  negb (PagePreviewService.includes
                          (PagePreviewService.quote ++ "page"
                           ++ PagePreviewService.quote ++ ":"
                           ++ PagePreviewService.decimal page)%string key))).
    rewrite N. reflexivity.
Qed.

(** X22: [clearPageCache] of a page numbered at least 1 also drops the
    previews of every page whose number is that page's number followed by one
    more digit (clearing page 1 drops pages 10 to 19): their keys contain the
    needle too. *)
Theorem clearPageCache_reaches_longer_numbers :
  forall (self : PagePreviewService.t Canvas) (page d : nat)
         (transforms : string) (width height : Q),
    (1 <= page)%nat -> (d < 10)%nat ->
    PagePreviewService.get Canvas
      (PagePreviewService.previewCache Canvas
         (PagePreviewService.clearPageCache Canvas self page))
      (PagePreviewService.getCacheKey (10 * page + d) transforms width height)
    = None.
Proof.
  intros self page d transforms width height P D.
  rewrite clearPageCache_filter.
  rewrite (get_filter
             (fun key =>
                negb (PagePreviewService.includes
                        (PagePreviewService.quote ++ "page"
                         ++ PagePreviewService.quote ++ ":"
                         ++ PagePreviewService.decimal page)%string key))).
  unfold PagePreviewService.getCacheKey. rewrite (decimal_step page d P D).
  match goal with
  | |- (if negb (PagePreviewService.includes ?n ?k) then _ else _) = _ =>
      replace k with ("{" ++ (n ++ (PagePreviewService.digit d ++ ","
                       ++ PagePreviewService.quote
                       ++ "transforms" ++ PagePreviewService.quote ++ ":"
                       ++ transforms ++ "," ++ PagePreviewService.quote
                       ++ "width" ++ PagePreviewService.quote ++ ":"
                       ++ PagePreviewService.printInteger
                            (JS.trunc (JS.round width))
                       ++ "," ++ PagePreviewService.quote ++ "height"
                       ++ PagePreviewService.quote ++ ":"
                       ++ PagePreviewService.printInteger
                            (JS.trunc (JS.round height))
                       ++ "}")))%string
  end.
  - rewrite includes_app. reflexivity.
  - cbn [String.append PagePreviewService.quote].
    rewrite !string_app_assoc. reflexivity.
Qed.

End CacheFacts.


Lemma addToCache_evicts_first_inserted_witness :
  PagePreviewService.previewCache nat
    (PagePreviewService.addToCache nat
       {| PagePreviewService.previewCache :=
            [("a"%string, 1%nat); ("b"%string, 2%nat)];
          PagePreviewService.maxCacheSize := 2 |} "c"%string 3%nat)
  = [("b"%string, 2%nat)] ++ [("c"%string, 3%nat)].
Proof.
  apply (addToCache_evicts_first_inserted nat 2 "a"%string 1%nat
           [("b"%string, 2%nat)] "c"%string 3%nat).
  - lia.
  - reflexivity.
  - cbn. repeat constructor; cbn; intuition discriminate.
  - discriminate.
  - cbn. intuition discriminate.
Defined.

Lemma clearPageCache_reaches_longer_numbers_witness :
  PagePreviewService.get nat
    (PagePreviewService.previewCache nat
       (PagePreviewService.clearPageCache nat
          (PagePreviewService.addToCache nat (PagePreviewService.create nat)
             (PagePreviewService.getCacheKey 12 "{}" 300 400) 5%nat)
          1))
    (PagePreviewService.getCacheKey (10 * 1 + 2) "{}" 300 400)
  = None.
Proof.
  apply clearPageCache_reaches_longer_numbers; lia.
Defined.

Lemma clearPageCache_clears_page_witness :
  PagePreviewService.get nat
    (PagePreviewService.previewCache nat
       (PagePreviewService.clearPageCache nat
          {| PagePreviewService.previewCache := [("other"%string, 1%nat)];
             PagePreviewService.maxCacheSize := 20 |} 3))
    "other"%string
  = Some 1%nat.
Proof.
  apply (proj2 (clearPageCache_clears_page nat
                  {| PagePreviewService.previewCache := [("other"%string, 1%nat)];
                     PagePreviewService.maxCacheSize := 20 |} 3)).
  reflexivity.
Defined.

(** ** The page orientation *)

Lemma ratio_bounds (w h lo hi : Q) :
  0 < h ->
  (lo < w / h <-> lo * h < w) /\ (w / h < hi <-> w < hi * h).
Proof.
  intro H.
  assert (U : h * (w / h) == w) by (field; lra).
  set (u := w / h) in *. clearbody u.
  split; split; intro L.
  - assert (h * lo < h * u) by (apply Qmult_lt_l; assumption). lra.
  - apply (Qmult_lt_l lo u h H). lra.
  - assert (h * u < h * hi) by (apply Qmult_lt_l; assumption). lra.
  - apply (Qmult_lt_l u hi h H). lra.
Qed.

(** X23: for a page of positive height, [detectPageOrientation] says
    square exactly when the width is strictly within 5% of the height,
    landscape exactly when it is at least 1.05 times the height, and portrait
    exactly when it is at most 0.95 times the height. *)
Theorem detectPageOrientation_thresholds :
  forall width height : Q,
    0 < height ->
    let detected := PageOrientation.detectPageOrientation width height in
    (detected = PageOrientation.square <->
     0.95 * height < width < 1.05 * height) /\
    (detected = PageOrientation.landscape <-> 1.05 * height <= width) /\
    (detected = PageOrientation.portrait <-> width <= 0.95 * height).
Proof.
  intros w h H. unfold PageOrientation.detectPageOrientation. cbv zeta.
  destruct (ratio_bounds w h 0.95 1.05 H) as (Lo & Hi).
  unfold JS.abs. set (u := w / h) in *. clearbody u.
  destruct (Qabs (u - 1) <? 0.05) eqn:T; reflect_test T.
  - apply Qabs_Qlt_condition in T.
    assert (A : 0.95 * h < w) by (apply Lo; lra).
    assert (B : w < 1.05 * h) by (apply Hi; lra).
    split; [|split]; split; intro; try discriminate; try lra.
    split; assumption.
  - assert (N : ~ (0.95 * h < w /\ w < 1.05 * h)).
    { intros [A B]. apply Lo in A. apply Hi in B.
      assert (Qabs (u - 1) < 0.05) by (apply Qabs_Qlt_condition; split; lra).
      lra. }
    destruct (w >? h) eqn:G; reflect_test G.
    + split; [|split]; split; intro K; try discriminate; try reflexivity.
      * contradiction.
      * destruct (Qlt_le_dec w (1.05 * h)); [|assumption].
        exfalso. apply N. split; lra.
      * exfalso. lra.
    + split; [|split]; split; intro K; try discriminate; try reflexivity.
      * contradiction.
      * exfalso. lra.
      * destruct (Qlt_le_dec (0.95 * h) w); [|assumption].
        exfalso. apply N. split; lra.
Qed.

Lemma detectPageOrientation_thresholds_witness :
  PageOrientation.detectPageOrientation 595 842 = PageOrientation.portrait.
Proof.
  apply (proj2 (proj2 (detectPageOrientation_thresholds 595 842 eq_refl))).
  discriminate.
Defined.

(** The test of [detectPageOrientation] without the division. *)
Lemma detectPageOrientation_by_width (w h : Q) :
  0 < h ->
  PageOrientation.detectPageOrientation w h =
  if (0.95 * h <? w) && (w <? 1.05 * h) then PageOrientation.square
  else if w >? h then PageOrientation.landscape
  else PageOrientation.portrait.
Proof.
  intro H. unfold PageOrientation.detectPageOrientation. cbv zeta.
  destruct (ratio_bounds w h 0.95 1.05 H) as (Lo & Hi).
  unfold JS.abs. set (u := w / h) in *. clearbody u.
  destruct (Qabs (u - 1) <? 0.05) eqn:T; reflect_test T.
  - apply Qabs_Qlt_condition in T.
    assert (A : (0.95 * h <? w) = true) by (apply ltb_true, Lo; lra).
    assert (B : (w <? 1.05 * h) = true) by (apply ltb_true, Hi; lra).
    rewrite A, B. reflexivity.
  - destruct ((0.95 * h <? w) && (w <? 1.05 * h)) eqn:K; [|reflexivity].
    apply andb_true_iff in K. destruct K as [A B].
    apply ltb_true, Lo in A. apply ltb_true, Hi in B.
    assert (Qabs (u - 1) < 0.05) by (apply Qabs_Qlt_condition; split; lra).
    lra.
Qed.

(** X24: a portrait page with its sides swapped is a landscape page, and
    a square page with its sides swapped is never portrait; but a landscape
    page with its sides swapped need not be portrait: 1.05 by 1 is landscape
    and 1 by 1.05 is square. *)
Theorem detectPageOrientation_swapped :
  (forall width height : Q,
     0 < width -> 0 < height ->
     PageOrientation.detectPageOrientation width height = PageOrientation.portrait ->
     PageOrientation.detectPageOrientation height width = PageOrientation.landscape) /\
  (forall width height : Q,
     0 < width -> 0 < height ->
     PageOrientation.detectPageOrientation width height = PageOrientation.square ->
     PageOrientation.detectPageOrientation height width <> PageOrientation.portrait) /\
  ~ (forall width height : Q,
       0 < width -> 0 < height ->
       PageOrientation.detectPageOrientation width height = PageOrientation.landscape ->
       PageOrientation.detectPageOrientation height width = PageOrientation.portrait).
Proof.
  split; [|split].
  - intros w h W H. rewrite !detectPageOrientation_by_width by assumption.
    repeat (split_test; try discriminate; try reflexivity);
      repeat match goal with
             | K : _ && _ = true |- _ =>
                 apply andb_true_iff in K; destruct K as [K ?]
             | K : _ && _ = false |- _ =>
                 apply andb_false_iff in K; destruct K as [K | K]
             | K : (_ <? _) = _ |- _ => reflect_test K
             end; intros; try discriminate; try lra.
  - intros w h W H. rewrite !detectPageOrientation_by_width by assumption.
    repeat (split_test; try discriminate; try reflexivity);
      repeat match goal with
             | K : _ && _ = true |- _ =>
                 apply andb_true_iff in K; destruct K as [K ?]
             | K : _ && _ = false |- _ =>
                 apply andb_false_iff in K; destruct K as [K | K]
             | K : (_ <? _) = _ |- _ => reflect_test K
             end; intros; try discriminate; try lra.
  - intro All. specialize (All 1.05 1 eq_refl eq_refl eq_refl). discriminate.
Qed.

Lemma detectPageOrientation_swapped_witness :
  PageOrientation.detectPageOrientation 842 595 = PageOrientation.landscape.
Proof.
  apply (proj1 detectPageOrientation_swapped 595 842); reflexivity.
Defined.

(** ** More on the recipe validator *)

Lemma truthy_number_inv (v : option Q) (n : Q) :
  Recipe.truthy_number v = Some n -> v = Some n /\ ~ n == 0.
Proof.
  unfold Recipe.truthy_number, JS.truthy. destruct v as [a|]; [|discriminate].
  destruct (Qeq_bool a 0) eqn:E; cbn [negb]; [discriminate|].
  intro S. injection S as <-. split; [reflexivity|].
  intro Z. apply Qeq_bool_iff in Z. congruence.
Qed.

Lemma validatePage_sound (page : Recipe.Page) (i : nat) (v : Recipe.Violation) :
  In v (Recipe.validatePage page i) ->
  exists t, Recipe.transforms page = Some t /\ page_justified t (i + 1) v.
Proof.
  unfold Recipe.validatePage.
  destruct (Recipe.transforms page) as [t|]; cbn [Recipe.chain];
    [|intros []].
  intro V. exists t. split; [reflexivity|].
  apply in_app_or in V. destruct V as [V | V].
  - destruct (Recipe.truthy_number (Recipe.rotation t)) as [r|] eqn:R;
      [|destruct V].
    apply truthy_number_inv in R. destruct R as [R NZ].
    destruct (Recipe.includes [0; 90; 180; 270] r) eqn:I; cbn [negb] in V;
      [destruct V|].
    destruct V as [<- | []]. split; [reflexivity|]. split; [exact R|].
    intro Q. apply includes_quarter_turn in Q. congruence.
  - apply in_app_or in V. destruct V as [V | V].
    + destruct (Recipe.truthy_number (Recipe.scale t)) as [s|] eqn:S;
        [|destruct V].
      apply truthy_number_inv in S. destruct S as [S NZ].
      destruct ((s <? 10) || (s >? 500)) eqn:C; [|destruct V].
      destruct V as [<- | []]. split; [reflexivity|]. split; [exact S|].
      split_orb C; lra.
    + destruct (Recipe.crop t) as [crop|] eqn:C; [|destruct V].
      apply in_app_or in V. destruct V as [V | V].
      * destruct ((cropX crop <? 0) || (cropY crop <? 0)
                  || (cropWidth crop <=? 0) || (cropHeight crop <=? 0)) eqn:K;
          [|destruct V].
        destruct V as [<- | []]. split; [reflexivity|].
        exists crop. split; [exact C|]. split_orb K; lra.
      * destruct ((cropX crop + cropWidth crop >? 1.01)
                  || (cropY crop + cropHeight crop >? 1.01)) eqn:K;
          [|destruct V].
        destruct V as [<- | []]. split; [reflexivity|].
        exists crop. split; [exact C|]. split_orb K; lra.
Qed.

Lemma forEachPage_sound (ps : list (option Recipe.Page)) :
  forall (from : nat) (v : Recipe.Violation) (pushed : list Recipe.Violation),
    Recipe.forEachPage ps from = Recipe.Returned pushed ->
    In v pushed ->
    exists (i : nat) (page : Recipe.Page),
      nth_error ps i = Some (Some page) /\
      In v (Recipe.validatePage page (from + i)).
Proof.
  induction ps as [|p ps IH]; intros from v pushed R V;
    cbn [Recipe.forEachPage] in R.
  - injection R as <-. destruct V.
  - destruct p as [p|]; [|discriminate].
    destruct (Recipe.forEachPage ps (S from)) as [more|] eqn:F;
      [|discriminate].
    injection R as <-. apply in_app_or in V. destruct V as [V | V].
    + exists 0%nat, p. split; [reflexivity|]. rewrite Nat.add_0_r. exact V.
    + destruct (IH (S from) v more F V) as (i & page & N & W).
      exists (S i), page. split; [exact N|].
      rewrite <- Nat.add_succ_comm. exact W.
Qed.

Lemma page_errors_justified (recipe : Recipe.t)
  (ps : list (option Recipe.Page)) (pushed : list Recipe.Violation)
  (v : Recipe.Violation) :
  Recipe.pages recipe = Some (Recipe.PageArray ps) ->
  Recipe.forEachPage ps 0 = Recipe.Returned pushed ->
  In v pushed -> justified recipe v.
Proof.
  intros P F V.
  destruct (forEachPage_sound ps 0 v pushed F V) as (i & page & N & W).
  destruct (validatePage_sound page (0 + i) v W) as (t & T & J).
  cbn [Nat.add] in J.
  destruct v; cbn [page_justified] in J; try contradiction;
    destruct J as [-> J]; exists ps, i, page, t; auto.
Qed.

(** X25: every error [validateRecipe] returns has its cause in the recipe:
    a missing version or file name, no pages, or a page, at the number the
    error names, whose transforms hold the defect the error names. *)
Theorem validateRecipe_reports_only_defects :
  forall (recipe : Recipe.t) (result : Recipe.Validation)
         (v : Recipe.Violation),
    Recipe.validateRecipe (Some recipe) = Recipe.Returned result ->
    In v (Recipe.errors result) ->
    justified recipe v.
Proof.
  intros recipe result v R.
  destruct (validateRecipe_returned recipe result R) as (_ & pushed & F & ->).
  intro V.
  apply in_app_or in V. destruct V as [V | V].
  { destruct (Recipe.truthy_string (Recipe.version recipe)) eqn:E;
      [destruct V|]. destruct V as [<- | []]. exact E. }
  apply in_app_or in V. destruct V as [V | V].
  { destruct (Recipe.truthy_string
                (Recipe.chain (Recipe.source recipe) Recipe.fileName)) eqn:E;
      [destruct V|]. destruct V as [<- | []]. exact E. }
  apply in_app_or in V.
  destruct (Recipe.pages recipe) as [[[|page rest]|]|] eqn:P;
    try contradiction.
  - destruct V as [[<- | []] | V]; [right; exact P|].
    apply (page_errors_justified recipe [] pushed v P F V).
  - destruct V as [[] | V].
    apply (page_errors_justified recipe (page :: rest) pushed v P F V).
  - subst pushed. destruct V as [[<- | []] | []]. left. exact P.
Qed.

Lemma validateRecipe_reports_only_defects_witness :
  justified (onePage (rotationOnlyPage 45)) (Recipe.InvalidRotation 1 45).
Proof.
  eapply validateRecipe_reports_only_defects; [reflexivity|].
  left. reflexivity.
Defined.

(** ** The recipe exporter against the validator *)

Lemma string_or_truthy (v : option string) (c : ascii) (d : string) :
  Recipe.truthy_string (Some (RecipeExporter.string_or v (String c d))) = true.
Proof. destruct v as [[|? ?]|]; reflexivity. Qed.

Lemma or_else_truthy (v : option Q) (d : Q) :
  ~ d == 0 -> ~ JS.or_else v d == 0.
Proof.
  intro D. unfold JS.or_else, JS.truthy. destruct v as [a|]; [|exact D].
  destruct (Qeq_bool a 0) eqn:E; cbn [negb]; [exact D|].
  intro Z. apply Qeq_bool_iff in Z. congruence.
Qed.

Lemma mapPages_nth (ps : list RecipeExporter.InputPage) :
  forall (from i : nat) (generated : RecipeExporter.PageRecipe),
    nth_error (RecipeExporter.mapPages ps from) i = Some generated ->
    exists page, nth_error ps i = Some page /\
                 generated = RecipeExporter.generatePageRecipe page (from + i).
Proof.
  induction ps as [|p ps IH]; intros from i generated N.
  - destruct i; discriminate.
  - destruct i as [|i]; cbn [RecipeExporter.mapPages nth_error] in N.
    + injection N as <-. exists p. rewrite Nat.add_0_r. split; reflexivity.
    + destruct (IH (S from) i generated N) as (page & P & G).
      exists page. split; [exact P|]. rewrite <- Nat.add_succ_comm. exact G.
Qed.

Lemma mapPages_length (ps : list RecipeExporter.InputPage) (from : nat) :
  List.length (RecipeExporter.mapPages ps from) = List.length ps.
Proof.
  revert from. induction ps as [|p ps IH]; intro from; [reflexivity|].
  cbn [RecipeExporter.mapPages List.length]. rewrite IH. reflexivity.
Qed.

Lemma generated_pages (now : string) (options : RecipeExporter.Options) :
  RecipeExporter.pages (RecipeExporter.generatePrintRecipe now options) =
  RecipeExporter.generatePageRecipes (RecipeExporter.inPages options).
Proof. reflexivity. Qed.

Lemma page_errors_have_number (ps : list (option Recipe.Page))
  (pushed : list Recipe.Violation) (v : Recipe.Violation) :
  Recipe.forEachPage ps 0 = Recipe.Returned pushed ->
  In v pushed -> violation_page v <> None.
Proof.
  intros F V.
  destruct (forEachPage_sound ps 0 v pushed F V) as (i & page & N & W).
  destruct (validatePage_sound page (0 + i) v W) as (t & T & J).
  destruct v; cbn [page_justified] in J; try contradiction; discriminate.
Qed.

(** The validator returns on a generated recipe, and all its errors but
    the one for no pages come from [forEach]. *)
Lemma generated_errors (now : string) (options : RecipeExporter.Options) :
  let recipe := RecipeExporter.generatePrintRecipe now options in
  exists (entries : list (option Recipe.Page))
         (result : Recipe.Validation) (pushed : list Recipe.Violation),
    Recipe.pages (RecipeExporter.asValidated recipe)
      = Some (Recipe.PageArray entries) /\
    List.length entries = List.length (RecipeExporter.pages recipe) /\
    Recipe.validateRecipe (Some (RecipeExporter.asValidated recipe))
      = Recipe.Returned result /\
    Recipe.forEachPage entries 0 = Recipe.Returned pushed /\
    Recipe.errors result =
      match entries with
      | [] => [Recipe.NoPages]
      | _ :: _ => []
      end ++ pushed.
Proof.
  cbv zeta.
  set (recipe := RecipeExporter.generatePrintRecipe now options).
  destruct (Recipe.pages (RecipeExporter.asValidated recipe))
    as [[entries|]|] eqn:P; try discriminate.
  exists entries.
  assert (L : List.length entries = List.length (RecipeExporter.pages recipe)).
  { unfold RecipeExporter.asValidated in P. cbn [Recipe.pages] in P.
    injection P as <-. apply length_map. }
  assert (Whole : ~ In None entries).
  { unfold RecipeExporter.asValidated in P. cbn [Recipe.pages] in P.
    injection P as <-. intro N. apply in_map_iff in N.
    destruct N as (page & N & _). discriminate. }
  destruct (Recipe.validateRecipe (Some (RecipeExporter.asValidated recipe)))
    as [result|] eqn:R.
  - destruct (validateRecipe_returned _ result R) as (_ & pushed & F & E).
    rewrite P in F, E. exists result, pushed.
    repeat split; try assumption.
    rewrite E. unfold RecipeExporter.asValidated.
    cbn [Recipe.version Recipe.source Recipe.chain Recipe.fileName].
    unfold recipe, RecipeExporter.generatePrintRecipe.
    cbn [RecipeExporter.version RecipeExporter.source RecipeExporter.fileName].
    rewrite string_or_truthy. destruct entries; reflexivity.
  - exfalso. apply validateRecipe_throws in R.
    cbn [breaks_validation] in R. rewrite P in R. contradiction.
Qed.

(** X26: [validateRecipe] returns on every recipe built by
    [generatePrintRecipe], and what it returns always passes the version and
    the file name checks; it is reported to have no pages exactly when the
    options hold no page; and no generated page has scale zero, so a
    generated scale is reported exactly when it lies outside [10, 500]. *)
Theorem generated_recipe_validation :
  forall (now : string) (options : RecipeExporter.Options),
    let recipe := RecipeExporter.generatePrintRecipe now options in
    exists result : Recipe.Validation,
      Recipe.validateRecipe (Some (RecipeExporter.asValidated recipe))
        = Recipe.Returned result /\
      let errors := Recipe.errors result in
      ~ In Recipe.MissingVersion errors /\
      ~ In Recipe.MissingSourceFileName errors /\
      (In Recipe.NoPages errors <->
       RecipeExporter.inPages options = None \/
       RecipeExporter.inPages options = Some []) /\
      forall (i : nat) (page : RecipeExporter.PageRecipe),
        nth_error (RecipeExporter.pages recipe) i = Some page ->
        let s := RecipeExporter.scale (RecipeExporter.transforms page) in
        ~ s == 0 /\
        (s < 10 \/ 500 < s <-> In (Recipe.InvalidScale (i + 1) s) errors).
Proof.
  intros now options recipe.
  destruct (generated_errors now options)
    as (entries & result & pushed & P & L & R & F & E).
  fold recipe in P, L, R.
  exists result. split; [exact R|]. intro errors. subst errors.
  assert (H : forall v, violation_page v = None ->
                        In v (Recipe.errors result) ->
                        v = Recipe.NoPages /\
                        RecipeExporter.pages recipe = []).
  { intros v W V. rewrite E in V. apply in_app_or in V.
    destruct V as [V | V].
    - destruct entries; [|destruct V]. destruct V as [<- | []].
      split; [reflexivity|]. apply length_zero_iff_nil. rewrite <- L.
      reflexivity.
    - apply (page_errors_have_number entries pushed v F) in V.
      contradiction. }
  assert (G : RecipeExporter.pages recipe = [] <->
              RecipeExporter.inPages options = None \/
              RecipeExporter.inPages options = Some []).
  { subst recipe. rewrite generated_pages.
    destruct (RecipeExporter.inPages options) as [[|p rest]|];
      cbn; intuition discriminate. }
  split; [intro V; apply H in V; [destruct V; discriminate|reflexivity]|].
  split; [intro V; apply H in V; [destruct V; discriminate|reflexivity]|].
  split.
  { split.
    - intro V. apply G. apply (H Recipe.NoPages eq_refl V).
    - intro N. apply G in N. rewrite E. apply in_or_app. left.
      rewrite N in L. destruct entries; [|discriminate].
      left. reflexivity. }
  intros i page N s.
  assert (NZ : ~ s == 0).
  { subst s recipe. rewrite generated_pages in N.
    destruct (RecipeExporter.inPages options) as [ps|];
      [|destruct i; discriminate].
    destruct (mapPages_nth ps 0 i page N) as (input & _ & ->).
    cbn [RecipeExporter.generatePageRecipe RecipeExporter.transforms
         RecipeExporter.scale].
    apply or_else_truthy. discriminate. }
  split; [exact NZ|].
  set (view := fun page : RecipeExporter.PageRecipe =>
         Some
           {| Recipe.transforms :=
                Some {| Recipe.rotation :=
                          Some (RecipeExporter.rotation (RecipeExporter.transforms page));
                        Recipe.scale :=
                          Some (RecipeExporter.scale (RecipeExporter.transforms page));
                        Recipe.offsetX :=
                          Some (RecipeExporter.offsetX (RecipeExporter.transforms page));
                        Recipe.offsetY :=
                          Some (RecipeExporter.offsetY (RecipeExporter.transforms page));
                        Recipe.crop :=
                          RecipeExporter.crop (RecipeExporter.transforms page) |} |}).
  assert (P' : entries = map view (RecipeExporter.pages recipe)).
  { unfold RecipeExporter.asValidated in P. cbn [Recipe.pages] in P.
    injection P as <-. reflexivity. }
  assert (N' : exists viewed, view page = Some viewed /\
                 nth_error entries i = Some (Some viewed) /\
                 Recipe.transforms viewed =
                   Some {| Recipe.rotation :=
                             Some (RecipeExporter.rotation (RecipeExporter.transforms page));
                           Recipe.scale := Some s;
                           Recipe.offsetX :=
                             Some (RecipeExporter.offsetX (RecipeExporter.transforms page));
                           Recipe.offsetY :=
                             Some (RecipeExporter.offsetY (RecipeExporter.transforms page));
                           Recipe.crop :=
                             RecipeExporter.crop (RecipeExporter.transforms page) |}).
  { eexists. split; [reflexivity|]. split; [|reflexivity].
    rewrite P', nth_error_map, N. reflexivity. }
  destruct N' as (viewed & _ & Nv & Tv).
  split.
  - intro Bad.
    apply (validateRecipe_reports _ entries result i viewed _ R P Nv).
    apply (validatePage_scale viewed _ i s Tv); [|exact NZ].
    split; [reflexivity|exact Bad].
  - intro V. rewrite E in V. apply in_app_or in V.
    destruct V as [V | V]; [destruct entries; [destruct V as [V | []]|destruct V];
                            discriminate|].
    destruct (forEachPage_sound _ 0 _ pushed F V) as (j & other & Nj & W).
    destruct (validatePage_sound other (0 + j) _ W) as (t & T & J).
    cbn [page_justified Nat.add] in J. destruct J as [I [S Bad]].
    exact Bad.
Qed.

Lemma generated_recipe_validation_witness :
  exists result : Recipe.Validation,
    Recipe.validateRecipe
      (Some (RecipeExporter.asValidated
               (RecipeExporter.generatePrintRecipe "now" (onePageJob 5))))
      = Recipe.Returned result /\
    In (Recipe.InvalidScale 1 5) (Recipe.errors result).
Proof.
  destruct (generated_recipe_validation "now" (onePageJob 5))
    as (result & R & _ & _ & _ & Scale).
  exists result. split; [exact R|].
  apply (proj2 (Scale 0%nat _ eq_refl)).
  left. reflexivity.
Defined.

(** ** The transform pipeline *)

Lemma normalized_fixed (r : Q) :
  0 <= r < 360 -> JS.rem (JS.rem r 360 + 360) 360 == r.
Proof.
  intro N.
  assert (S : JS.rem r 360 == r) by (apply rem_360_small; lra).
  rewrite (rem_comp (JS.rem r 360 + 360) (r + 360)) by (rewrite S; reflexivity).
  rewrite rem_360_wrap by lra. ring.
Qed.

Lemma crop_eq_refl (crop : CropArea) : crop_eq crop crop.
Proof. unfold crop_eq. repeat split; reflexivity. Qed.

(** What [setRotation] leaves in the edit state. *)
Lemma setRotation_edits (now degrees : Q) (self : TransformPipeline.t) :
  let normalized := JS.rem (JS.rem degrees 360 + 360) 360 in
  let edits := TransformPipeline.editHistory self in
  TransformPipeline.editHistory
    (value (TransformPipeline.setRotation now degrees self)) =
  TransformPipeline.mkEdits
    normalized
    (TransformPipeline.scale edits)
    (TransformPipeline.offsetX edits) (TransformPipeline.offsetY edits)
    (match TransformPipeline.cropArea edits with
     | Some crop =>
         if TransformPipeline.rotation edits <>? normalized
         then Some (value (Geometry.remapCropBetweenRotations
                             crop (TransformPipeline.rotation edits) normalized))
         else Some crop
     | None => None
     end).
Proof.
  cbv zeta. unfold TransformPipeline.setRotation. cbv zeta.
  rewrite value_bind, value_ret. cbn [TransformPipeline.editHistory].
  f_equal.
  destruct (TransformPipeline.cropArea (TransformPipeline.editHistory self));
    [|reflexivity].
  rewrite value_if, value_bind, !value_ret. reflexivity.
Qed.

Lemma remapCropBetweenRotations_silent (crop : CropArea) (r1 r2 : Q) :
  written (Geometry.remapCropBetweenRotations crop r1 r2) = [].
Proof.
  unfold Geometry.remapCropBetweenRotations.
  rewrite !written_bind, remapCropForRotation_silent,
    forwardMapCropToRotation_silent.
  reflexivity.
Qed.

(** X27: [setRotation] stores a rotation in [0, 360), and when a crop is
    set it re-expresses the crop for the new rotation: mapped back to the
    unrotated page, the new crop at the new rotation is the old crop at the
    old rotation.  Nothing is written to the console. *)
Theorem setRotation_keeps_original_crop :
  forall (now degrees : Q) (self : TransformPipeline.t) (crop : CropArea),
    TransformPipeline.cropArea (TransformPipeline.editHistory self) = Some crop ->
    let before := TransformPipeline.editHistory self in
    let after :=
      TransformPipeline.editHistory
        (value (TransformPipeline.setRotation now degrees self)) in
    0 <= TransformPipeline.rotation after < 360 /\
    (exists moved : CropArea,
       TransformPipeline.cropArea after = Some moved /\
       crop_eq
         (value (Geometry.remapCropForRotation
                   moved (TransformPipeline.rotation after)))
         (value (Geometry.remapCropForRotation
                   crop (TransformPipeline.rotation before)))) /\
    written (TransformPipeline.setRotation now degrees self) = [].
Proof.
  intros now degrees self crop C before after. subst before after.
  rewrite setRotation_edits. cbv zeta.
  cbn [TransformPipeline.rotation TransformPipeline.cropArea]. rewrite C.
  set (normalized := JS.rem (JS.rem degrees 360 + 360) 360).
  set (r := TransformPipeline.rotation (TransformPipeline.editHistory self)).
  split; [apply normalized_range|]. split.
  - destruct (r <>? normalized) eqn:T; reflect_test T.
    + eexists. split; [reflexivity|].
      rewrite remapCropBetweenRotations_value. apply remap_after_forward.
    + exists crop. split; [reflexivity|].
      rewrite (remapCropForRotation_comp crop r normalized T).
      apply crop_eq_refl.
  - unfold TransformPipeline.setRotation. cbv zeta. rewrite C.
    fold normalized. fold r.
    rewrite written_bind.
    destruct (r <>? normalized).
    + rewrite written_bind, remapCropBetweenRotations_silent. reflexivity.
    + reflexivity.
Qed.

(** X28: for a pipeline whose rotation is in [0, 360), setting any rotation
    and then the first one again restores the rotation and the crop, and
    leaves scale and offsets as they were. *)
Theorem setRotation_round_trip :
  forall (now later degrees : Q) (self : TransformPipeline.t),
    0 <= TransformPipeline.rotation (TransformPipeline.editHistory self) < 360 ->
    let before := TransformPipeline.editHistory self in
    let after :=
      TransformPipeline.editHistory
        (value (TransformPipeline.setRotation later
                  (TransformPipeline.rotation before)
                  (value (TransformPipeline.setRotation now degrees self)))) in
    TransformPipeline.rotation after == TransformPipeline.rotation before /\
    opt_eq crop_eq (TransformPipeline.cropArea after)
                   (TransformPipeline.cropArea before) /\
    TransformPipeline.scale after = TransformPipeline.scale before /\
    TransformPipeline.offsetX after = TransformPipeline.offsetX before /\
    TransformPipeline.offsetY after = TransformPipeline.offsetY before.
Proof.
  intros now later degrees self R before after. subst before after.
  rewrite !setRotation_edits. cbv zeta.
  cbn [TransformPipeline.rotation TransformPipeline.cropArea
       TransformPipeline.scale TransformPipeline.offsetX
       TransformPipeline.offsetY].
  set (r := TransformPipeline.rotation (TransformPipeline.editHistory self)) in *.
  pose proof (normalized_fixed r R) as F.
  set (back := JS.rem (JS.rem r 360 + 360) 360) in *.
  set (normalized := JS.rem (JS.rem degrees 360 + 360) 360).
  split; [exact F|]. split; [|repeat split].
  destruct (TransformPipeline.cropArea (TransformPipeline.editHistory self))
    as [crop|]; [|exact I].
  destruct (r <>? normalized) eqn:T1; reflect_test T1;
    destruct (normalized <>? back) eqn:T2; reflect_test T2; cbn [opt_eq].
  - rewrite (remapCropBetweenRotations_value _ normalized back).
    rewrite (forwardMapCropToRotation_comp _ back r F).
    rewrite <- remapCropBetweenRotations_value.
    apply remapCropBetweenRotations_round_trip.
  - exfalso. apply T1. rewrite T2. symmetry. exact F.
  - exfalso. apply T2. rewrite <- T1. symmetry. exact F.
  - apply crop_eq_refl.
Qed.

Lemma setRotation_keeps_original_crop_witness :
  written (TransformPipeline.setRotation 1 90 samplePipeline) = [].
Proof.
  exact (proj2 (proj2 (setRotation_keeps_original_crop
                         1 90 samplePipeline sampleCrop eq_refl))).
Defined.

Lemma setRotation_round_trip_witness :
  opt_eq crop_eq
    (TransformPipeline.cropArea
       (TransformPipeline.editHistory
          (value (TransformPipeline.setRotation 2 0
                    (value (TransformPipeline.setRotation 1 90 samplePipeline))))))
    (Some sampleCrop).
Proof.
  refine (proj1 (proj2 (setRotation_round_trip 1 2 90 samplePipeline _))).
  split; [discriminate|reflexivity].
Defined.

Lemma or_else_again (v : option Q) (d : Q) :
  JS.or_else (Some (JS.or_else v d)) d = JS.or_else v d.
Proof.
  unfold JS.or_else. destruct v as [a|].
  - destruct (JS.truthy a) eqn:T; [rewrite T; reflexivity|].
    destruct (JS.truthy d); reflexivity.
  - destruct (JS.truthy d); reflexivity.
Qed.

Lemma restored_edit_normalizes (page : TransformPipeline.Page)
  (target : Dimensions) (h : EditHistory) :
  TransformPipeline.pageEditHistory page = Some h ->
  let pipeline := TransformPipeline.createPipelineForPage page target in
  Geometry.normalizeEditHistory
    (TransformPipeline.originalDims pipeline)
    (Some (TransformPipeline.getEditHistory pipeline)) =
  Geometry.normalizeEditHistory
    {| dimWidth := TransformPipeline.pageWidth page;
       dimHeight := TransformPipeline.pageHeight page |} (Some h).
Proof.
  intros H. cbv zeta. unfold TransformPipeline.createPipelineForPage.
  rewrite H. destruct h as [c r s x y].
  unfold TransformPipeline.getEditHistory. cbv zeta.
  cbn [TransformPipeline.editHistory TransformPipeline.originalDims
       TransformPipeline.create
       TransformPipeline.rotation TransformPipeline.scale
       TransformPipeline.offsetX TransformPipeline.offsetY
       TransformPipeline.cropArea].
  unfold Geometry.normalizeEditHistory.
  cbn [cropArea rotation scale offsetX offsetY].
  rewrite !or_else_again. reflexivity.
Qed.

Section Restore.

Context {M : MathLib}.

(** X29: a pipeline restored from a page that has an edit draws as the
    edit itself does: [getCanvasTransform] of [createPipelineForPage]
    returns, and writes, what [buildCanonicalTransform] does on the page's
    own dimensions and edit. *)
Theorem restored_pipeline_draws_as_page :
  forall (page : TransformPipeline.Page) (target : Dimensions)
         (h : EditHistory),
    TransformPipeline.pageEditHistory page = Some h ->
    TransformPipeline.getCanvasTransform
      (TransformPipeline.createPipelineForPage page target) =
    Geometry.buildCanonicalTransform
      {| dimWidth := TransformPipeline.pageWidth page;
         dimHeight := TransformPipeline.pageHeight page |} target (Some h).
Proof.
  intros page target h H.
  unfold TransformPipeline.getCanvasTransform, Geometry.buildCanonicalTransform.
  rewrite (restored_edit_normalizes page target h H).
  unfold TransformPipeline.createPipelineForPage. rewrite H.
  destruct h as [c r s x y]. reflexivity.
Qed.

End Restore.

Lemma restored_pipeline_draws_as_page_witness :
  TransformPipeline.getCanvasTransform (M := taylorMath)
    (TransformPipeline.createPipelineForPage restoredPage a4) =
  Geometry.buildCanonicalTransform (M := taylorMath)
    a4 a4 (Some (cropAt sampleCrop 90)).
Proof.
  exact (restored_pipeline_draws_as_page (M := taylorMath)
           restoredPage a4 (cropAt sampleCrop 90) eq_refl).
Defined.
